(** * react-native-serial-transport: the native port coordinator and the
      script-side transport object

    The development embeds two layers of the package:

    - [SerialPortModule] follows [SerialPortModule.kt], the Android native
      module that owns the serial port, the inbound byte queue and the
      pending permission promise;
    - [SerialTransport] follows the TypeScript class of the same name, which
      caches the connection flag, the device name and the baud rate.

    The Android USB stack and the usb-serial-for-android driver are outside
    the package.  Their answers are collected in a [Platform] record that
    every operation receives, so that all statements quantify over whatever
    the platform may answer.

    The module runs on several threads: the bridge calls, the broadcast
    receiver, the read loop launched by [startReading] and the coroutines
    launched by [read].  A body that runs without blocking or suspending is
    one step of the model; the read loop and the [read] coroutines are cut
    at every point where they block, suspend or touch the queue, and a
    history interleaves their steps with everything else. *)

From stdpp Require Import gmap strings list pretty.
From Stdlib Require Import ZArith.

Local Open Scope string_scope.
Local Open Scope Z_scope.

(** ** Values that cross the React Native bridge *)

(** Scalars stored in a [WritableMap] by [putString], [putInt], [putBoolean]. *)
Inductive Prim : Type :=
| PString (s : string)
| PInt (n : Z)
| PBool (b : bool).

(** Whatever a native method hands to [promise.resolve]. *)
Inductive Resolved : Type :=
| ResMap (m : gmap string Prim)
| ResArray (l : list (gmap string Prim))
| ResInts (l : list Z)
| ResInt (n : Z)
| ResBool (b : bool).

(** A call of [promise.resolve] or of [promise.reject(code, message)]. *)
Inductive Settlement : Type :=
| Resolve (v : Resolved)
| Reject (code : string) (message : string).

(** Promises are identified by the number of the bridge call that made them. *)
Definition Promise : Type := nat.
Bind Scope nat_scope with Promise.

(** Kotlin exceptions, split the way the [catch] clauses of the module split
    them: [IOException] and every other [Exception]. *)
Inductive Throwable : Type :=
| IOException (message : string)
| Exception (message : string).

Definition getMessage (e : Throwable) : string :=
  match e with
  | IOException msg => msg
  | Exception msg => msg
  end.

(** How a block of code ends: normally with a value, or by throwing. *)
Inductive Completion (A : Type) : Type :=
| Normal (a : A)
| Abrupt (e : Throwable).
Arguments Normal {A} a.
Arguments Abrupt {A} e.

(** ** The platform *)

(** [android.hardware.usb.UsbDevice], restricted to the getters the module
    calls.  The three name getters are nullable. *)
Record UsbDevice : Type := mkUsbDevice {
  deviceName : string;
  vendorId : Z;
  productId : Z;
  manufacturerName : option string;
  productName : option string;
  serialNumber : option string;
  deviceClass : Z;
  deviceSubclass : Z
}.

(** A port of a probed driver: the device it belongs to and its index. *)
Record UsbSerialPort : Type := mkUsbSerialPort {
  portDevice : string;
  portNumber : nat
}.

(** Answers of the USB manager and of the serial driver.  A call answers
    [None] when it returns and [Some e] when it throws [e].
    [UsbDevice.getSerialNumber] is a call into the USB service, which
    throws a [SecurityException] when the caller may not read the serial
    number; when it returns, it returns the [serialNumber] of the device. *)
Record Platform : Type := mkPlatform {
  deviceList : list UsbDevice;
  hasPermission : UsbDevice -> bool;
  device_getSerialNumber : UsbDevice -> option Throwable;
  probeDevice : UsbDevice -> option (list UsbSerialPort);
  openDevice : UsbDevice -> bool;
  port_open : UsbSerialPort -> option Throwable;
  port_setParameters : UsbSerialPort -> Z -> option Throwable;
  port_setDTR : UsbSerialPort -> bool -> option Throwable;
  port_setRTS : UsbSerialPort -> bool -> option Throwable;
  port_write : UsbSerialPort -> list Z -> option Throwable;
  port_close : UsbSerialPort -> option Throwable
}.

(** ** Bytes *)

(** A JavaScript number that reaches Kotlin as an [Int], as an argument of
    a method or through [ReadableArray.getInt]: the bridge holds a double
    and casts it, and the cast of a double to a 32-bit integer saturates. *)
Definition intValue (n : Z) : Z := Z.max (-2147483648) (Z.min 2147483647 n).

(** [Int.toByte()]: the low eight bits, read as a signed byte. *)
Definition toByte (n : Z) : Z := (n + 128) mod 256 - 128.

(** [data.getInt(i).toByte()]: the byte [write] sends for a number of the
    array it is given. *)
Definition byteOf (n : Z) : Z := toByte (intValue n).

(** [byte.toInt() and 0xFF]: a signed byte seen as an unsigned value. *)
Definition toUnsigned (b : Z) : Z := Z.land b 255.

(** ** The native module *)

Module SerialPortModule.

(** State of a coroutine job: whether [cancel()] was called on it. *)
Inductive Job : Type := Active | Cancelled.

(** Where a read loop launched by [startReading] stands: about to test the
    condition of its [while]; inside [port.read(buffer, 100)] on the port
    it found in [serialPort]; in the [for] that offers the bytes read, with
    the bytes still to offer; in the [catch] clause, about to run the
    block of [withContext(Dispatchers.Main)] and then about to resume
    after it; or at its end. *)
Inductive Position : Type :=
| AtHead
| InRead (port : UsbSerialPort)
| Offering (bytes : list Z)
| Notifying (message : string)
| Notified
| Finished.

(** A read loop together with the job it runs in. *)
Record Loop : Type := mkLoop {
  position : Position;
  job : Job
}.

(** A [read] coroutine launched on the scope: its promise, its timeout,
    its [startTime] once taken, and the [result] array built so far. *)
Record Drain : Type := mkDrain {
  drainPromise : Promise;
  drainTimeout : Z;
  startTime : option Z;
  result : list Z
}.

(** How a byte left the head of the queue. *)
Inductive Removal : Type :=
| Polled (by_read : Promise)
| Cleared.

(** The mutable fields of the Kotlin class ([serialPort], [isConnected],
    [readBuffer], [readJob], [permissionPromise]) followed by the effects
    the module has on its surroundings: promise settlements in call order,
    events sent to JavaScript, permission requests handed to the USB
    manager, coroutines launched by the broadcast receiver that have not
    run yet, [read] coroutines in flight, every read loop ever launched,
    in launch order, and the history of the queue (every byte ever
    offered, every byte removed and how).

    [readJob] refers to the job of the loop launched last; the field
    holds the state of that job, which the entry of the loop in [loops]
    holds as well, and [cancel] changes both. *)
Record t : Type := mk {
  serialPort : option UsbSerialPort;
  isConnected : bool;
  readBuffer : list Z;
  readJob : option Job;
  permissionPromise : option Promise;
  settled : list (Promise * Settlement);
  emitted : list (string * gmap string Prim);
  requested : list (UsbDevice * Promise);
  launched : list UsbDevice;
  drains : list Drain;
  loops : list Loop;
  offered : list Z;
  removed : list (Z * Removal)
}.

(** A freshly constructed module. *)
Definition init : t :=
  {| serialPort := None; isConnected := false; readBuffer := [];
     readJob := None; permissionPromise := None; settled := [];
     emitted := []; requested := []; launched := []; drains := [];
     loops := []; offered := []; removed := [] |}.

Definition set_serialPort (v : option UsbSerialPort) (m : t) : t :=
  mk v (isConnected m) (readBuffer m) (readJob m) (permissionPromise m)
     (settled m) (emitted m) (requested m) (launched m) (drains m) (loops m)
     (offered m) (removed m).
Definition set_isConnected (v : bool) (m : t) : t :=
  mk (serialPort m) v (readBuffer m) (readJob m) (permissionPromise m)
     (settled m) (emitted m) (requested m) (launched m) (drains m) (loops m)
     (offered m) (removed m).
Definition set_readBuffer (v : list Z) (m : t) : t :=
  mk (serialPort m) (isConnected m) v (readJob m) (permissionPromise m)
     (settled m) (emitted m) (requested m) (launched m) (drains m) (loops m)
     (offered m) (removed m).
Definition set_readJob (v : option Job) (m : t) : t :=
  mk (serialPort m) (isConnected m) (readBuffer m) v (permissionPromise m)
     (settled m) (emitted m) (requested m) (launched m) (drains m) (loops m)
     (offered m) (removed m).
Definition set_permissionPromise (v : option Promise) (m : t) : t :=
  mk (serialPort m) (isConnected m) (readBuffer m) (readJob m) v (settled m)
     (emitted m) (requested m) (launched m) (drains m) (loops m) (offered m)
     (removed m).
Definition set_settled (v : list (Promise * Settlement)) (m : t) : t :=
  mk (serialPort m) (isConnected m) (readBuffer m) (readJob m)
     (permissionPromise m) v (emitted m) (requested m) (launched m)
     (drains m) (loops m) (offered m) (removed m).
Definition set_emitted (v : list (string * gmap string Prim)) (m : t) : t :=
  mk (serialPort m) (isConnected m) (readBuffer m) (readJob m)
     (permissionPromise m) (settled m) v (requested m) (launched m)
     (drains m) (loops m) (offered m) (removed m).
Definition set_requested (v : list (UsbDevice * Promise)) (m : t) : t :=
  mk (serialPort m) (isConnected m) (readBuffer m) (readJob m)
     (permissionPromise m) (settled m) (emitted m) v (launched m) (drains m)
     (loops m) (offered m) (removed m).
Definition set_launched (v : list UsbDevice) (m : t) : t :=
  mk (serialPort m) (isConnected m) (readBuffer m) (readJob m)
     (permissionPromise m) (settled m) (emitted m) (requested m) v
     (drains m) (loops m) (offered m) (removed m).
Definition set_drains (v : list Drain) (m : t) : t :=
  mk (serialPort m) (isConnected m) (readBuffer m) (readJob m)
     (permissionPromise m) (settled m) (emitted m) (requested m)
     (launched m) v (loops m) (offered m) (removed m).
Definition set_loops (v : list Loop) (m : t) : t :=
  mk (serialPort m) (isConnected m) (readBuffer m) (readJob m)
     (permissionPromise m) (settled m) (emitted m) (requested m)
     (launched m) (drains m) v (offered m) (removed m).
Definition set_offered (v : list Z) (m : t) : t :=
  mk (serialPort m) (isConnected m) (readBuffer m) (readJob m)
     (permissionPromise m) (settled m) (emitted m) (requested m)
     (launched m) (drains m) (loops m) v (removed m).
Definition set_removed (v : list (Z * Removal)) (m : t) : t :=
  mk (serialPort m) (isConnected m) (readBuffer m) (readJob m)
     (permissionPromise m) (settled m) (emitted m) (requested m)
     (launched m) (drains m) (loops m) (offered m) v.

(** *** Kotlin blocks as state transformers that may throw

    A field assigned before an exception is thrown stays assigned, so the
    state is threaded through abrupt completions as well. *)
Definition Kt (A : Type) : Type := t -> t * Completion A.

Definition ret {A} (a : A) : Kt A := fun m => (m, Normal a).
Definition throw {A} (e : Throwable) : Kt A := fun m => (m, Abrupt e).
Definition bind {A B} (c : Kt A) (k : A -> Kt B) : Kt B :=
  fun m =>
    match c m with
    | (m', Normal a) => k a m'
    | (m', Abrupt e) => (m', Abrupt e)
    end.
Definition try_catch {A} (body : Kt A) (handler : Throwable -> Kt A) : Kt A :=
  fun m =>
    match body m with
    | (m', Abrupt e) => handler e m'
    | r => r
    end.
Definition get : Kt t := fun m => (m, Normal m).
Definition modify (f : t -> t) : Kt unit := fun m => (f m, Normal tt).
(** A call into the driver. *)
Definition call (answer : option Throwable) : Kt unit :=
  match answer with
  | None => ret tt
  | Some e => throw e
  end.
(** A block whose [catch] clauses cover everything: only the state is left. *)
Definition exec (c : Kt unit) (m : t) : t := fst (c m).

Notation "'let*' x ':=' c 'in' k" := (bind c (fun x => k))
  (at level 10, x name, c at level 100, k at level 200).
Notation "c ;;; k" := (bind c (fun _ => k))
  (at level 100, k at level 200, right associativity).

(** [promise.resolve(..)] / [promise.reject(..)] *)
Definition settle (p : Promise) (s : Settlement) : Kt unit :=
  modify (fun m => set_settled (settled m ++ [(p, s)]) m).
(** [promise?.resolve(..)] / [promise?.reject(..)] *)
Definition settle_opt (p : option Promise) (s : Settlement) : Kt unit :=
  match p with
  | Some p => settle p s
  | None => ret tt
  end.
(** [sendEvent(eventName, params)] *)
Definition sendEvent (name : string) (params : gmap string Prim) : Kt unit :=
  modify (fun m => set_emitted (emitted m ++ [(name, params)]) m).

Definition EVENT_USB_ATTACHED : string := "onUsbAttached".
Definition EVENT_USB_DETACHED : string := "onUsbDetached".
Definition EVENT_ERROR : string := "onError".

Section Methods.
Variable P : Platform.

(** [requestPermission(device, promise, baudRate)]: the promise is
    stored unconditionally, then the USB manager is asked.  The
    [baudRate] argument is not used by the body. *)
Definition requestPermission (device : UsbDevice) (promise : Promise)
    (baudRate : Z) : Kt unit :=
  modify (set_permissionPromise (Some promise)) ;;;
  modify (fun m => set_requested (requested m ++ [(device, promise)]) m).

(** [startReading()]: a loop is launched and its job replaces the one
    held in [readJob].  The job replaced is not cancelled here. *)
Definition startReading : Kt unit :=
  modify (fun m => set_readJob (Some Active) (set_loops (loops m ++ [mkLoop AtHead Active]) m)).

(** The map resolved by a successful open. *)
Definition connectedMap (device : UsbDevice) (baudRate : Z) : gmap string Prim :=
  <["baudRate" := PInt baudRate]>
    (<["deviceName" := PString (deviceName device)]>
      (<["connected" := PBool true]> ∅)).

(** [openDeviceInternal(device, promise, baudRate)].  [driver.ports[0]]
    throws on a driver without ports; [serialPort] is assigned before the
    port is opened.  With a null promise the trailing [?: run] block
    rejects through the same null promise, which does nothing. *)
Definition openDeviceInternal (device : UsbDevice) (promise : option Promise)
    (baudRate : Z) : Kt unit :=
  try_catch
    (match probeDevice P device with
     | None => settle_opt promise (Reject "NO_DRIVER" "No driver found for device")
     | Some ports =>
       if negb (openDevice P device)
       then settle_opt promise (Reject "OPEN_FAILED" "Failed to open device connection")
       else
         match ports with
         | [] => throw (Exception "Index 0 out of bounds for length 0")
         | port0 :: _ =>
           modify (set_serialPort (Some port0)) ;;;
           let* m := get in
           match serialPort m with
           | Some port =>
             call (port_open P port) ;;;
             call (port_setParameters P port baudRate) ;;;
             call (port_setDTR P port true) ;;;
             call (port_setRTS P port true) ;;;
             modify (set_isConnected true) ;;;
             startReading ;;;
             settle_opt promise (Resolve (ResMap (connectedMap device baudRate)))
           | None => settle_opt promise (Reject "PORT_ERROR" "Failed to get serial port")
           end
         end
     end)
    (fun e =>
       match e with
       | IOException msg => settle_opt promise (Reject "IO_ERROR" ("IO error: " +:+ msg))
       | Exception msg => settle_opt promise (Reject "OPEN_ERROR" ("Failed to open: " +:+ msg))
       end).

(** The vendor test of [connect] when no device name is given. *)
Definition knownVendor (device : UsbDevice) : bool :=
  (vendorId device =? 0x10C4) || (vendorId device =? 0x1A86) || (vendorId device =? 0x0403).

(** [deviceList.values.find { .. }] *)
Definition targetDevice (name : option string) : option UsbDevice :=
  match name with
  | Some n => List.find (fun d => bool_decide (deviceName d = n)) (deviceList P)
  | None => List.find knownVendor (deviceList P)
  end.

(** [connect(deviceName, baudRate, promise)] *)
Definition connect (name : option string) (baudRate : Z) (promise : Promise) : Kt unit :=
  try_catch
    (let* m := get in
     if isConnected m
     then settle promise (Reject "ALREADY_CONNECTED" "Already connected to a device")
     else
       match targetDevice name with
       | None => settle promise (Reject "NO_DEVICE" "No compatible USB device found")
       | Some device =>
         if hasPermission P device
         then openDeviceInternal device (Some promise) baudRate
         else requestPermission device promise baudRate
       end)
    (fun e => settle promise (Reject "CONNECT_ERROR" ("Connection failed: " +:+ getMessage e))).

(** The [WritableMap] built for one device by [listDevices]. *)
Definition deviceInfo (device : UsbDevice) : gmap string Prim :=
  <["deviceSubclass" := PInt (deviceSubclass device)]>
    (<["deviceClass" := PInt (deviceClass device)]>
      (<["serialNumber" := PString (default EmptyString (serialNumber device))]>
        (<["product" := PString (default "Unknown" (productName device))]>
          (<["manufacturer" := PString (default "Unknown" (manufacturerName device))]>
            (<["productId" := PInt (productId device)]>
              (<["vendorId" := PInt (vendorId device)]>
                (<["deviceName" := PString (deviceName device)]> ∅))))))).

(** The [for (device in deviceList.values)] loop of [listDevices];
    [devices] is the array filled so far.  Permission is requested for
    every device, whether it is held or not, before the map of the device
    is built; of the getters read for the map, [serialNumber] may throw. *)
Fixpoint listDevices_loop (promise : Promise) (values : list UsbDevice)
    (devices : list (gmap string Prim)) : Kt (list (gmap string Prim)) :=
  match values with
  | [] => ret devices
  | device :: rest =>
    requestPermission device promise 115200 ;;;
    call (device_getSerialNumber P device) ;;;
    listDevices_loop promise rest (devices ++ [deviceInfo device])
  end.

(** [listDevices(promise)] *)
Definition listDevices (promise : Promise) : Kt unit :=
  try_catch
    (let* devices := listDevices_loop promise (deviceList P) [] in
     settle promise (Resolve (ResArray devices)))
    (fun e => settle promise
                (Reject "LIST_ERROR" ("Failed to list devices: " +:+ getMessage e))).

(** The guard [!isConnected || serialPort == null] shared by [write],
    [setRTS], [setDTR] and [setBaudRate]. *)
Definition noSession (m : t) : bool :=
  negb (isConnected m) || match serialPort m with None => true | Some _ => false end.

(** [serialPort?.f(..)]: the call is skipped on a null port. *)
Definition onPort (f : UsbSerialPort -> option Throwable) : Kt unit :=
  let* m := get in
  match serialPort m with
  | Some port => call (f port)
  | None => ret tt
  end.

(** [write(data, promise)]; [buffer[i] = data.getInt(i).toByte()] *)
Definition write (data : list Z) (promise : Promise) : Kt unit :=
  try_catch
    (let* m := get in
     if noSession m
     then settle promise (Reject "NOT_CONNECTED" "Device not connected")
     else
       let buffer := byteOf <$> data in
       onPort (fun port => port_write P port buffer) ;;;
       settle promise (Resolve (ResInt (Z.of_nat (length buffer)))))
    (fun e => settle promise (Reject "WRITE_ERROR" ("Write failed: " +:+ getMessage e))).

(** [read(timeout, promise)]: after the connection test the drain is
    only launched; its loop runs in [drainStep]. *)
Definition read (timeout : Z) (promise : Promise) : Kt unit :=
  try_catch
    (let* m := get in
     if negb (isConnected m)
     then settle promise (Reject "NOT_CONNECTED" "Device not connected")
     else modify (fun m => set_drains (drains m ++ [mkDrain promise timeout None []]) m))
    (fun e => settle promise (Reject "READ_ERROR" ("Read failed: " +:+ getMessage e))).

(** [setRTS(state, promise)] *)
Definition setRTS (state : bool) (promise : Promise) : Kt unit :=
  try_catch
    (let* m := get in
     if noSession m
     then settle promise (Reject "NOT_CONNECTED" "Device not connected")
     else onPort (fun port => port_setRTS P port state) ;;;
          settle promise (Resolve (ResBool true)))
    (fun e => settle promise (Reject "RTS_ERROR" (getMessage e))).

(** [setDTR(state, promise)] *)
Definition setDTR (state : bool) (promise : Promise) : Kt unit :=
  try_catch
    (let* m := get in
     if noSession m
     then settle promise (Reject "NOT_CONNECTED" "Device not connected")
     else onPort (fun port => port_setDTR P port state) ;;;
          settle promise (Resolve (ResBool true)))
    (fun e => settle promise (Reject "DTR_ERROR" (getMessage e))).

(** [setBaudRate(baudRate, promise)] *)
Definition setBaudRate (baudRate : Z) (promise : Promise) : Kt unit :=
  try_catch
    (let* m := get in
     if noSession m
     then settle promise (Reject "NOT_CONNECTED" "Device not connected")
     else onPort (fun port => port_setParameters P port baudRate) ;;;
          settle promise (Resolve (ResBool true)))
    (fun e => settle promise (Reject "BAUDRATE_ERROR" (getMessage e))).

(** [readBuffer.clear()] *)
Definition clearReadBuffer : Kt unit :=
  modify (fun m =>
    set_readBuffer []
      (set_removed (removed m ++ ((fun b => (b, Cleared)) <$> readBuffer m)) m)).

(** [flush(promise)] *)
Definition flush (promise : Promise) : Kt unit :=
  clearReadBuffer ;;;
  settle promise (Resolve (ResBool true)).

(** [readJob?.cancel()]: the job [readJob] refers to is the job of the
    loop launched last.  Cancelling does not stop that loop: its [while]
    does not test [isActive], so the cancellation shows at its next
    [withContext] only. *)
Definition cancelReadJob (m : t) : t :=
  match readJob m with
  | Some _ =>
    set_readJob (Some Cancelled)
      (set_loops (alter (fun l => mkLoop (position l) Cancelled) (pred (length (loops m)))
                        (loops m)) m)
  | None => m
  end.

(** [disconnect(promise)], whose promise is nullable. *)
Definition disconnect (promise : option Promise) : Kt unit :=
  try_catch
    (modify cancelReadJob ;;;
     onPort (port_close P) ;;;
     modify (set_serialPort None) ;;;
     modify (set_isConnected false) ;;;
     clearReadBuffer ;;;
     settle_opt promise (Resolve (ResBool true)))
    (fun e => settle_opt promise (Reject "DISCONNECT_ERROR" (getMessage e))).

(** *** Coroutines and broadcasts *)

(** One scheduling step of the [i]-th [read] coroutine with the clock at
    [now]: take [startTime], or run one turn of the [while] loop (poll
    one byte, or find the queue empty and [delay]), or leave the loop
    and resolve the promise with the array. *)
Definition drainStep (i : nat) (now : Z) (m : t) : t :=
  match drains m !! i with
  | None => m
  | Some d =>
    match startTime d with
    | None =>
      set_drains (<[i := mkDrain (drainPromise d) (drainTimeout d) (Some now) (result d)]>
                    (drains m)) m
    | Some start =>
      if now - start <? drainTimeout d
      then
        match readBuffer m with
        | byte :: rest =>
          set_drains (<[i := mkDrain (drainPromise d) (drainTimeout d) (startTime d)
                                     (result d ++ [toUnsigned byte])]> (drains m))
            (set_removed (removed m ++ [(byte, Polled (drainPromise d))])
              (set_readBuffer rest m))
        | [] => m
        end
      else
        exec (settle (drainPromise d) (Resolve (ResInts (result d))))
             (set_drains (delete i (drains m)) m)
    end
  end.

(** The loop at index [j] moves to [pos]; its job is the same. *)
Definition set_position (j : nat) (pos : Position) (m : t) : t :=
  set_loops (alter (fun l => mkLoop pos (job l)) j (loops m)) m.

(** [readBuffer.offer(byte)] *)
Definition offer (byte : Z) : Kt unit :=
  modify (fun m => set_readBuffer (readBuffer m ++ [byte]) (set_offered (offered m ++ [byte]) m)).

(** One step of the read loop at index [j], from where it stands to the
    next point where it blocks, suspends or touches the queue.

    - At the head of the [while] it tests [isConnected && serialPort != null]
      and, when both hold, enters [port.read] on that port, where it
      blocks; otherwise it ends.  The test and the call read [serialPort]
      one after the other; a change of the field between the two has the
      effect of the same change before the test.
    - In the [for] it offers one byte; past the last one it is back at the
      head.  No test of the session stands between [port.read] and the
      offers.
    - The block of [withContext(Dispatchers.Main)] sends [onError]; a
      cancelled job gets a [CancellationException] there instead, before
      the block and again when it would resume, and the loop ends without
      reaching [disconnect(null)].  Resumed, it runs [disconnect(null)]
      and leaves the [while]. *)
Definition loopStep (j : nat) (m : t) : t :=
  match loops m !! j with
  | None => m
  | Some l =>
    match position l with
    | AtHead =>
      match isConnected m, serialPort m with
      | true, Some port => set_position j (InRead port) m
      | _, _ => set_position j Finished m
      end
    | InRead _ => m
    | Offering [] => set_position j AtHead m
    | Offering (byte :: rest) => set_position j (Offering rest) (exec (offer byte) m)
    | Notifying message =>
      match job l with
      | Cancelled => set_position j Finished m
      | Active =>
        set_position j Notified
          (exec (sendEvent EVENT_ERROR
                   (<["message" := PString ("Connection lost: " +:+ message)]> ∅)) m)
      end
    | Notified =>
      match job l with
      | Cancelled => set_position j Finished m
      | Active => set_position j Finished (exec (disconnect None) m)
      end
    | Finished => m
    end
  end.

(** [port.read(buffer, 100)] of the loop at index [j] returns with the
    bytes [bs], none when it timed out. *)
Definition readLoopData (j : nat) (bs : list Z) (m : t) : t :=
  match loops m !! j with
  | None => m
  | Some l =>
    match position l with
    | InRead _ => set_position j (Offering bs) m
    | _ => m
    end
  end.

(** [port.read(buffer, 100)] of the loop at index [j] throws an
    [IOException]: the [catch] clause tests [isConnected] and enters
    [withContext], which a cancelled job does not get into; in every
    other case the loop is left by [break]. *)
Definition readLoopIOError (j : nat) (message : string) (m : t) : t :=
  match loops m !! j with
  | None => m
  | Some l =>
    match position l with
    | InRead _ =>
      match isConnected m, job l with
      | true, Active => set_position j (Notifying message) m
      | _, _ => set_position j Finished m
      end
    | _ => m
    end
  end.

(** The [ACTION_USB_PERMISSION] branch of the broadcast receiver. *)
Definition onPermission (device : option UsbDevice) (granted : bool) (m : t) : t :=
  match granted, device with
  | true, Some d => set_launched (launched m ++ [d]) m
  | _, _ =>
    exec (settle_opt (permissionPromise m) (Reject "PERMISSION_DENIED" "USB permission denied") ;;;
          modify (set_permissionPromise None)) m
  end.

(** The coroutine launched by the receiver when permission was granted.
    [permissionPromise] is read when the coroutine runs, and
    [openDeviceInternal] is called with its default baud rate. *)
Definition runLaunched (m : t) : t :=
  match launched m with
  | [] => m
  | device :: rest =>
    exec (try_catch
            (let* m0 := get in
             openDeviceInternal device (permissionPromise m0) 115200)
            (fun e =>
               let* m0 := get in
               settle_opt (permissionPromise m0) (Reject "OPEN_ERROR" (getMessage e))) ;;;
          modify (set_permissionPromise None))
         (set_launched rest m)
  end.

(** The attach and detach branches of the receiver. *)
Definition onAttached (m : t) : t := exec (sendEvent EVENT_USB_ATTACHED ∅) m.
Definition onDetached (m : t) : t :=
  exec (sendEvent EVENT_USB_DETACHED ∅ ;;; disconnect None) m.

End Methods.

(** *** Everything that can happen to the module *)

Inductive Event : Type :=
| ListDevices (promise : Promise)
| Connect (name : option string) (baudRate : Z) (promise : Promise)
| Write (data : list Z) (promise : Promise)
| Read (timeout : Z) (promise : Promise)
| SetRTS (state : bool) (promise : Promise)
| SetDTR (state : bool) (promise : Promise)
| SetBaudRate (baudRate : Z) (promise : Promise)
| Flush (promise : Promise)
| Disconnect (promise : Promise)
| PermissionResult (device : option UsbDevice) (granted : bool)
| UsbAttached
| UsbDetached
| RunLaunched
| DrainStep (i : nat) (now : Z)
| LoopStep (j : nat)
| ReadLoopData (j : nat) (bs : list Z)
| ReadLoopIOError (j : nat) (message : string).

Definition step (P : Platform) (m : t) (e : Event) : t :=
  match e with
  | ListDevices p => exec (listDevices P p) m
  | Connect name baud p => exec (connect P name baud p) m
  | Write data p => exec (write P data p) m
  | Read timeout p => exec (read timeout p) m
  | SetRTS b p => exec (setRTS P b p) m
  | SetDTR b p => exec (setDTR P b p) m
  | SetBaudRate n p => exec (setBaudRate P n p) m
  | Flush p => exec (flush p) m
  | Disconnect p => exec (disconnect P (Some p)) m
  | PermissionResult d g => onPermission d g m
  | UsbAttached => onAttached m
  | UsbDetached => onDetached P m
  | RunLaunched => runLaunched P m
  | DrainStep i now => drainStep i now m
  | LoopStep j => loopStep P j m
  | ReadLoopData j bs => readLoopData j bs m
  | ReadLoopIOError j msg => readLoopIOError j msg m
  end.

(** A history: each event comes with the platform as it stands then. *)
Definition run (m : t) (history : list (Platform * Event)) : t :=
  foldl (fun m pe => step (fst pe) m (snd pe)) m history.

(** The steps by which the loop at index [j], standing at the head of its
    [while] during a session, receives the bytes [bs]: it enters
    [port.read], the call returns [bs], the bytes are offered one by one
    and the loop is back at the head. *)
Definition arrival (P : Platform) (j : nat) (bs : list Z) : list (Platform * Event) :=
  (P, LoopStep j) :: (P, ReadLoopData j bs) :: replicate (S (length bs)) (P, LoopStep j).

(** The settlement a JavaScript caller observes for a promise: the first
    one logged, later calls on a settled promise having no effect. *)
Definition outcome (p : Promise) (m : t) : option Settlement :=
  snd <$> List.find (fun ps => Nat.eqb (fst ps) p) (settled m).

End SerialPortModule.

(** ** The script side *)

(** Calls of [NativeSerialPort], each returning the promise of the native
    method of the same name. *)
Inductive NativeCall : Type :=
| NListDevices
| NConnect (name : option string) (baudRate : Z)
| NWrite (data : list Z)
| NRead (timeout : Z)
| NSetRTS (state : bool)
| NSetDTR (state : bool)
| NSetBaudRate (baudRate : Z)
| NFlush
| NDisconnect.

(** What an [async] function throws: the rejection of an awaited bridge
    promise, or an [Error] it constructs itself. *)
Inductive JsError : Type :=
| BridgeRejection (code : string) (message : string)
| Error (message : string).

(** How an [async] function settles the promise it returns. *)
Inductive JsResult (A : Type) : Type :=
| Returned (a : A)
| Thrown (e : JsError).
Arguments Returned {A} a.
Arguments Thrown {A} e.

(** An [async] body: it finishes, or it awaits a native call and continues
    with the settlement of that call. *)
Inductive Async (A : Type) : Type :=
| Done (a : A)
| Await (call : NativeCall) (k : Settlement -> Async A).
Arguments Done {A} a.
Arguments Await {A} call k.

(** The native calls an [async] body issues, in order, when the native side
    answers according to [answer]. *)
Fixpoint calls {A} (answer : NativeCall -> Settlement) (body : Async A) : list NativeCall :=
  match body with
  | Done _ => []
  | Await call k => call :: calls answer (k (answer call))
  end.

(** The value of an [async] body run to its end, the native side answering
    according to [answer]. *)
Fixpoint finish {A} (answer : NativeCall -> Settlement) (body : Async A) : A :=
  match body with
  | Done a => a
  | Await call k => finish answer (k (answer call))
  end.

(** The bridge object of TypeScript type [ConnectionResult]. *)
Record ConnectionResult : Type := mkConnectionResult {
  result_connected : bool;
  result_deviceName : option string;
  result_baudRate : option Z;
  result_error : option string
}.

(** Reading a resolved value at type [ConnectionResult]: a missing
    [connected] is falsy, other missing properties are [undefined]. *)
Definition asConnectionResult (v : Resolved) : ConnectionResult :=
  match v with
  | ResMap m =>
    {| result_connected := match m !! "connected" with Some (PBool b) => b | _ => false end;
       result_deviceName := match m !! "deviceName" with Some (PString s) => Some s | _ => None end;
       result_baudRate := match m !! "baudRate" with Some (PInt n) => Some n | _ => None end;
       result_error := match m !! "error" with Some (PString s) => Some s | _ => None end |}
  | _ => mkConnectionResult false None None None
  end.

(** [new Uint8Array(data)]: every element is reduced modulo 256. *)
Definition Uint8Array (data : list Z) : list Z := (fun n => n mod 256) <$> data.

(** *** Numbers in a template literal

    A JavaScript number is a double.  The integers of the script side are
    modelled by [Z]; up to [2 ^ 53] in magnitude every integer is a double,
    beyond that an integer stands for the double nearest to it. *)

(** The double nearest to an integer, ties going to the even significand. *)
Definition toDouble (n : Z) : Z :=
  let a := Z.abs n in
  let shift := Z.log2 a - 52 in
  if shift <=? 0 then n
  else
    let q := Z.shiftr a shift in
    let r := a - Z.shiftl q shift in
    let half := Z.shiftl 1 (shift - 1) in
    let q' := if (half <? r) || ((r =? half) && Z.odd q) then q + 1 else q in
    Z.sgn n * Z.shiftl q' shift.

(** The number of decimal digits of a positive integer. *)
Definition digits (n : Z) : Z := Z.of_nat (String.length (pretty n)).

(** The fewest significant digits [s], with their exponent [e], for which
    [s * 10 ^ e] is read back as the double [m]; of the two candidates
    with [k] digits the one nearer to [m] is tried first, the even one
    when they are as near.  Seventeen digits always suffice. *)
Fixpoint shortest (fuel : nat) (k : Z) (m : Z) : Z * Z :=
  match fuel with
  | O => (m, 0)
  | S fuel' =>
    if digits m <=? k then (m, 0)
    else
      let e := digits m - k in
      let scale := 10 ^ e in
      let lo := m / scale in
      let hi := lo + 1 in
      let twice := 2 * (m - lo * scale) in
      let nearer :=
        if twice <? scale then lo
        else if scale <? twice then hi
        else if Z.even lo then lo else hi in
      let farther := if nearer =? lo then hi else lo in
      if toDouble (nearer * scale) =? m then (nearer, e)
      else if toDouble (farther * scale) =? m then (farther, e)
      else shortest fuel' (k + 1) m
  end.

(** Trailing zeros of the digits go to the exponent. *)
Fixpoint stripZeros (fuel : nat) (s e : Z) : Z * Z :=
  match fuel with
  | O => (s, e)
  | S fuel' =>
    if (s mod 10 =? 0) && negb (s =? 0) then stripZeros fuel' (s / 10) (e + 1) else (s, e)
  end.

(** [count] zeros. *)
Fixpoint zeros (count : nat) : string :=
  match count with
  | O => EmptyString
  | S count' => "0" +:+ zeros count'
  end.

(** [Number::toString] on a positive double that is an integer: plain
    digits up to twenty-one of them, exponent notation beyond. *)
Definition positiveToString (m : Z) : string :=
  let '(s, e) := shortest 17 1 m in
  let '(s, e) := stripZeros 400 s e in
  let ds := pretty s in
  let n := Z.of_nat (String.length ds) + e in
  if n <=? 21
  then ds +:+ zeros (Z.to_nat e)
  else
    match ds with
    | String d EmptyString => String d EmptyString
    | String d rest => String d ("." +:+ rest)
    | EmptyString => EmptyString
    end +:+ "e+" +:+ pretty (n - 1).

(** [Number::toString] on an integer.  Up to [2 ^ 53] in magnitude the
    shortest digits that read back as the number are its own. *)
Definition numberToString (n : Z) : string :=
  if Z.abs n <=? 2 ^ 53 then pretty n
  else
    let m := Z.abs (toDouble n) in
    let sign := if n <? 0 then "-" else EmptyString in
    if 2 ^ 1024 <=? m then sign +:+ "Infinity" else sign +:+ positiveToString m.

(** Interpolation of a possibly undefined string or number in a template. *)
Definition showString (s : option string) : string := default "undefined" s.
Definition showNumber (n : option Z) : string :=
  match n with
  | Some n => numberToString n
  | None => "undefined"
  end.

Module SerialTransport.

(** The private fields of the class. *)
Record t : Type := mk {
  connected : bool;
  deviceName : option string;
  baudRate : option Z
}.

(** [new SerialTransport()] *)
Definition new : t := mk false None None.

(** What a generator produced: the chunks it yielded, then how it ended. *)
Record Generated : Type := mkGenerated {
  yielded : list (list Z);
  finished : JsResult unit
}.

Definition notConnected : JsError := Error "Not connected to any device".

(** Data of a resolved [read]: the [number[]] of the bridge. *)
Definition asNumbers (v : Resolved) : list Z :=
  match v with
  | ResInts l => l
  | _ => []
  end.

(** The [number] of a resolved [write]. *)
Definition asNumber (v : Resolved) : Z :=
  match v with
  | ResInt n => n
  | _ => 0
  end.

Definition asBoolean (v : Resolved) : bool :=
  match v with
  | ResBool b => b
  | _ => false
  end.

(** [connect(deviceName?, baudRate = 115200)] *)
Definition connect (name : option string) (baud : option Z) (this : t)
    : Async (t * JsResult string) :=
  Await (NConnect name (default 115200 baud)) (fun settlement =>
    match settlement with
    | Reject code message => Done (this, Thrown (BridgeRejection code message))
    | Resolve v =>
      let result := asConnectionResult v in
      let this1 := mk (result_connected result) (deviceName this) (baudRate this) in
      let this2 :=
        if connected this1
        then mk (connected this1) (result_deviceName result) (result_baudRate result)
        else this1 in
      Done (this2,
            Returned
              (if connected this2
               then "Connected to " +:+ showString (deviceName this2) +:+ " at "
                      +:+ showNumber (baudRate this2) +:+ " band"
               else "Failed to connect: " +:+
                      match result_error result with
                      | Some EmptyString | None => "Unknown error"
                      | Some e => e
                      end))
    end).

(** [write(data)]; [Array.from(data)] keeps the elements. *)
Definition write (data : list Z) (this : t) : Async (t * JsResult Z) :=
  if negb (connected this)
  then Done (this, Thrown notConnected)
  else
    Await (NWrite data) (fun settlement =>
      match settlement with
      | Reject code message => Done (this, Thrown (BridgeRejection code message))
      | Resolve v => Done (this, Returned (asNumber v))
      end).

(** [read(timeout = 1000)], run to the end of the generator. *)
Definition read (timeout : option Z) (this : t) : Async (t * Generated) :=
  if negb (connected this)
  then Done (this, mkGenerated [] (Thrown notConnected))
  else
    Await (NRead (default 1000 timeout)) (fun settlement =>
      match settlement with
      | Reject code message =>
        Done (this, mkGenerated [] (Thrown (BridgeRejection code message)))
      | Resolve v =>
        let data := asNumbers v in
        if (0 <? length data)%nat
        then Done (this, mkGenerated [Uint8Array data] (Returned tt))
        else Done (this, mkGenerated [] (Returned tt))
      end).

(** [rawRead(timeout = 1000)] *)
Definition rawRead (timeout : option Z) (this : t) : Async (t * JsResult (list Z)) :=
  if negb (connected this)
  then Done (this, Thrown notConnected)
  else
    Await (NRead (default 1000 timeout)) (fun settlement =>
      match settlement with
      | Reject code message => Done (this, Thrown (BridgeRejection code message))
      | Resolve v => Done (this, Returned (Uint8Array (asNumbers v)))
      end).

(** [setBaudRate(baudRate)] *)
Definition setBaudRate (baud : Z) (this : t) : Async (t * JsResult bool) :=
  Await (NSetBaudRate baud) (fun settlement =>
    match settlement with
    | Reject code message => Done (this, Thrown (BridgeRejection code message))
    | Resolve v =>
      let result := asBoolean v in
      Done (if result then mk (connected this) (deviceName this) (Some baud) else this,
            Returned result)
    end).

(** [disconnect()] *)
Definition disconnect (this : t) : Async (t * JsResult bool) :=
  Await NDisconnect (fun settlement =>
    match settlement with
    | Reject code message => Done (this, Thrown (BridgeRejection code message))
    | Resolve v =>
      let result := asBoolean v in
      Done (if result then mk false None None else this, Returned result)
    end).

(** [listDevices()], [setRTS(state)], [setDTR(state)] and [flush()] return
    the promise of the native call and touch no field. *)
Definition passThrough (call : NativeCall) (this : t) : Async (t * JsResult Resolved) :=
  Await call (fun settlement =>
    match settlement with
    | Reject code message => Done (this, Thrown (BridgeRejection code message))
    | Resolve v => Done (this, Returned v)
    end).

Definition listDevices : t -> Async (t * JsResult Resolved) := passThrough NListDevices.
Definition setRTS (state : bool) : t -> Async (t * JsResult Resolved) :=
  passThrough (NSetRTS state).
Definition setDTR (state : bool) : t -> Async (t * JsResult Resolved) :=
  passThrough (NSetDTR state).
Definition flush : t -> Async (t * JsResult Resolved) := passThrough NFlush.

(** [isConnected()], [getDeviceName()], [getBaudRate()] *)
Definition isConnected (this : t) : bool := connected this.
Definition getDeviceName (this : t) : option string := deviceName this.
Definition getBaudRate (this : t) : option Z := baudRate this.

(** *** Histories of calls on one transport object *)

Inductive Op : Type :=
| OpListDevices
| OpConnect (name : option string) (baud : option Z)
| OpWrite (data : list Z)
| OpRead (timeout : option Z)
| OpRawRead (timeout : option Z)
| OpSetRTS (state : bool)
| OpSetDTR (state : bool)
| OpSetBaudRate (baud : Z)
| OpFlush
| OpDisconnect.

Definition perform (answer : NativeCall -> Settlement) (op : Op) (this : t) : t :=
  match op with
  | OpListDevices => fst (finish answer (listDevices this))
  | OpConnect name baud => fst (finish answer (connect name baud this))
  | OpWrite data => fst (finish answer (write data this))
  | OpRead timeout => fst (finish answer (read timeout this))
  | OpRawRead timeout => fst (finish answer (rawRead timeout this))
  | OpSetRTS state => fst (finish answer (setRTS state this))
  | OpSetDTR state => fst (finish answer (setDTR state this))
  | OpSetBaudRate baud => fst (finish answer (setBaudRate baud this))
  | OpFlush => fst (finish answer (flush this))
  | OpDisconnect => fst (finish answer (disconnect this))
  end.

Definition performAll (this : t) (history : list (Op * (NativeCall -> Settlement))) : t :=
  foldl (fun this oa => perform (snd oa) (fst oa) this) this history.

(** A call of [connect] that the native side resolves as connected. *)
Definition connects (oa : Op * (NativeCall -> Settlement)) : bool :=
  match fst oa with
  | OpConnect name baud =>
    match snd oa (NConnect name (default 115200 baud)) with
    | Resolve v => result_connected (asConnectionResult v)
    | Reject _ _ => false
    end
  | _ => false
  end.

End SerialTransport.

(** ** Both layers together *)

(** The native method behind each call of [NativeSerialPort].  The
    numbers of the script side reach the [Int] parameters of the Kotlin
    methods through [intValue]; the array of [write] is handed over as it
    is and read element by element with [getInt]. *)
Definition native (P : Platform) (call : NativeCall) (promise : Promise)
    : SerialPortModule.Kt unit :=
  match call with
  | NListDevices => SerialPortModule.listDevices P promise
  | NConnect name baud => SerialPortModule.connect P name (intValue baud) promise
  | NWrite data => SerialPortModule.write P data promise
  | NRead timeout => SerialPortModule.read (intValue timeout) promise
  | NSetRTS state => SerialPortModule.setRTS P state promise
  | NSetDTR state => SerialPortModule.setDTR P state promise
  | NSetBaudRate baud => SerialPortModule.setBaudRate P (intValue baud) promise
  | NFlush => SerialPortModule.flush promise
  | NDisconnect => SerialPortModule.disconnect P (Some promise)
  end.

(** Running an [async] body against the native module while nothing else
    happens: each awaited call gets the next promise number; the body goes
    on when the native method settled that promise before returning, and is
    left suspended ([None]) otherwise. *)
Fixpoint runAsync {A} (P : Platform) (body : Async A) (promise : Promise)
    (m : SerialPortModule.t) : SerialPortModule.t * option A :=
  match body with
  | Done a => (m, Some a)
  | Await call k =>
    let m' := SerialPortModule.exec (native P call promise) m in
    match SerialPortModule.outcome promise m' with
    | Some settlement => runAsync P (k settlement) (S promise) m'
    | None => (m', None)
    end
  end.

(** ** The Expo config plugin *)

Module withSerialPort.

(** An element of the manifest as the XML parser hands it over: its
    attributes under [$], which is absent on an element without any. *)
Record Element : Type := mkElement {
  attrs : option (gmap string string)
}.

(** An [intent-filter] with its [action] children, absent when it has none,
    and its other children. *)
Record IntentFilter : Type := mkIntentFilter {
  action : option (list Element);
  category : option (list Element);
  data : option (list Element)
}.

(** The main activity: its own attributes and the two child lists the
    plugin edits. *)
Record Activity : Type := mkActivity {
  activityAttrs : gmap string string;
  intentFilter : option (list IntentFilter);
  metaData : option (list Element)
}.

(** The manifest, restricted to what the plugin reads.  [mainActivity] is
    the activity [getMainActivityOrThrow] finds, absent when it throws. *)
Record Manifest : Type := mkManifest {
  usesPermission : option (list Element);
  usesFeature : option (list Element);
  mainActivity : option Activity
}.

Definition typeError : JsError :=
  Error "Cannot read properties of undefined (reading 'android:name')".

(** [x.$['android:name'] === name] *)
Definition nameIs (name : string) (x : Element) : JsResult bool :=
  match attrs x with
  | Some a => Returned (bool_decide (a !! "android:name" = Some name))
  | None => Thrown typeError
  end.

(** [array.find(pred)] with a predicate that may throw. *)
Fixpoint find {A} (pred : A -> JsResult bool) (l : list A) : JsResult (option A) :=
  match l with
  | [] => Returned None
  | x :: rest =>
    match pred x with
    | Thrown e => Thrown e
    | Returned true => Returned (Some x)
    | Returned false => find pred rest
    end
  end.

(** [array.some(pred)] with a predicate that may throw. *)
Fixpoint some {A} (pred : A -> JsResult bool) (l : list A) : JsResult bool :=
  match l with
  | [] => Returned false
  | x :: rest =>
    match pred x with
    | Thrown e => Thrown e
    | Returned true => Returned true
    | Returned false => some pred rest
    end
  end.

Definition USB_PERMISSION : string := "android.permission.USB_PERMISSION".
Definition USB_HOST : string := "android.hardware.usb.host".
Definition USB_DEVICE_ATTACHED : string := "android.hardware.usb.action.USB_DEVICE_ATTACHED".

Definition named (name : string) : Element :=
  mkElement (Some {[ "android:name" := name ]}).

Definition usbFeature : Element :=
  mkElement (Some (<["android:required" := "false"]> {[ "android:name" := USB_HOST ]})).

Definition usbIntent : IntentFilter :=
  mkIntentFilter (Some [named USB_DEVICE_ATTACHED]) None None.

Definition usbMetaData : Element :=
  mkElement (Some (<["android:resource" := "@xml/device_filter"]>
                     {[ "android:name" := USB_DEVICE_ATTACHED ]})).

(** [filter.action?.some(action => action.$['android:name'] === ..)] *)
Definition hasUsbAction (filter : IntentFilter) : JsResult bool :=
  match action filter with
  | Some actions => some (nameIs USB_DEVICE_ATTACHED) actions
  | None => Returned false
  end.

(** The pattern of the four blocks: create the array when it is missing,
    look for the entry, push it when it is not found. *)
Definition ensure {A} (pred : A -> JsResult bool) (entry : A) (array : option (list A))
    : JsResult (list A) :=
  let l := default [] array in
  match find pred l with
  | Thrown e => Thrown e
  | Returned (Some _) => Returned l
  | Returned None => Returned (l ++ [entry])%list
  end.

(** The modifier passed to [withAndroidManifest]. *)
Definition withSerialPortManifest (manifest : Manifest) : JsResult Manifest :=
  match mainActivity manifest with
  | None => Thrown (Error "AndroidManifest.xml is missing the required MainActivity element")
  | Some activity =>
    match ensure (nameIs USB_PERMISSION) (named USB_PERMISSION) (usesPermission manifest) with
    | Thrown e => Thrown e
    | Returned permissions =>
      match ensure (nameIs USB_HOST) usbFeature (usesFeature manifest) with
      | Thrown e => Thrown e
      | Returned features =>
        match ensure hasUsbAction usbIntent (intentFilter activity) with
        | Thrown e => Thrown e
        | Returned filters =>
          match ensure (nameIs USB_DEVICE_ATTACHED) usbMetaData (metaData activity) with
          | Thrown e => Thrown e
          | Returned metas =>
            Returned
              (mkManifest (Some permissions) (Some features)
                 (Some (mkActivity (activityAttrs activity) (Some filters) (Some metas))))
          end
        end
      end
    end
  end.

(** The [usb-device] entries of the [device_filter.xml] the plugin writes:
    vendor id and, where given, product id. *)
Definition deviceFilter : list (Z * option Z) :=
  [(4292, None); (6790, None); (1027, None); (1659, None); (6790, Some 29987)].

End withSerialPort.

Module WSP := withSerialPort.

(** ** Sample devices, platforms and histories *)

Definition cp2102 : UsbDevice :=
  mkUsbDevice "/dev/bus/usb/001/002" 0x10C4 0xEA60 (Some "Silicon Labs")
    (Some "CP2102 USB to UART Bridge Controller") (Some "0001") 0 0.

Definition ch340 : UsbDevice :=
  mkUsbDevice "/dev/bus/usb/001/003" 0x1A86 0x7523 None (Some "USB Serial") None 255 0.

Definition keyboard : UsbDevice :=
  mkUsbDevice "/dev/bus/usb/001/004" 0x046D 0xC31C (Some "Logitech") (Some "USB Keyboard")
    None 0 0.

(** A platform on which every driver call returns: the serial chips get a
    driver with one port, permission is granted or not for all devices. *)
Definition bench (devices : list UsbDevice) (permitted : bool) : Platform :=
  {| deviceList := devices;
     hasPermission := fun _ => permitted;
     device_getSerialNumber := fun _ => None;
     probeDevice := fun d =>
       if SerialPortModule.knownVendor d then Some [mkUsbSerialPort (deviceName d) 0] else None;
     openDevice := fun _ => true;
     port_open := fun _ => None;
     port_setParameters := fun _ _ => None;
     port_setDTR := fun _ _ => None;
     port_setRTS := fun _ _ => None;
     port_write := fun _ _ => None;
     port_close := fun _ => None |}.

(** A platform on which the port cannot be opened and, never having been
    opened, refuses to be closed. *)
Definition jammed : Platform :=
  {| deviceList := [cp2102];
     hasPermission := fun _ => true;
     device_getSerialNumber := fun _ => None;
     probeDevice := fun d => Some [mkUsbSerialPort (deviceName d) 0];
     openDevice := fun _ => true;
     port_open := fun _ => Some (IOException "Could not claim interface");
     port_setParameters := fun _ _ => None;
     port_setDTR := fun _ _ => None;
     port_setRTS := fun _ _ => None;
     port_write := fun _ _ => None;
     port_close := fun _ => Some (IOException "Already closed") |}.

(** A platform on which the port opens and works but cannot be closed. *)
Definition stuck : Platform :=
  {| deviceList := [cp2102];
     hasPermission := fun _ => true;
     device_getSerialNumber := fun _ => None;
     probeDevice := fun d => Some [mkUsbSerialPort (deviceName d) 0];
     openDevice := fun _ => true;
     port_open := fun _ => None;
     port_setParameters := fun _ _ => None;
     port_setDTR := fun _ _ => None;
     port_setRTS := fun _ _ => None;
     port_write := fun _ _ => None;
     port_close := fun _ => Some (IOException "Device has been detached") |}.

Definition lab : Platform := bench [keyboard; cp2102; ch340] true.
Definition labLocked : Platform := bench [keyboard; cp2102; ch340] false.
Definition emptyBus : Platform := bench [] true.

(** A platform of Android 10 or later, on which the serial number of a
    device cannot be read before permission for the device is held. *)
Definition guarded (devices : list UsbDevice) : Platform :=
  {| deviceList := devices;
     hasPermission := fun _ => false;
     device_getSerialNumber := fun _ =>
       Some (Exception "User has not given permission to access device serial number");
     probeDevice := fun d =>
       if SerialPortModule.knownVendor d then Some [mkUsbSerialPort (deviceName d) 0] else None;
     openDevice := fun _ => true;
     port_open := fun _ => None;
     port_setParameters := fun _ _ => None;
     port_setDTR := fun _ _ => None;
     port_setRTS := fun _ _ => None;
     port_write := fun _ _ => None;
     port_close := fun _ => None |}.

(** A session with two reads, one after the other, while bytes arrive. *)
Definition twoReads : list (Platform * SerialPortModule.Event) :=
  [(lab, SerialPortModule.Connect None 115200 0)]
  ++ SerialPortModule.arrival lab 0 [72; -1; 10]
  ++ [ (lab, SerialPortModule.Read 100 1);
       (lab, SerialPortModule.DrainStep 0 1000);
       (lab, SerialPortModule.DrainStep 0 1001) ]
  ++ SerialPortModule.arrival lab 0 [-128]
  ++ [ (lab, SerialPortModule.DrainStep 0 1002);
       (lab, SerialPortModule.DrainStep 0 1003);
       (lab, SerialPortModule.DrainStep 0 1004);
       (lab, SerialPortModule.DrainStep 0 1005);
       (lab, SerialPortModule.DrainStep 0 1100) ]
  ++ SerialPortModule.arrival lab 0 [7; 8]
  ++ [ (lab, SerialPortModule.Read 50 2);
       (lab, SerialPortModule.DrainStep 0 2000);
       (lab, SerialPortModule.DrainStep 0 2001);
       (lab, SerialPortModule.DrainStep 0 2050) ].

(** A session with two bytes waiting in the queue. *)
Definition twoQueued : list (Platform * SerialPortModule.Event) :=
  (lab, SerialPortModule.Connect None 115200 0) :: SerialPortModule.arrival lab 0 [1; 2].


(** A session whose loop is inside [port.read]. *)
Definition reading (P : Platform) : SerialPortModule.t :=
  SerialPortModule.run SerialPortModule.init
    [(P, SerialPortModule.Connect None 115200 0); (P, SerialPortModule.LoopStep 0)].


(** A listing of the devices, the user's grant of the permission it
    asked for, the coroutine the receiver launched, and a [write]. *)
Definition grantAfterListing : list (Platform * SerialPortModule.Event) :=
  [ (bench [cp2102] false, SerialPortModule.ListDevices 0);
    (bench [cp2102] false, SerialPortModule.PermissionResult (Some cp2102) true);
    (bench [cp2102] false, SerialPortModule.RunLaunched);
    (bench [cp2102] false, SerialPortModule.Write [1; 2; 3] 1) ].

(** The bridge calls of [connect]. *)
Definition isConnectCall (e : SerialPortModule.Event) : bool :=
  match e with
  | SerialPortModule.Connect _ _ _ => true
  | _ => false
  end.

(** ** Observations and invariants used in the statements *)

Module SPM := SerialPortModule.
Module ST := SerialTransport.

Local Open Scope list_scope.

(** [keeps R c]: the block [c] takes every state to a state related to it
    by [R]. *)
Definition keeps (R : SPM.t -> SPM.t -> Prop) {A} (c : SPM.Kt A) : Prop :=
  forall m, R m (fst (c m)).

(** The range of every byte in an array. *)
Definition inRange (l : list Z) : Prop := Forall (fun x => 0 <= x <= 255) l.

(** The arrays of numbers among the settlements of a log. *)
Definition arrayOf (s : Settlement) : list Z :=
  match s with
  | Resolve (ResInts l) => l
  | _ => []
  end.

(** A log of settlements that resolves no array of numbers. *)
Definition silent (l : list (Promise * Settlement)) : Prop :=
  Forall (fun ps => arrayOf (snd ps) = []) l.

(** [quiet m m']: from [m] to [m'] the queue, its history and the reads in
    flight are the same, and the settlements added resolve no array. *)
Record quiet (m m' : SPM.t) : Prop := mkQuiet {
  quiet_readBuffer : SPM.readBuffer m' = SPM.readBuffer m;
  quiet_offered : SPM.offered m' = SPM.offered m;
  quiet_removed : SPM.removed m' = SPM.removed m;
  quiet_drains : SPM.drains m' = SPM.drains m;
  quiet_settled : exists l, SPM.settled m' = SPM.settled m ++ l /\ silent l
}.

(** The entries [readBuffer.clear()] adds to the history of removals. *)
Definition cleared (l : list Z) : list (Z * SPM.Removal) :=
  (fun b => (b, SPM.Cleared)) <$> l.

(** [calm m m']: like [quiet], except that the queue may have been cleared. *)
Record calm (m m' : SPM.t) : Prop := mkCalm {
  calm_offered : SPM.offered m' = SPM.offered m;
  calm_drains : SPM.drains m' = SPM.drains m;
  calm_settled : exists l, SPM.settled m' = SPM.settled m ++ l /\ silent l;
  calm_queue :
    (SPM.readBuffer m' = SPM.readBuffer m /\ SPM.removed m' = SPM.removed m) \/
    (SPM.readBuffer m' = [] /\ SPM.removed m' = SPM.removed m ++ cleared (SPM.readBuffer m))
}.

(** The events that are [quiet] in every state. *)
Definition isQuiet (e : SPM.Event) : bool :=
  match e with
  | SPM.ListDevices _ | SPM.Connect _ _ _ | SPM.Write _ _ | SPM.SetRTS _ _
  | SPM.SetDTR _ _ | SPM.SetBaudRate _ _ | SPM.PermissionResult _ _
  | SPM.UsbAttached | SPM.RunLaunched | SPM.ReadLoopData _ _
  | SPM.ReadLoopIOError _ _ => true
  | _ => false
  end.

(** The steps that run [readBuffer.clear()]: a [flush], and the three ways
    into [disconnect]: the bridge call, the detach broadcast, and the read
    loop that resumes in its [catch] clause with its job not cancelled. *)
Definition clears (m : SPM.t) (e : SPM.Event) : bool :=
  match e with
  | SPM.Flush _ | SPM.Disconnect _ | SPM.UsbDetached => true
  | SPM.LoopStep j =>
    match SPM.loops m !! j with
    | Some (SPM.mkLoop SPM.Notified SPM.Active) => true
    | _ => false
    end
  | _ => false
  end.










(** Every array being built and every array resolved holds values of
    [0 .. 255] only. *)
Definition rangeInv (m : SPM.t) : Prop :=
  Forall (fun d => inRange (SPM.result d)) (SPM.drains m) /\
  Forall (fun ps => inRange (arrayOf (snd ps))) (SPM.settled m).

(** [unopened m m']: the connection flag was not raised from [m] to [m']. *)
Definition unopened (m m' : SPM.t) : Prop :=
  SPM.isConnected m' = true -> SPM.isConnected m = true.

(** No step of the history raises the connection flag. *)
Fixpoint neverOpened (m : SPM.t) (history : list (Platform * SPM.Event)) : bool :=
  match history with
  | [] => true
  | (P, e) :: rest =>
    negb (negb (SPM.isConnected m) && SPM.isConnected (SPM.step P m e))
    && neverOpened (SPM.step P m e) rest
  end.

(** The state a [disconnect] that closes its port leaves behind. *)
Definition torn (m : SPM.t) : SPM.t :=
  SPM.set_readBuffer []
    (SPM.set_removed (SPM.removed m ++ cleared (SPM.readBuffer m))
      (SPM.set_isConnected false
        (SPM.set_serialPort None (SPM.cancelReadJob m)))).

(** [steady m m']: the port, the connection flag, the queue, the read job
    and the read loops are the same in [m'] as in [m]. *)
Record steady (m m' : SPM.t) : Prop := mkSteady {
  steady_serialPort : SPM.serialPort m' = SPM.serialPort m;
  steady_isConnected : SPM.isConnected m' = SPM.isConnected m;
  steady_readBuffer : SPM.readBuffer m' = SPM.readBuffer m;
  steady_readJob : SPM.readJob m' = SPM.readJob m;
  steady_loops : SPM.loops m' = SPM.loops m
}.


(** The devices the loop of [listDevices] gets to, and how it ends: all of
    them, or those up to and including the first whose serial number
    cannot be read, with what that read threw. *)
Fixpoint listed (P : Platform) (values : list UsbDevice) : list UsbDevice * option Throwable :=
  match values with
  | [] => ([], None)
  | device :: rest =>
    match device_getSerialNumber P device with
    | Some e => ([device], Some e)
    | None => (device :: fst (listed P rest), snd (listed P rest))
    end
  end.

(** The settlement of [listDevices] on a platform. *)
Definition listing (P : Platform) : Settlement :=
  match snd (listed P (deviceList P)) with
  | None => Resolve (ResArray (SPM.deviceInfo <$> deviceList P))
  | Some e => Reject "LIST_ERROR" ("Failed to list devices: " +:+ getMessage e)
  end.

(** The bridge calls that return with their promise settled. *)
Definition promiseOf (e : SPM.Event) : option Promise :=
  match e with
  | SPM.ListDevices p | SPM.Write _ p | SPM.SetRTS _ p | SPM.SetDTR _ p
  | SPM.SetBaudRate _ p | SPM.Flush p | SPM.Disconnect p => Some p
  | _ => None
  end.

(** The steps of the [read] coroutine at index [i], one per clock value. *)
Definition drainSteps (P : Platform) (i : nat) (clocks : list Z)
    : list (Platform * SPM.Event) :=
  (fun now => (P, SPM.DrainStep i now)) <$> clocks.

(** The window of a read started at [start] with [timeout] has elapsed at
    one of the clock values. *)
Definition elapsed (start timeout : Z) (clocks : list Z) : bool :=
  existsb (fun now => negb (now - start <? timeout)) clocks.

(** [ensured pred entry old new]: [new] is [old], or [old] with [entry]
    pushed at its end, and an element passing [pred] is found in it. *)
Definition ensured {A} (pred : A -> JsResult bool) (entry : A) (old new : list A) : Prop :=
  (new = old \/ new = old ++ [entry]) /\
  exists x, withSerialPort.find pred new = Returned (Some x).

(** * Properties *)

(** ** Bytes delivered by [read] *)

Lemma toUnsigned_range (b : Z) : 0 <= toUnsigned b <= 255.
Proof.
  unfold toUnsigned. split.
  - apply Z.land_nonneg. right. lia.
  - assert (H : 0 <= Z.land b 255 < 2 ^ 8).
    { change 255 with (Z.ones 8). rewrite Z.land_ones by lia.
      apply Z.mod_pos_bound. lia. }
    change (2 ^ 8) with 256 in H. lia.
Qed.

(** On a Kotlin [Byte] the mask adds 256 to the negative values. *)
Lemma toUnsigned_byte (b : Z) :
  -128 <= b <= 127 -> toUnsigned b = if b <? 0 then b + 256 else b.
Proof.
  intros Hb. unfold toUnsigned. change 255 with (Z.ones 8).
  rewrite Z.land_ones by lia.
  destruct (Z.ltb_spec b 0).
  - symmetry. apply (Z.mod_unique_pos _ _ (-1)); lia.
  - apply Z.mod_small. lia.
Qed.

Example toUnsigned_minus_one : toUnsigned (-1) = 255.
Proof. reflexivity. Qed.

Example toByte_200 : toByte 200 = -56.
Proof. reflexivity. Qed.

(** ** Reasoning about Kotlin blocks *)

(** Unfolds the monad and the methods down to record expressions. *)
Ltac kt_unfold :=
  unfold SPM.step, SPM.exec, SPM.listDevices, SPM.connect, SPM.write, SPM.read,
    SPM.setRTS, SPM.setDTR, SPM.setBaudRate, SPM.flush, SPM.disconnect,
    SPM.onPermission, SPM.onAttached, SPM.onDetached, SPM.runLaunched,
    SPM.readLoopData, SPM.readLoopIOError, SPM.drainStep,
    SPM.openDeviceInternal, SPM.requestPermission, SPM.startReading,
    SPM.clearReadBuffer, SPM.onPort, SPM.sendEvent, SPM.settle_opt, SPM.settle,
    SPM.call, SPM.try_catch, SPM.bind, SPM.get, SPM.modify, SPM.ret, SPM.throw
    in *.

(** The loop of [listDevices] only stores the promise and logs requests,
    up to the first serial number that cannot be read. *)
Lemma listDevices_loop_spec (P : Platform) (promise : Promise) (values : list UsbDevice)
    (devices : list (gmap string Prim)) (m : SPM.t) :
  SPM.listDevices_loop P promise values devices m =
  (match values with
   | [] => m
   | _ => SPM.set_requested
            (SPM.requested m ++ ((fun d => (d, promise)) <$> fst (listed P values)))
            (SPM.set_permissionPromise (Some promise) m)
   end,
   match snd (listed P values) with
   | None => Normal (devices ++ (SPM.deviceInfo <$> values))
   | Some e => Abrupt e
   end).
Proof.
  revert devices m. induction values as [|d rest IH]; intros devices m.
  - simpl. unfold SPM.ret. by rewrite app_nil_r.
  - cbn [SPM.listDevices_loop listed].
    unfold SPM.bind, SPM.requestPermission, SPM.bind, SPM.modify, SPM.call.
    destruct (device_getSerialNumber P d) as [e|]; simpl; [done|].
    unfold SPM.ret. rewrite IH. destruct m; simpl. f_equal.
    + destruct rest; simpl; unfold SPM.set_requested, SPM.set_permissionPromise; simpl.
      * done.
      * f_equal. by rewrite <- app_assoc.
    + destruct (snd (listed P rest)); [done|]. by rewrite <- app_assoc.
Qed.

Lemma listed_all (P : Platform) (values : list UsbDevice) :
  Forall (fun d => device_getSerialNumber P d = None) values ->
  listed P values = (values, None).
Proof.
  induction 1 as [|d rest Hd _ IH]; simpl; [done|]. by rewrite Hd, IH.
Qed.

Lemma listed_first (P : Platform) (before after : list UsbDevice) (d : UsbDevice)
    (e : Throwable) :
  Forall (fun d => device_getSerialNumber P d = None) before ->
  device_getSerialNumber P d = Some e ->
  listed P (before ++ d :: after) = (before ++ [d], Some e).
Proof.
  intros Hb Hd. induction Hb as [|x before Hx _ IH]; simpl.
  - by rewrite Hd.
  - by rewrite Hx, IH.
Qed.

(** [listDevices] settles its promise once, and changes the pending
    permission promise and the log of requests only. *)
Lemma listDevices_exec (P : Platform) (p : Promise) (m : SPM.t) :
  SPM.exec (SPM.listDevices P p) m
  = SPM.set_settled (SPM.settled m ++ [(p, listing P)])
      match deviceList P with
      | [] => m
      | _ => SPM.set_requested
               (SPM.requested m ++ ((fun d => (d, p)) <$> fst (listed P (deviceList P))))
               (SPM.set_permissionPromise (Some p) m)
      end.
Proof.
  unfold SPM.exec, SPM.listDevices, SPM.try_catch, SPM.bind, listing.
  rewrite listDevices_loop_spec.
  destruct (snd (listed P (deviceList P))); by destruct (deviceList P).
Qed.

(** A block keeps a relation between the state before and the state after
    when all of its parts do; the relation has to be a preorder. *)
Section Keeps.
Variable R : SPM.t -> SPM.t -> Prop.
Hypothesis R_refl : forall m, R m m.
Hypothesis R_trans : forall a b c, R a b -> R b c -> R a c.

Lemma keeps_ret {A} (a : A) : keeps R (SPM.ret a).
Proof. intros m. apply R_refl. Qed.

Lemma keeps_throw {A} (e : Throwable) : keeps R (@SPM.throw A e).
Proof. intros m. apply R_refl. Qed.

Lemma keeps_get : keeps R SPM.get.
Proof. intros m. apply R_refl. Qed.

Lemma keeps_call (answer : option Throwable) : keeps R (SPM.call answer).
Proof. destruct answer; [apply keeps_throw | apply keeps_ret]. Qed.

Lemma keeps_modify (f : SPM.t -> SPM.t) :
  (forall m, R m (f m)) -> keeps R (SPM.modify f).
Proof. intros H m. apply H. Qed.

Lemma keeps_bind {A B} (c : SPM.Kt A) (k : A -> SPM.Kt B) :
  keeps R c -> (forall a, keeps R (k a)) -> keeps R (SPM.bind c k).
Proof.
  intros Hc Hk m. unfold SPM.bind. specialize (Hc m).
  destruct (c m) as [m' [a|e]]; simpl in *.
  - eapply R_trans; [exact Hc | apply Hk].
  - exact Hc.
Qed.

Lemma keeps_try_catch {A} (body : SPM.Kt A) (handler : Throwable -> SPM.Kt A) :
  keeps R body -> (forall e, keeps R (handler e)) -> keeps R (SPM.try_catch body handler).
Proof.
  intros Hb Hh m. unfold SPM.try_catch. specialize (Hb m).
  destruct (body m) as [m' [a|e]]; simpl in *.
  - exact Hb.
  - eapply R_trans; [exact Hb | apply Hh].
Qed.

Lemma keeps_onPort (f : UsbSerialPort -> option Throwable) : keeps R (SPM.onPort f).
Proof.
  unfold SPM.onPort. apply keeps_bind; [apply keeps_get|].
  intros m. destruct (SPM.serialPort m); [apply keeps_call | apply keeps_ret].
Qed.

Lemma keeps_exec (c : SPM.Kt unit) (m : SPM.t) : keeps R c -> R m (SPM.exec c m).
Proof. intros H. apply H. Qed.
End Keeps.

(** Walks through a block for a preorder given by its two laws, closing
    the primitive updates with [prim]. *)
Ltac walk refl trans prim :=
  repeat first
    [ exact refl
    | exact trans
    | apply keeps_try_catch
    | apply keeps_bind
    | apply keeps_ret
    | apply keeps_throw
    | apply keeps_get
    | apply keeps_call
    | apply keeps_onPort
    | prim
    | match goal with
      | |- forall _, _ => intros ?
      | |- keeps _ (match ?x with _ => _ end) => destruct x
      | |- keeps _ (if ?x then _ else _) => destruct x
      end ].

(** ** Events that leave the queue and the reads alone *)

Lemma quiet_refl (m : SPM.t) : quiet m m.
Proof.
  constructor; try reflexivity. exists []. split; [by rewrite app_nil_r | constructor].
Qed.

Lemma quiet_trans (a b c : SPM.t) : quiet a b -> quiet b c -> quiet a c.
Proof.
  intros [B1 O1 R1 D1 [l1 [S1 Q1]]] [B2 O2 R2 D2 [l2 [S2 Q2]]].
  constructor; try congruence.
  exists (l1 ++ l2). split.
  - rewrite S2, S1. by rewrite <- app_assoc.
  - apply Forall_app. by split.
Qed.

Lemma quiet_same_log (m m' : SPM.t) :
  SPM.readBuffer m' = SPM.readBuffer m -> SPM.offered m' = SPM.offered m ->
  SPM.removed m' = SPM.removed m -> SPM.drains m' = SPM.drains m ->
  SPM.settled m' = SPM.settled m -> quiet m m'.
Proof.
  intros B O R D S. constructor; try assumption.
  exists []. split; [by rewrite app_nil_r | constructor].
Qed.

Lemma quiet_settle (p : Promise) (s : Settlement) :
  arrayOf s = [] -> keeps quiet (SPM.settle p s).
Proof.
  intros Hs m. constructor; try reflexivity.
  exists [(p, s)]. split; [reflexivity | by constructor].
Qed.

Lemma quiet_settle_opt (p : option Promise) (s : Settlement) :
  arrayOf s = [] -> keeps quiet (SPM.settle_opt p s).
Proof.
  intros Hs. destruct p; [by apply quiet_settle | apply keeps_ret, quiet_refl].
Qed.

Lemma quiet_cancelReadJob (m : SPM.t) : quiet m (SPM.cancelReadJob m).
Proof.
  unfold SPM.cancelReadJob. destruct (SPM.readJob m); [by apply quiet_same_log | apply quiet_refl].
Qed.

Lemma quiet_set_position (j : nat) (pos : SPM.Position) (m : SPM.t) :
  quiet m (SPM.set_position j pos m).
Proof. by apply quiet_same_log. Qed.

(** Closes the primitive steps of a quiet block. *)
Ltac quiet_prim :=
  first [ apply quiet_settle; reflexivity
        | apply quiet_settle_opt; reflexivity
        | apply keeps_modify; intros ?; apply quiet_cancelReadJob
        | apply keeps_modify; intros ?; apply quiet_same_log; reflexivity ].

Ltac quiet_walk := walk quiet_refl quiet_trans ltac:(quiet_prim).

Lemma quiet_requestPermission (d : UsbDevice) (p : Promise) (baud : Z) :
  keeps quiet (SPM.requestPermission d p baud).
Proof. unfold SPM.requestPermission. quiet_walk. Qed.

Lemma quiet_openDeviceInternal (P : Platform) (d : UsbDevice) (p : option Promise) (baud : Z) :
  keeps quiet (SPM.openDeviceInternal P d p baud).
Proof. unfold SPM.openDeviceInternal, SPM.startReading. quiet_walk. Qed.

Lemma quiet_connect (P : Platform) (name : option string) (baud : Z) (p : Promise) :
  keeps quiet (SPM.connect P name baud p).
Proof.
  unfold SPM.connect. quiet_walk;
    first [apply quiet_openDeviceInternal | apply quiet_requestPermission].
Qed.

Lemma quiet_listDevices (P : Platform) (p : Promise) : keeps quiet (SPM.listDevices P p).
Proof.
  unfold SPM.listDevices. quiet_walk.
  intros m. rewrite listDevices_loop_spec. simpl.
  destruct (deviceList P); [apply quiet_refl | by apply quiet_same_log].
Qed.

Lemma quiet_write (P : Platform) (data : list Z) (p : Promise) :
  keeps quiet (SPM.write P data p).
Proof. unfold SPM.write. quiet_walk. Qed.

Lemma quiet_setRTS (P : Platform) (b : bool) (p : Promise) : keeps quiet (SPM.setRTS P b p).
Proof. unfold SPM.setRTS. quiet_walk. Qed.

Lemma quiet_setDTR (P : Platform) (b : bool) (p : Promise) : keeps quiet (SPM.setDTR P b p).
Proof. unfold SPM.setDTR. quiet_walk. Qed.

Lemma quiet_setBaudRate (P : Platform) (n : Z) (p : Promise) :
  keeps quiet (SPM.setBaudRate P n p).
Proof. unfold SPM.setBaudRate. quiet_walk. Qed.

Lemma quiet_onPermission (d : option UsbDevice) (g : bool) (m : SPM.t) :
  quiet m (SPM.onPermission d g m).
Proof.
  unfold SPM.onPermission.
  destruct g, d; try (by apply quiet_same_log);
    apply (keeps_exec quiet); quiet_walk.
Qed.

Lemma quiet_runLaunched (P : Platform) (m : SPM.t) : quiet m (SPM.runLaunched P m).
Proof.
  unfold SPM.runLaunched. destruct (SPM.launched m) as [|d rest]; [apply quiet_refl|].
  eapply quiet_trans; [| apply (keeps_exec quiet)].
  - by apply quiet_same_log.
  - quiet_walk.
Qed.

Lemma quiet_onAttached (m : SPM.t) : quiet m (SPM.onAttached m).
Proof. unfold SPM.onAttached. apply (keeps_exec quiet). unfold SPM.sendEvent. quiet_walk. Qed.

(** ** Events that at most clear the queue *)

Lemma calm_of_quiet (m m' : SPM.t) : quiet m m' -> calm m m'.
Proof. intros [B O R D S]. constructor; auto. Qed.

Lemma calm_refl (m : SPM.t) : calm m m.
Proof. apply calm_of_quiet, quiet_refl. Qed.

Lemma calm_trans (a b c : SPM.t) : calm a b -> calm b c -> calm a c.
Proof.
  intros [O1 D1 [l1 [S1 Q1]] C1] [O2 D2 [l2 [S2 Q2]] C2].
  constructor; try congruence.
  - exists (l1 ++ l2). split.
    + rewrite S2, S1. by rewrite <- app_assoc.
    + apply Forall_app. by split.
  - destruct C1 as [[B1 R1]|[B1 R1]], C2 as [[B2 R2]|[B2 R2]].
    + left. split; congruence.
    + right. split; [done|]. rewrite R2, R1, B1. done.
    + right. split; congruence.
    + right. split; [done|]. rewrite R2, B1, R1. unfold cleared. simpl.
      by rewrite app_nil_r.
Qed.

Lemma calm_keeps_quiet {A} (c : SPM.Kt A) : keeps quiet c -> keeps calm c.
Proof. intros H m. apply calm_of_quiet, H. Qed.

Lemma calm_clearReadBuffer : keeps calm SPM.clearReadBuffer.
Proof.
  intros m. constructor; try reflexivity.
  - exists []. split; [by rewrite app_nil_r | constructor].
  - right. split; reflexivity.
Qed.

Ltac calm_prim :=
  first [ apply calm_clearReadBuffer | apply calm_keeps_quiet; quiet_prim ].

Ltac calm_walk := walk calm_refl calm_trans ltac:(calm_prim).

Lemma calm_flush (p : Promise) : keeps calm (SPM.flush p).
Proof. unfold SPM.flush. calm_walk. Qed.

Lemma calm_disconnect (P : Platform) (p : option Promise) : keeps calm (SPM.disconnect P p).
Proof. unfold SPM.disconnect. calm_walk. Qed.

Lemma calm_onDetached (P : Platform) (m : SPM.t) : calm m (SPM.onDetached P m).
Proof.
  unfold SPM.onDetached. apply (keeps_exec calm).
  apply keeps_bind; [exact calm_trans | | intros _; apply calm_disconnect].
  unfold SPM.sendEvent. calm_walk.
Qed.

(** ** The steps of a read loop *)

Lemma quiet_readLoopData (j : nat) (bs : list Z) (m : SPM.t) :
  quiet m (SPM.readLoopData j bs m).
Proof.
  unfold SPM.readLoopData. destruct (SPM.loops m !! j) as [l|]; [|apply quiet_refl].
  destruct (SPM.position l); first [apply quiet_refl | apply quiet_set_position].
Qed.

Lemma quiet_readLoopIOError (j : nat) (msg : string) (m : SPM.t) :
  quiet m (SPM.readLoopIOError j msg m).
Proof.
  unfold SPM.readLoopIOError. destruct (SPM.loops m !! j) as [l|]; [|apply quiet_refl].
  destruct (SPM.position l); try apply quiet_refl.
  destruct (SPM.isConnected m), (SPM.job l); apply quiet_set_position.
Qed.

(** A step of a read loop leaves the queue alone, or offers one byte, or
    runs [disconnect(null)]; the last only where [clears] says so. *)
Lemma loopStep_cases (P : Platform) (j : nat) (m : SPM.t) :
  let m' := SPM.loopStep P j m in
  (clears m (SPM.LoopStep j) = false /\ quiet m m') \/
  (clears m (SPM.LoopStep j) = false /\
   exists byte,
     SPM.readBuffer m' = SPM.readBuffer m ++ [byte] /\
     SPM.offered m' = SPM.offered m ++ [byte] /\
     SPM.removed m' = SPM.removed m /\ SPM.drains m' = SPM.drains m /\
     SPM.settled m' = SPM.settled m) \/
  (clears m (SPM.LoopStep j) = true /\ calm m m').
Proof.
  unfold SPM.loopStep, clears. simpl.
  destruct (SPM.loops m !! j) as [[pos jb]|]; simpl; [|left; split; [done | apply quiet_refl]].
  destruct pos as [|port|[|byte rest]|msg| |]; simpl.
  - left. split; [done|].
    destruct (SPM.isConnected m), (SPM.serialPort m); apply quiet_set_position.
  - left. split; [done | apply quiet_refl].
  - left. split; [done | apply quiet_set_position].
  - right. left. split; [done|]. by exists byte.
  - left. split; [done|]. destruct jb; [|apply quiet_set_position].
    by apply quiet_same_log.
  - destruct jb.
    + right. right. split; [done|].
      eapply calm_trans; [apply (keeps_exec calm), calm_disconnect|].
      apply calm_of_quiet, quiet_set_position.
    + left. split; [done | apply quiet_set_position].
  - left. split; [done | apply quiet_refl].
Qed.

(** What [read] does: reject, or launch a drain with an empty array. *)
Lemma read_effect (timeout : Z) (p : Promise) (m : SPM.t) :
  SPM.exec (SPM.read timeout p) m =
  if SPM.isConnected m
  then SPM.set_drains (SPM.drains m ++ [SPM.mkDrain p timeout None []]) m
  else SPM.set_settled (SPM.settled m ++ [(p, Reject "NOT_CONNECTED" "Device not connected")]) m.
Proof. unfold SPM.exec, SPM.read, SPM.try_catch, SPM.bind, SPM.get. simpl. by destruct (SPM.isConnected m). Qed.

Lemma step_quiet (P : Platform) (m : SPM.t) (e : SPM.Event) :
  isQuiet e = true -> quiet m (SPM.step P m e).
Proof.
  destruct e; simpl; try discriminate; intros _.
  - apply quiet_listDevices.
  - apply quiet_connect.
  - apply quiet_write.
  - apply quiet_setRTS.
  - apply quiet_setDTR.
  - apply quiet_setBaudRate.
  - apply quiet_onPermission.
  - apply quiet_onAttached.
  - apply quiet_runLaunched.
  - apply quiet_readLoopData.
  - apply quiet_readLoopIOError.
Qed.

Lemma step_calm (P : Platform) (m : SPM.t) (e : SPM.Event) :
  clears m e = true -> calm m (SPM.step P m e).
Proof.
  destruct e; simpl; try discriminate.
  - intros _. apply calm_flush.
  - intros _. apply calm_disconnect.
  - intros _. apply calm_onDetached.
  - intros Hc. destruct (loopStep_cases P j m) as [[H _] | [[H _] | [_ H]]]; [| |exact H].
    + simpl in H. congruence.
    + simpl in H. congruence.
Qed.

(** ** The inbound byte queue *)

Lemma run_cons (m : SPM.t) (P : Platform) (e : SPM.Event) (rest : list (Platform * SPM.Event)) :
  SPM.run m ((P, e) :: rest) = SPM.run (SPM.step P m e) rest.
Proof. reflexivity. Qed.













(** ** The range of delivered bytes *)

Lemma silent_inRange (l : list (Promise * Settlement)) :
  silent l -> Forall (fun ps => inRange (arrayOf (snd ps))) l.
Proof.
  unfold silent. induction 1 as [|ps l H _ IH]; constructor; [|done].
  rewrite H. constructor.
Qed.

Lemma rangeInv_calm (m m' : SPM.t) : calm m m' -> rangeInv m -> rangeInv m'.
Proof.
  intros [O D [l [S Q]] C] [Hd Hs]. unfold rangeInv. rewrite D, S. split; [done|].
  apply Forall_app. split; [done | by apply silent_inRange].
Qed.

Lemma rangeInv_drainStep (i : nat) (now : Z) (m : SPM.t) :
  rangeInv m -> rangeInv (SPM.drainStep i now m).
Proof.
  intros [Hd Hs]. unfold SPM.drainStep.
  destruct (SPM.drains m !! i) as [d|] eqn:Hi; [|done].
  assert (Hin : inRange (SPM.result d)).
  { by apply (Forall_lookup_1 _ _ _ _ Hd Hi). }
  destruct (SPM.startTime d) as [start|].
  - destruct (_ <? _).
    + destruct (SPM.readBuffer m) as [|b rest]; [done|].
      split; simpl; [|done].
      apply Forall_insert; [done|]. simpl.
      apply Forall_app. split; [done|].
      constructor; [apply toUnsigned_range | constructor].
    + split; simpl.
      * by apply Forall_delete.
      * apply Forall_app. split; [done|]. by constructor.
  - split; simpl; [|done]. by apply Forall_insert.
Qed.

Lemma rangeInv_step (P : Platform) (m : SPM.t) (e : SPM.Event) :
  rangeInv m -> rangeInv (SPM.step P m e).
Proof.
  intros H.
  destruct (isQuiet e) eqn:Hq;
    [by eapply rangeInv_calm; [apply calm_of_quiet, step_quiet|] |].
  destruct (clears m e) eqn:Hc; [by eapply rangeInv_calm; [apply step_calm|] |].
  destruct e; try discriminate; simpl.
  - rewrite read_effect. destruct H as [Hd Hs].
    destruct (SPM.isConnected m); split; simpl; try done.
    + apply Forall_app. split; [done|]. repeat constructor.
    + apply Forall_app. split; [done|]. repeat constructor.
  - by apply rangeInv_drainStep.
  - destruct (loopStep_cases P j m) as [[_ Hq'] | [[_ (b & _ & _ & _ & Hd & Hs)] | [Hc' _]]].
    + by eapply rangeInv_calm; [apply calm_of_quiet|].
    + destruct H. unfold rangeInv. by rewrite Hd, Hs.
    + congruence.
Qed.

Lemma rangeInv_run (history : list (Platform * SPM.Event)) (m : SPM.t) :
  rangeInv m -> rangeInv (SPM.run m history).
Proof.
  revert m. induction history as [|[P e] rest IH]; intros m H; [done|].
  rewrite run_cons. apply IH. by apply rangeInv_step.
Qed.



Lemma rangeInv_init : rangeInv SPM.init.
Proof. split; constructor. Qed.





(** C10.  Whatever the history of the module, every array of numbers with
    which a promise is resolved (only [read] resolves arrays) holds values
    between 0 and 255 inclusive. *)
Theorem read_bytes_unsigned (history : list (Platform * SPM.Event))
    (p : Promise) (l : list Z) :
  In (p, Resolve (ResInts l)) (SPM.settled (SPM.run SPM.init history)) ->
  Forall (fun x => 0 <= x <= 255) l.
Proof.
  intros Hin.
  pose proof (rangeInv_run history _ rangeInv_init) as [_ Hs].
  rewrite Forall_forall in Hs. apply list_elem_of_In in Hin.
  exact (Hs _ Hin).
Qed.

(** C10 on the first array resolved in [twoReads]. *)
Lemma read_bytes_unsigned_witness :
  In (1%nat, Resolve (ResInts [72; 255; 10; 128])) (SPM.settled (SPM.run SPM.init twoReads)) /\
  Forall (fun x => 0 <= x <= 255) [72; 255; 10; 128].
Proof.
  assert (H : In (1%nat, Resolve (ResInts [72; 255; 10; 128]))
                 (SPM.settled (SPM.run SPM.init twoReads))).
  { vm_compute. right. left. reflexivity. }
  split; [exact H | exact (read_bytes_unsigned twoReads 1%nat _ H)].
Defined.

(** ** Connecting *)

(** [openDeviceInternal] catches whatever is thrown in it. *)
Lemma openDeviceInternal_normal (P : Platform) (d : UsbDevice) (p : option Promise)
    (baud : Z) (m : SPM.t) :
  snd (SPM.openDeviceInternal P d p baud m) = Normal tt.
Proof.
  unfold SPM.openDeviceInternal, SPM.startReading.
  kt_unfold. simpl.
  destruct (probeDevice P d) as [[|port0 ports]|]; simpl;
    destruct p; try reflexivity;
    destruct (openDevice P d); simpl; try reflexivity;
    destruct (port_open P port0) as [[]|]; simpl; try reflexivity;
    destruct (port_setParameters P port0 baud) as [[]|]; simpl; try reflexivity;
    destruct (port_setDTR P port0 true) as [[]|]; simpl; try reflexivity;
    destruct (port_setRTS P port0 true) as [[]|]; simpl; reflexivity.
Qed.

(** First element of a list that passes a test. *)
Lemma find_first {A} (f : A -> bool) (l : list A) (d : A) :
  List.find f l = Some d <->
  exists before after,
    l = before ++ d :: after /\ f d = true /\ Forall (fun x => f x = false) before.
Proof.
  split.
  - induction l as [|x l IH]; simpl; [discriminate|].
    destruct (f x) eqn:Hx.
    + intros [= ->]. exists [], l. repeat split; [done | constructor].
    + intros H. destruct (IH H) as (before & after & -> & Hd & Hb).
      exists (x :: before), after. repeat split; [done | by constructor].
  - intros (before & after & -> & Hd & Hb).
    induction Hb as [|x before Hx _ IH]; simpl.
    + by rewrite Hd.
    + by rewrite Hx.
Qed.

Lemma knownVendor_spec (d : UsbDevice) :
  SPM.knownVendor d = true <->
  vendorId d = 0x10C4 \/ vendorId d = 0x1A86 \/ vendorId d = 0x0403.
Proof.
  unfold SPM.knownVendor. rewrite !orb_true_iff, !Z.eqb_eq. tauto.
Qed.

Lemma knownVendor_false (d : UsbDevice) :
  SPM.knownVendor d = false <->
  vendorId d <> 0x10C4 /\ vendorId d <> 0x1A86 /\ vendorId d <> 0x0403.
Proof.
  unfold SPM.knownVendor. rewrite !orb_false_iff, !Z.eqb_neq. tauto.
Qed.

(** What [connect] does once it is past the connection test. *)
Lemma connect_disconnected (P : Platform) (m : SPM.t) (name : option string)
    (baud : Z) (p : Promise) :
  SPM.isConnected m = false ->
  SPM.exec (SPM.connect P name baud p) m =
  match SPM.targetDevice P name with
  | Some d =>
    if hasPermission P d
    then SPM.exec (SPM.openDeviceInternal P d (Some p) baud) m
    else SPM.exec (SPM.requestPermission d p baud) m
  | None =>
    SPM.set_settled (SPM.settled m ++ [(p, Reject "NO_DEVICE" "No compatible USB device found")]) m
  end.
Proof.
  intros Hc. unfold SPM.exec, SPM.connect, SPM.try_catch at 1, SPM.bind at 1, SPM.get.
  rewrite Hc. destruct (SPM.targetDevice P name) as [d|]; [|reflexivity].
  destruct (hasPermission P d); [|reflexivity].
  pose proof (openDeviceInternal_normal P d (Some p) baud m) as Hn.
  destruct (SPM.openDeviceInternal P d (Some p) baud m) as [m' c]. simpl in *.
  by rewrite Hn.
Qed.

(** What [connect] does when the connection flag is set. *)
Lemma connect_connected (P : Platform) (m : SPM.t) (name : option string)
    (baud : Z) (p : Promise) :
  SPM.isConnected m = true ->
  SPM.exec (SPM.connect P name baud p) m
  = SPM.set_settled
      (SPM.settled m ++ [(p, Reject "ALREADY_CONNECTED" "Already connected to a device")]) m.
Proof.
  intros Hc. unfold SPM.exec, SPM.connect, SPM.try_catch, SPM.bind, SPM.get.
  by rewrite Hc.
Qed.

(** C5.  In every state whose connection flag is set, [connect] rejects its
    promise with [ALREADY_CONNECTED] and changes nothing else: the flag, the
    port, the queue, the read job and the pending permission promise are
    the ones it found. *)
Theorem connect_while_connected (P : Platform) (m : SPM.t) (name : option string)
    (baud : Z) (p : Promise) :
  SPM.isConnected m = true ->
  let m' := SPM.exec (SPM.connect P name baud p) m in
  m' = SPM.set_settled
         (SPM.settled m ++ [(p, Reject "ALREADY_CONNECTED" "Already connected to a device")]) m /\
  SPM.isConnected m' = true /\
  SPM.serialPort m' = SPM.serialPort m /\
  SPM.readBuffer m' = SPM.readBuffer m /\
  SPM.readJob m' = SPM.readJob m /\
  SPM.permissionPromise m' = SPM.permissionPromise m /\
  SPM.requested m' = SPM.requested m /\
  SPM.drains m' = SPM.drains m.
Proof.
  intros Hc m'. subst m'. rewrite connect_connected by done.
  by repeat split.
Qed.

(** C5 on a session with two bytes queued. *)
Lemma connect_while_connected_witness :
  let m := SPM.run SPM.init twoQueued in
  SPM.isConnected m = true /\
  SPM.outcome 1 (SPM.exec (SPM.connect lab (Some "/dev/bus/usb/001/003") 9600 1) m)
  = Some (Reject "ALREADY_CONNECTED" "Already connected to a device") /\
  SPM.readBuffer (SPM.exec (SPM.connect lab (Some "/dev/bus/usb/001/003") 9600 1) m) = [1; 2].
Proof.
  intros m.
  assert (Hc : SPM.isConnected m = true) by reflexivity.
  destruct (connect_while_connected lab m (Some "/dev/bus/usb/001/003") 9600 1 Hc)
    as (Heq & _ & _ & Hb & _).
  split; [exact Hc|]. split; [|exact Hb].
  rewrite Heq. reflexivity.
Defined.

(** C4.  Without a device name [connect] takes the first device of the
    list whose vendor id is 0x10C4, 0x1A86 or 0x0403; with a name it takes
    the first device bearing exactly that name; the device taken is the one
    that is opened, or for which permission is requested; and when there is
    no such device, as on an empty list, the promise is rejected with
    [NO_DEVICE] and nothing else changes.  The connection test comes first,
    so all of this concerns a module that is not connected. *)
Theorem connect_device_selection (P : Platform) :
  (forall d,
     SPM.targetDevice P None = Some d <->
     exists before after,
       deviceList P = before ++ d :: after /\
       (vendorId d = 0x10C4 \/ vendorId d = 0x1A86 \/ vendorId d = 0x0403) /\
       Forall (fun x => vendorId x <> 0x10C4 /\ vendorId x <> 0x1A86 /\ vendorId x <> 0x0403)
              before) /\
  (forall n d,
     SPM.targetDevice P (Some n) = Some d <->
     exists before after,
       deviceList P = before ++ d :: after /\ deviceName d = n /\
       Forall (fun x => deviceName x <> n) before) /\
  (forall name, deviceList P = [] -> SPM.targetDevice P name = None) /\
  (forall (m : SPM.t) name baud p,
     SPM.isConnected m = false ->
     SPM.exec (SPM.connect P name baud p) m =
     match SPM.targetDevice P name with
     | Some d =>
       if hasPermission P d
       then SPM.exec (SPM.openDeviceInternal P d (Some p) baud) m
       else SPM.exec (SPM.requestPermission d p baud) m
     | None =>
       SPM.set_settled
         (SPM.settled m ++ [(p, Reject "NO_DEVICE" "No compatible USB device found")]) m
     end).
Proof.
  repeat split.
  - intros H. apply find_first in H as (before & after & Hl & Hd & Hb).
    exists before, after. repeat split; [done | by apply knownVendor_spec |].
    eapply Forall_impl; [exact Hb|]. intros x Hx. by apply knownVendor_false.
  - intros (before & after & Hl & Hd & Hb). apply find_first.
    exists before, after. repeat split; [done | by apply knownVendor_spec |].
    eapply Forall_impl; [exact Hb|]. intros x Hx. by apply knownVendor_false.
  - intros H. apply find_first in H as (before & after & Hl & Hd & Hb).
    exists before, after. repeat split; [done | by apply bool_decide_eq_true in Hd |].
    eapply Forall_impl; [exact Hb|]. intros x Hx. by apply bool_decide_eq_false in Hx.
  - intros (before & after & Hl & Hd & Hb). apply find_first.
    exists before, after. repeat split; [done | by apply bool_decide_eq_true |].
    eapply Forall_impl; [exact Hb|]. intros x Hx. by apply bool_decide_eq_false.
  - intros name Hl. unfold SPM.targetDevice. rewrite Hl. by destruct name.
  - intros m name baud p Hc. by apply connect_disconnected.
Qed.

(** C4 on the laboratory bench and on the empty bus. *)
Lemma connect_device_selection_witness :
  SPM.targetDevice lab None = Some cp2102 /\
  SPM.targetDevice lab (Some "/dev/bus/usb/001/003") = Some ch340 /\
  SPM.outcome 0 (SPM.exec (SPM.connect emptyBus None 115200 0) SPM.init)
  = Some (Reject "NO_DEVICE" "No compatible USB device found").
Proof.
  destruct (connect_device_selection emptyBus) as (_ & _ & Hnone & Hconnect).
  split; [reflexivity|]. split; [reflexivity|].
  rewrite (Hconnect SPM.init None 115200 0%nat eq_refl).
  rewrite (Hnone None eq_refl). reflexivity.
Defined.

(** ** Sessions *)

Lemma unopened_refl (m : SPM.t) : unopened m m.
Proof. by intros H. Qed.

Lemma unopened_trans (a b c : SPM.t) : unopened a b -> unopened b c -> unopened a c.
Proof. unfold unopened. auto. Qed.

Ltac unopened_prim :=
  first [ apply keeps_modify; intros ?; unfold unopened; simpl; solve [auto | discriminate]
        | apply keeps_modify; intros m0; unfold unopened, SPM.cancelReadJob;
          destruct (SPM.readJob m0); simpl; solve [auto]
        | match goal with
          | |- keeps _ (SPM.settle_opt ?p _) => destruct p; unfold SPM.settle_opt, SPM.settle
          end ].

Ltac unopened_walk := walk unopened_refl unopened_trans ltac:(unopened_prim).

Lemma unopened_disconnect (P : Platform) (p : option Promise) :
  keeps unopened (SPM.disconnect P p).
Proof. unfold SPM.disconnect, SPM.clearReadBuffer. unopened_walk. Qed.

(** A step that raises the connection flag is a call of [connect] or the
    coroutine the receiver launched after a permission grant. *)
Lemma session_opened_by (P : Platform) (m : SPM.t) (e : SPM.Event) :
  SPM.isConnected m = false -> SPM.isConnected (SPM.step P m e) = true ->
  (exists name baud p, e = SPM.Connect name baud p) \/ e = SPM.RunLaunched.
Proof.
  intros Hm He.
  assert (Hgoal : unopened m (SPM.step P m e) -> False).
  { intros H. specialize (H He). congruence. }
  destruct e; try (by right); try (by left; eauto); exfalso; apply Hgoal; simpl.
  - rewrite listDevices_exec. destruct (deviceList P); unfold unopened; simpl; auto.
  - apply (keeps_exec unopened). unfold SPM.write, SPM.settle. unopened_walk.
  - rewrite read_effect. destruct (SPM.isConnected m); unfold unopened; simpl; auto.
  - apply (keeps_exec unopened). unfold SPM.setRTS, SPM.settle. unopened_walk.
  - apply (keeps_exec unopened). unfold SPM.setDTR, SPM.settle. unopened_walk.
  - apply (keeps_exec unopened). unfold SPM.setBaudRate, SPM.settle. unopened_walk.
  - apply (keeps_exec unopened). unfold SPM.flush, SPM.clearReadBuffer, SPM.settle. unopened_walk.
  - apply (keeps_exec unopened). apply unopened_disconnect.
  - unfold SPM.onPermission.
    destruct granted, device; try (unfold unopened; simpl; solve [auto]);
      apply (keeps_exec unopened); unopened_walk.
  - unfold SPM.onAttached, unopened. simpl. auto.
  - unfold SPM.onDetached. apply (keeps_exec unopened).
    apply keeps_bind; [exact unopened_trans | | intros _; apply unopened_disconnect].
    unfold SPM.sendEvent. unopened_walk.
  - unfold SPM.drainStep.
    destruct (SPM.drains m !! i) as [d|]; [|apply unopened_refl].
    destruct (SPM.startTime d); [|unfold unopened; simpl; auto].
    destruct (_ <? _); [|unfold unopened; simpl; auto].
    destruct (SPM.readBuffer m); unfold unopened; simpl; auto.
  - unfold SPM.loopStep.
    destruct (SPM.loops m !! j) as [[pos jb]|]; [|apply unopened_refl].
    destruct pos as [|port|[|byte rest]|msg| |]; simpl;
      try destruct jb; try destruct (SPM.isConnected m); try destruct (SPM.serialPort m);
      try (unfold unopened; simpl; solve [auto]).
    all: intros H; apply (keeps_exec unopened _ _ (unopened_disconnect P None)); exact H.
  - unfold SPM.readLoopData.
    destruct (SPM.loops m !! j) as [l|]; [|apply unopened_refl].
    destruct (SPM.position l); unfold unopened; simpl; auto.
  - unfold SPM.readLoopIOError.
    destruct (SPM.loops m !! j) as [l|]; [|apply unopened_refl].
    destruct (SPM.position l); try apply unopened_refl.
    destruct (SPM.isConnected m), (SPM.job l); unfold unopened; simpl; auto.
Qed.

Lemma neverOpened_run (history : list (Platform * SPM.Event)) (m : SPM.t) :
  SPM.isConnected m = false -> neverOpened m history = true ->
  SPM.isConnected (SPM.run m history) = false.
Proof.
  revert m. induction history as [|[P e] rest IH]; intros m Hm Hn; [done|].
  rewrite run_cons. simpl in Hn. apply andb_true_iff in Hn as [He Hn].
  apply IH; [|done]. rewrite Hm in He. simpl in He.
  by destruct (SPM.isConnected (SPM.step P m e)).
Qed.

(** The two ways [write] can go. *)
Lemma write_no_session (P : Platform) (m : SPM.t) (data : list Z) (p : Promise) :
  SPM.noSession m = true ->
  SPM.exec (SPM.write P data p) m
  = SPM.set_settled (SPM.settled m ++ [(p, Reject "NOT_CONNECTED" "Device not connected")]) m.
Proof.
  intros H. unfold SPM.exec, SPM.write, SPM.try_catch, SPM.bind, SPM.get. by rewrite H.
Qed.

Lemma write_session (P : Platform) (m : SPM.t) (data : list Z) (p : Promise) :
  SPM.noSession m = false ->
  exists port,
    SPM.serialPort m = Some port /\
    SPM.exec (SPM.write P data p) m
    = SPM.set_settled
        (SPM.settled m ++
         [(p, match port_write P port (byteOf <$> data) with
              | None => Resolve (ResInt (Z.of_nat (length data)))
              | Some e => Reject "WRITE_ERROR" ("Write failed: " +:+ getMessage e)
              end)]) m.
Proof.
  intros H. unfold SPM.noSession in H. apply orb_false_iff in H as [Hc Hp].
  destruct (SPM.serialPort m) as [port|] eqn:Hport; [|discriminate].
  exists port. split; [done|].
  unfold SPM.exec, SPM.write, SPM.onPort, SPM.try_catch, SPM.bind, SPM.get, SPM.noSession.
  rewrite Hc, Hport. simpl. rewrite Hport. unfold SPM.call.
  destruct (port_write P port (byteOf <$> data)) as [e|]; simpl; [done|].
  by rewrite length_fmap.
Qed.

(** [openDeviceInternal] settles its promise, when it has one, exactly once;
    a resolution carries the connection map and leaves a session open, a
    rejection leaves the connection flag as it was. *)
Lemma openDeviceInternal_settles (P : Platform) (d : UsbDevice) (p : option Promise)
    (baud : Z) (m : SPM.t) :
  let m' := SPM.exec (SPM.openDeviceInternal P d p baud) m in
  exists s,
    SPM.settled m' = SPM.settled m ++ match p with Some q => [(q, s)] | None => [] end /\
    SPM.permissionPromise m' = SPM.permissionPromise m /\
    match s with
    | Resolve v => v = ResMap (SPM.connectedMap d baud) /\ SPM.noSession m' = false
    | Reject _ _ => SPM.isConnected m' = SPM.isConnected m
    end.
Proof.
  unfold SPM.openDeviceInternal, SPM.startReading, SPM.noSession.
  kt_unfold. simpl.
  destruct (probeDevice P d) as [[|port0 ports]|]; simpl.
  2: destruct (openDevice P d); simpl.
  2: destruct (port_open P port0) as [[]|]; simpl.
  4: destruct (port_setParameters P port0 baud) as [[]|]; simpl.
  6: destruct (port_setDTR P port0 true) as [[]|]; simpl.
  8: destruct (port_setRTS P port0 true) as [[]|]; simpl.
  all: try destruct (openDevice P d); simpl.
  all: destruct p; simpl; rewrite ?app_nil_r.
  all: first [ by eexists; split; [reflexivity|]
             | by exists (Resolve (ResMap (SPM.connectedMap d baud)))
             | by exists (Reject EmptyString EmptyString) ].
Qed.

Lemma app_one_inv {A} (l : list A) (x y : A) : l ++ [x] = l ++ [y] -> x = y.
Proof. intros H. apply app_inv_head in H. congruence. Qed.

Lemma app_one_neq {A} (l : list A) (x : A) : l = l ++ [x] -> False.
Proof.
  intros H. apply (f_equal length) in H. rewrite length_app in H. simpl in H. lia.
Qed.

(** A [connect] that resolves its promise before returning leaves a session. *)
Lemma connect_resolved (P : Platform) (m : SPM.t) (name : option string) (baud : Z)
    (p : Promise) (v : Resolved) :
  SPM.settled (SPM.exec (SPM.connect P name baud p) m) = SPM.settled m ++ [(p, Resolve v)] ->
  SPM.noSession (SPM.exec (SPM.connect P name baud p) m) = false.
Proof.
  destruct (SPM.isConnected m) eqn:Hc.
  - rewrite connect_connected by done. simpl.
    intros H. apply app_one_inv in H. discriminate.
  - rewrite connect_disconnected by done.
    destruct (SPM.targetDevice P name) as [d|].
    + destruct (hasPermission P d).
      * destruct (openDeviceInternal_settles P d (Some p) baud m) as (s & Hs & _ & Hv).
        rewrite Hs. intros H. apply app_one_inv in H. injection H as ->. apply Hv.
      * simpl. intros H. by apply app_one_neq in H.
    + simpl. intros H. apply app_one_inv in H. discriminate.
Qed.

(** What the coroutine launched by the receiver comes to. *)
Lemma runLaunched_effect (P : Platform) (m : SPM.t) (d : UsbDevice) (rest : list UsbDevice) :
  SPM.launched m = d :: rest ->
  SPM.runLaunched P m =
  SPM.set_permissionPromise None
    (SPM.exec (SPM.openDeviceInternal P d (SPM.permissionPromise m) 115200)
              (SPM.set_launched rest m)).
Proof.
  intros Hl. unfold SPM.runLaunched. rewrite Hl.
  unfold SPM.exec, SPM.try_catch at 1, SPM.bind, SPM.get, SPM.modify. simpl.
  pose proof (openDeviceInternal_normal P d (SPM.permissionPromise m) 115200
                (SPM.set_launched rest m)) as Hn.
  destruct (SPM.openDeviceInternal P d (SPM.permissionPromise m) 115200
              (SPM.set_launched rest m)) as [m' c].
  simpl in *. by rewrite Hn.
Qed.

Lemma runLaunched_resolved (P : Platform) (m : SPM.t) (p : Promise) (v : Resolved) :
  SPM.settled (SPM.runLaunched P m) = SPM.settled m ++ [(p, Resolve v)] ->
  SPM.noSession (SPM.runLaunched P m) = false.
Proof.
  destruct (SPM.launched m) as [|d rest] eqn:Hl.
  - unfold SPM.runLaunched. rewrite Hl. intros H. by apply app_one_neq in H.
  - rewrite (runLaunched_effect P m d rest Hl).
    destruct (openDeviceInternal_settles P d (SPM.permissionPromise m) 115200
                (SPM.set_launched rest m)) as (s & Hs & _ & Hv).
    simpl in *. unfold SPM.noSession in *. simpl. rewrite Hs.
    destruct (SPM.permissionPromise m) as [q|].
    + intros H. apply app_one_inv in H. injection H as _ ->. apply Hv.
    + rewrite app_nil_r. intros H. by apply app_one_neq in H.
Qed.

(** ** The connection flag of the transport object *)

Lemma perform_keeps_disconnected (answer : NativeCall -> Settlement) (op : ST.Op) (this : ST.t) :
  ST.connected this = false -> ST.connects (op, answer) = false ->
  ST.connected (ST.perform answer op this) = false.
Proof.
  intros Hc Hn. destruct op; simpl in *.
  - unfold ST.listDevices, ST.passThrough. simpl. by destruct (answer _).
  - unfold ST.connects in Hn. simpl in Hn.
    destruct (answer _) as [v|]; simpl; [|done].
    by rewrite Hn.
  - unfold ST.write. by rewrite Hc.
  - unfold ST.read. by rewrite Hc.
  - unfold ST.rawRead. by rewrite Hc.
  - unfold ST.setRTS, ST.passThrough. simpl. by destruct (answer _).
  - unfold ST.setDTR, ST.passThrough. simpl. by destruct (answer _).
  - destruct (answer _) as [v|]; simpl; [|done]. by destruct (ST.asBoolean v).
  - unfold ST.flush, ST.passThrough. simpl. by destruct (answer _).
  - destruct (answer _) as [v|]; simpl; [|done]. by destruct (ST.asBoolean v).
Qed.

Lemma performAll_keeps_disconnected (history : list (ST.Op * (NativeCall -> Settlement)))
    (this : ST.t) :
  ST.connected this = false -> forallb (fun oa => negb (ST.connects oa)) history = true ->
  ST.connected (ST.performAll this history) = false.
Proof.
  revert this. induction history as [|[op answer] rest IH]; intros this Hc Hn; [done|].
  simpl in Hn. apply andb_true_iff in Hn as [Ho Hn].
  unfold ST.performAll. simpl. apply IH; [|done].
  apply perform_keeps_disconnected; [done|]. by destruct (ST.connects (op, answer)).
Qed.

(** What holds of [write] with and without a session.  On the transport
    object: after any history of calls on a fresh object in which no
    [connect] was resolved as connected, [write] throws "Not connected"
    without calling the native module.  In the native module: with no
    session ([isConnected] false or no port) [write] rejects with
    [NOT_CONNECTED] and changes nothing else; the connection flag is down
    after every history from the initial state in which no step raised it;
    and only [connect] or the coroutine launched after a permission grant
    raises it.  When one of these two resolves a promise, a session is open
    and [write] settles its promise with the number of bytes when the port
    takes them and with [WRITE_ERROR] when the port throws.  On the
    transport object a [connect] resolved as connected sets the flag, and
    [write] with the flag set passes the data on and returns the count. *)
Theorem write_requires_session :
  (forall (history : list (ST.Op * (NativeCall -> Settlement))) (data : list Z),
     forallb (fun oa => negb (ST.connects oa)) history = true ->
     ST.write data (ST.performAll ST.new history)
     = Done (ST.performAll ST.new history, Thrown (Error "Not connected to any device"))) /\
  (forall (P : Platform) (m : SPM.t) (data : list Z) (p : Promise),
     SPM.isConnected m = false \/ SPM.serialPort m = None ->
     SPM.exec (SPM.write P data p) m
     = SPM.set_settled
         (SPM.settled m ++ [(p, Reject "NOT_CONNECTED" "Device not connected")]) m) /\
  (forall (history : list (Platform * SPM.Event)),
     neverOpened SPM.init history = true ->
     SPM.isConnected (SPM.run SPM.init history) = false) /\
  (forall (P : Platform) (m : SPM.t) (e : SPM.Event),
     SPM.isConnected m = false -> SPM.isConnected (SPM.step P m e) = true ->
     (exists name baud p, e = SPM.Connect name baud p) \/ e = SPM.RunLaunched) /\
  (forall (P : Platform) (m : SPM.t) (e : SPM.Event) (p : Promise) (v : Resolved),
     (exists name baud, e = SPM.Connect name baud p) \/ e = SPM.RunLaunched ->
     SPM.settled (SPM.step P m e) = SPM.settled m ++ [(p, Resolve v)] ->
     let m' := SPM.step P m e in
     SPM.isConnected m' = true /\
     exists port,
       SPM.serialPort m' = Some port /\
       forall (P' : Platform) (data : list Z) (p' : Promise),
         SPM.exec (SPM.write P' data p') m'
         = SPM.set_settled
             (SPM.settled m' ++
              [(p', match port_write P' port (byteOf <$> data) with
                    | None => Resolve (ResInt (Z.of_nat (length data)))
                    | Some e => Reject "WRITE_ERROR" ("Write failed: " +:+ getMessage e)
                    end)]) m') /\
  (forall (name : option string) (baud : option Z) (this : ST.t) (v : Resolved)
          (answer : NativeCall -> Settlement),
     answer (NConnect name (default 115200 baud)) = Resolve v ->
     result_connected (asConnectionResult v) = true ->
     let this' := fst (finish answer (ST.connect name baud this)) in
     ST.connected this' = true /\
     forall (data : list Z) (answer' : NativeCall -> Settlement),
       calls answer' (ST.write data this') = [NWrite data] /\
       forall n, answer' (NWrite data) = Resolve (ResInt n) ->
                 finish answer' (ST.write data this') = (this', Returned n)).
Proof.
  split; [|split; [|split; [|split; [|split]]]].
  - intros history data Hn.
    pose proof (performAll_keeps_disconnected history ST.new eq_refl Hn) as Hc.
    unfold ST.write. by rewrite Hc.
  - intros P m data p H. apply write_no_session. unfold SPM.noSession.
    destruct H as [-> | ->]; [done | by rewrite orb_true_r].
  - intros history Hn. by apply neverOpened_run.
  - apply session_opened_by.
  - intros P m e p v He Hs m'. subst m'.
    assert (Hopen : SPM.noSession (SPM.step P m e) = false).
    { destruct He as [(name & baud & ->) | ->]; simpl in *.
      - by apply connect_resolved in Hs.
      - by apply runLaunched_resolved in Hs. }
    split.
    + unfold SPM.noSession in Hopen. apply orb_false_iff in Hopen as [Hc _].
      by destruct (SPM.isConnected (SPM.step P m e)).
    + destruct (write_session P (SPM.step P m e) [] 0%nat Hopen) as (port & Hport & _).
      exists port. split; [done|]. intros P' data p'.
      destruct (write_session P' (SPM.step P m e) data p' Hopen) as (port' & Hport' & Hw).
      rewrite Hport in Hport'. by injection Hport' as <-.
  - intros name baud this v answer Ha Hv this'. subst this'. simpl.
    rewrite Ha. simpl. rewrite Hv. simpl. split; [done|].
    intros data answer'. unfold ST.write. simpl.
    split; [by destruct (answer' (NWrite data))|].
    intros n Hn. by rewrite Hn.
Qed.

(** The same at a failed [connect], on a fresh module and after a
    successful [connect]. *)
Lemma write_requires_session_witness :
  ST.write [1; 2; 3]
    (ST.performAll ST.new
       [(ST.OpConnect None None, fun _ => Reject "NO_DEVICE" "No compatible USB device found");
        (ST.OpFlush, fun _ => Resolve (ResBool true))])
  = Done (ST.new, Thrown (Error "Not connected to any device")) /\
  SPM.outcome 0 (SPM.exec (SPM.write lab [1; 2; 3] 0) SPM.init)
  = Some (Reject "NOT_CONNECTED" "Device not connected") /\
  SPM.outcome 1 (SPM.run SPM.init [(lab, SPM.Connect None 115200 0); (lab, SPM.Write [1; 2; 300] 1)])
  = Some (Resolve (ResInt 3)).
Proof.
  destruct write_requires_session as (Hfacade & Hguard & _ & _ & Hafter & _).
  split; [|split].
  - exact (Hfacade
             [(ST.OpConnect None None, fun _ => Reject "NO_DEVICE" "No compatible USB device found");
              (ST.OpFlush, fun _ => Resolve (ResBool true))] [1; 2; 3] eq_refl).
  - rewrite (Hguard lab SPM.init [1; 2; 3] 0%nat (or_introl eq_refl)). reflexivity.
  - destruct (Hafter lab SPM.init (SPM.Connect None 115200 0) 0%nat
                (ResMap (SPM.connectedMap cp2102 115200))
                (or_introl (ex_intro _ None (ex_intro _ 115200 eq_refl))) eq_refl)
      as (_ & port & Hport & Hw).
    change (SPM.run SPM.init [(lab, SPM.Connect None 115200 0); (lab, SPM.Write [1; 2; 300] 1)])
      with (SPM.exec (SPM.write lab [1; 2; 300] 1)
              (SPM.step lab SPM.init (SPM.Connect None 115200 0))).
    rewrite Hw. injection Hport as <-. reflexivity.
Defined.

(** C6, as the code has it.  [listDevices] asks for permission with its
    own promise; once the grant is completed the port is open, and a
    [write] is accepted although the history holds no call of [connect]:
    it resolves with the number of bytes instead of rejecting with
    [NOT_CONNECTED]. *)
Theorem write_without_connect :
  forallb (fun pe => negb (isConnectCall (snd pe))) grantAfterListing = true /\
  SPM.isConnected (SPM.run SPM.init grantAfterListing) = true /\
  SPM.outcome 1 (SPM.run SPM.init grantAfterListing) = Some (Resolve (ResInt 3)).
Proof. repeat split. Qed.

(** The same on a platform on which the serial number cannot be read
    before permission is held: [listDevices] rejects with [LIST_ERROR], but
    it has asked for permission first, and the grant opens the port all the
    same. *)
Example write_after_rejected_listing :
  SPM.outcome 0 (SPM.run SPM.init [(guarded [cp2102], SPM.ListDevices 0)])
  = Some (Reject "LIST_ERROR"
            "Failed to list devices: User has not given permission to access device serial number") /\
  SPM.outcome 1
    (SPM.run SPM.init
       [(guarded [cp2102], SPM.ListDevices 0);
        (guarded [cp2102], SPM.PermissionResult (Some cp2102) true);
        (guarded [cp2102], SPM.RunLaunched);
        (guarded [cp2102], SPM.Write [1; 2; 3] 1)])
  = Some (Resolve (ResInt 3)).
Proof. split; reflexivity. Qed.

(** ** Disconnecting *)

(** Cancelling the read job touches [readJob] and [loops] only. *)
Lemma cancelReadJob_fields (m : SPM.t) :
  SPM.serialPort (SPM.cancelReadJob m) = SPM.serialPort m /\
  SPM.isConnected (SPM.cancelReadJob m) = SPM.isConnected m /\
  SPM.readBuffer (SPM.cancelReadJob m) = SPM.readBuffer m /\
  SPM.permissionPromise (SPM.cancelReadJob m) = SPM.permissionPromise m /\
  SPM.settled (SPM.cancelReadJob m) = SPM.settled m /\
  SPM.emitted (SPM.cancelReadJob m) = SPM.emitted m /\
  SPM.drains (SPM.cancelReadJob m) = SPM.drains m /\
  SPM.removed (SPM.cancelReadJob m) = SPM.removed m.
Proof. unfold SPM.cancelReadJob. by destruct (SPM.readJob m). Qed.

(** Cancelling twice is cancelling once. *)
Lemma cancelReadJob_idemp (m : SPM.t) :
  SPM.cancelReadJob (SPM.cancelReadJob m) = SPM.cancelReadJob m.
Proof.
  unfold SPM.cancelReadJob. destruct (SPM.readJob m) eqn:Hj; simpl; [|by rewrite Hj].
  unfold SPM.set_readJob, SPM.set_loops. simpl. f_equal.
  by rewrite length_alter, list_alter_alter_eq.
Qed.

Lemma cancelReadJob_set_settled (log : list (Promise * Settlement)) (m : SPM.t) :
  SPM.cancelReadJob (SPM.set_settled log m) = SPM.set_settled log (SPM.cancelReadJob m).
Proof. unfold SPM.cancelReadJob. simpl. by destruct (SPM.readJob m). Qed.

(** The state [torn] describes, and tearing it down again. *)
Lemma torn_fields (m : SPM.t) :
  SPM.serialPort (torn m) = None /\ SPM.isConnected (torn m) = false /\
  SPM.readBuffer (torn m) = [] /\ SPM.settled (torn m) = SPM.settled m /\
  SPM.permissionPromise (torn m) = SPM.permissionPromise m.
Proof. unfold torn, SPM.cancelReadJob. by destruct (SPM.readJob m). Qed.

Lemma torn_again (log : list (Promise * Settlement)) (m : SPM.t) :
  torn (SPM.set_settled log (torn m)) = SPM.set_settled log (torn m).
Proof.
  unfold torn, cleared, SPM.set_settled, SPM.cancelReadJob.
  destruct m as [sp ic rb rj pp st em rq la dr lo ofd rm]; simpl.
  destruct rj; simpl; rewrite ?app_nil_r; [|done].
  by rewrite length_alter, list_alter_alter_eq.
Qed.

(** What [disconnect] does, by what the port answers to [close]. *)
Lemma disconnect_exec (P : Platform) (p : option Promise) (m : SPM.t) :
  SPM.exec (SPM.disconnect P p) m =
  match SPM.serialPort m with
  | Some port =>
    match port_close P port with
    | Some e =>
      SPM.exec (SPM.settle_opt p (Reject "DISCONNECT_ERROR" (getMessage e))) (SPM.cancelReadJob m)
    | None => SPM.exec (SPM.settle_opt p (Resolve (ResBool true))) (torn m)
    end
  | None => SPM.exec (SPM.settle_opt p (Resolve (ResBool true))) (torn m)
  end.
Proof.
  destruct (cancelReadJob_fields m) as (Hp & _ & Hb & _ & Hs & _ & _ & Hr).
  unfold SPM.disconnect, SPM.clearReadBuffer, SPM.exec, SPM.onPort, SPM.try_catch,
    SPM.bind, SPM.modify, SPM.get, SPM.call, SPM.settle_opt, SPM.settle, SPM.ret, torn.
  simpl. rewrite Hp.
  destruct (SPM.serialPort m) as [port|]; simpl.
  - destruct (port_close P port); destruct p; simpl; try done;
      unfold SPM.set_readBuffer, SPM.set_removed; simpl; by rewrite Hb, Hr.
  - destruct p; simpl; unfold SPM.set_readBuffer, SPM.set_removed; simpl; by rewrite Hb, Hr.
Qed.

Lemma disconnect_effect (P : Platform) (p : Promise) (m : SPM.t) :
  SPM.exec (SPM.disconnect P (Some p)) m =
  match SPM.serialPort m with
  | Some port =>
    match port_close P port with
    | Some e =>
      SPM.set_settled (SPM.settled m ++ [(p, Reject "DISCONNECT_ERROR" (getMessage e))])
        (SPM.cancelReadJob m)
    | None => SPM.set_settled (SPM.settled m ++ [(p, Resolve (ResBool true))]) (torn m)
    end
  | None => SPM.set_settled (SPM.settled m ++ [(p, Resolve (ResBool true))]) (torn m)
  end.
Proof.
  rewrite disconnect_exec.
  destruct (cancelReadJob_fields m) as (_ & _ & _ & _ & Hs & _).
  destruct (torn_fields m) as (_ & _ & _ & Ts & _).
  destruct (SPM.serialPort m) as [port|]; [destruct (port_close P port)|];
    unfold SPM.exec, SPM.settle_opt, SPM.settle, SPM.modify; simpl;
    by rewrite ?Hs, ?Ts.
Qed.

(** The counterexample to C7 as stated.  On [jammed] the port could not be
    opened, so no session is open, yet two calls of [disconnect] in a row
    are both rejected and the port handle stays in place.  On [stuck] a
    session is open and the port refuses to close: two calls in a row are
    both rejected and the module stays connected. *)
Lemma disconnect_rejected_twice :
  SPM.isConnected (SPM.run SPM.init [(jammed, SPM.Connect None 115200 0)]) = false /\
  SPM.outcome 1
    (SPM.run SPM.init
       [(jammed, SPM.Connect None 115200 0); (jammed, SPM.Disconnect 1); (jammed, SPM.Disconnect 2)])
  = Some (Reject "DISCONNECT_ERROR" "Already closed") /\
  SPM.outcome 2
    (SPM.run SPM.init
       [(jammed, SPM.Connect None 115200 0); (jammed, SPM.Disconnect 1); (jammed, SPM.Disconnect 2)])
  = Some (Reject "DISCONNECT_ERROR" "Already closed") /\
  SPM.serialPort
    (SPM.run SPM.init
       [(jammed, SPM.Connect None 115200 0); (jammed, SPM.Disconnect 1); (jammed, SPM.Disconnect 2)])
  = Some (mkUsbSerialPort "/dev/bus/usb/001/002" 0) /\
  SPM.outcome 2
    (SPM.run SPM.init
       [(stuck, SPM.Connect None 115200 0); (stuck, SPM.Disconnect 1); (stuck, SPM.Disconnect 2)])
  = Some (Reject "DISCONNECT_ERROR" "Device has been detached") /\
  SPM.isConnected
    (SPM.run SPM.init
       [(stuck, SPM.Connect None 115200 0); (stuck, SPM.Disconnect 1); (stuck, SPM.Disconnect 2)])
  = true.
Proof. repeat split. Qed.

(** C7, amended.  Two calls of [disconnect] in a row: the second leaves the
    port, the flag, the queue, the read job and the pending permission
    promise as the first left them.  With no port held the call resolves
    [true] and leaves the module disconnected with an empty queue.  When a
    call has resolved, the next one resolves [true] and changes nothing.
    When closing the held port throws, the call rejects with
    [DISCONNECT_ERROR] and keeps the port, the flag and the queue. *)
Theorem disconnect_idempotent (P : Platform) (m : SPM.t) (p1 p2 : Promise) :
  let m1 := SPM.exec (SPM.disconnect P (Some p1)) m in
  let m2 := SPM.exec (SPM.disconnect P (Some p2)) m1 in
  (SPM.serialPort m2 = SPM.serialPort m1 /\
   SPM.isConnected m2 = SPM.isConnected m1 /\
   SPM.readBuffer m2 = SPM.readBuffer m1 /\
   SPM.readJob m2 = SPM.readJob m1 /\
   SPM.permissionPromise m2 = SPM.permissionPromise m1) /\
  (SPM.serialPort m = None ->
   SPM.settled m1 = SPM.settled m ++ [(p1, Resolve (ResBool true))] /\
   SPM.isConnected m1 = false /\ SPM.serialPort m1 = None /\ SPM.readBuffer m1 = []) /\
  (SPM.settled m1 = SPM.settled m ++ [(p1, Resolve (ResBool true))] ->
   m2 = SPM.set_settled (SPM.settled m1 ++ [(p2, Resolve (ResBool true))]) m1 /\
   SPM.isConnected m2 = false /\ SPM.serialPort m2 = None /\ SPM.readBuffer m2 = []) /\
  (forall port e,
     SPM.serialPort m = Some port -> port_close P port = Some e ->
     SPM.settled m1 = SPM.settled m ++ [(p1, Reject "DISCONNECT_ERROR" (getMessage e))] /\
     SPM.serialPort m1 = Some port /\
     SPM.isConnected m1 = SPM.isConnected m /\
     SPM.readBuffer m1 = SPM.readBuffer m).
Proof.
  intros m1 m2. subst m1 m2. rewrite (disconnect_effect P p1 m).
  destruct (cancelReadJob_fields m) as (Hp & Hc & Hb & Hpp & Hs & _).
  destruct (torn_fields m) as (Tp & Tc & Tb & Ts & Tpp).
  destruct (SPM.serialPort m) as [port|] eqn:Hport;
    [destruct (port_close P port) as [e|] eqn:Hclose|].
  - rewrite disconnect_effect. cbn [SPM.serialPort SPM.set_settled]. rewrite Hp, Hclose.
    rewrite cancelReadJob_set_settled, cancelReadJob_idemp. simpl.
    split; [|split; [|split]].
    + by repeat split.
    + discriminate.
    + intros H. apply app_one_inv in H. discriminate.
    + intros port' e' [= <-] He. rewrite Hclose in He. injection He as <-.
      by rewrite Hc, Hb.
  - rewrite disconnect_effect. cbn [SPM.serialPort SPM.set_settled]. rewrite Tp.
    rewrite torn_again.
    cbn [SPM.serialPort SPM.isConnected SPM.readBuffer SPM.settled SPM.readJob
         SPM.permissionPromise SPM.set_settled].
    rewrite ?Tp, ?Tc, ?Tb, ?Ts.
    split; [|split; [|split]]; try done.
    intros port' e' [= <-] He. congruence.
  - rewrite disconnect_effect. cbn [SPM.serialPort SPM.set_settled]. rewrite Tp.
    rewrite torn_again.
    cbn [SPM.serialPort SPM.isConnected SPM.readBuffer SPM.settled SPM.readJob
         SPM.permissionPromise SPM.set_settled].
    rewrite ?Tp, ?Tc, ?Tb, ?Ts.
    split; [|split; [|split]]; done.
Qed.

(** C7 on a fresh module and after the sample session [twoReads]. *)
Lemma disconnect_idempotent_witness :
  SPM.settled (SPM.exec (SPM.disconnect lab (Some 0%nat)) SPM.init)
  = [(0%nat, Resolve (ResBool true))] /\
  SPM.outcome 8
    (SPM.exec (SPM.disconnect lab (Some 8%nat))
       (SPM.exec (SPM.disconnect lab (Some 7%nat)) (SPM.run SPM.init twoReads)))
  = Some (Resolve (ResBool true)) /\
  SPM.isConnected
    (SPM.exec (SPM.disconnect lab (Some 8%nat))
       (SPM.exec (SPM.disconnect lab (Some 7%nat)) (SPM.run SPM.init twoReads))) = false.
Proof.
  destruct (disconnect_idempotent lab SPM.init 0 1) as (_ & Hnone & _).
  destruct (Hnone eq_refl) as (Hs & _).
  destruct (disconnect_idempotent lab (SPM.run SPM.init twoReads) 7 8) as (_ & _ & Hagain & _).
  destruct (Hagain eq_refl) as (Hm2 & Hc & _).
  split; [exact Hs|]. split; [|exact Hc].
  exact (eq_trans (f_equal (SPM.outcome 8) Hm2) eq_refl).
Defined.

(** ** The pending permission promise *)

(** The counterexample to C2 as stated: a second [connect] issued while the
    permission request of the first is pending is not rejected; it takes
    over the slot, two requests are then outstanding, and the promise of
    the first call stays unsettled when the decisions have arrived. *)
Lemma second_connect_replaces_pending :
  SPM.permissionPromise
    (SPM.run SPM.init [(labLocked, SPM.Connect None 115200 0)]) = Some 0%nat /\
  SPM.permissionPromise
    (SPM.run SPM.init
       [(labLocked, SPM.Connect None 115200 0); (labLocked, SPM.Connect None 115200 1)])
  = Some 1%nat /\
  SPM.settled
    (SPM.run SPM.init
       [(labLocked, SPM.Connect None 115200 0); (labLocked, SPM.Connect None 115200 1)])
  = [] /\
  SPM.requested
    (SPM.run SPM.init
       [(labLocked, SPM.Connect None 115200 0); (labLocked, SPM.Connect None 115200 1)])
  = [(cp2102, 0%nat); (cp2102, 1%nat)] /\
  SPM.outcome 0
    (SPM.run SPM.init
       [(labLocked, SPM.Connect None 115200 0); (labLocked, SPM.Connect None 115200 1);
        (labLocked, SPM.PermissionResult (Some cp2102) true); (labLocked, SPM.RunLaunched);
        (labLocked, SPM.PermissionResult (Some cp2102) true); (labLocked, SPM.RunLaunched)])
  = None /\
  SPM.outcome 1
    (SPM.run SPM.init
       [(labLocked, SPM.Connect None 115200 0); (labLocked, SPM.Connect None 115200 1);
        (labLocked, SPM.PermissionResult (Some cp2102) true); (labLocked, SPM.RunLaunched);
        (labLocked, SPM.PermissionResult (Some cp2102) true); (labLocked, SPM.RunLaunched)])
  = Some (Resolve (ResMap (SPM.connectedMap cp2102 115200))).
Proof. repeat split; reflexivity. Qed.

(** The requests [listDevices] makes go through the same slot: its promise,
    already resolved with the device list, is settled a second time when a
    grant is completed, and the port is then open although [connect] was
    never called. *)
Example listDevices_then_grant :
  SPM.settled
    (SPM.run SPM.init
       [(bench [cp2102] false, SPM.ListDevices 0);
        (bench [cp2102] false, SPM.PermissionResult (Some cp2102) true);
        (bench [cp2102] false, SPM.RunLaunched)])
  = [(0%nat, Resolve (ResArray [SPM.deviceInfo cp2102]));
     (0%nat, Resolve (ResMap (SPM.connectedMap cp2102 115200)))] /\
  SPM.isConnected
    (SPM.run SPM.init
       [(bench [cp2102] false, SPM.ListDevices 0);
        (bench [cp2102] false, SPM.PermissionResult (Some cp2102) true);
        (bench [cp2102] false, SPM.RunLaunched)])
  = true.
Proof. split; reflexivity. Qed.

(** C2, amended.  The module tracks one pending permission promise, that of
    the latest request: a request stores its promise in the slot, whatever
    the slot held, and settles nothing; so does a [connect] that finds no
    session and a device without permission, even while another request is
    pending.  A denial rejects the promise in the slot once with
    [PERMISSION_DENIED] and empties the slot; a grant launches the
    completion, which settles the promise then in the slot once and empties
    the slot. *)
Theorem permission_slot (P : Platform) (m : SPM.t) :
  (forall d p baud,
     SPM.exec (SPM.requestPermission d p baud) m
     = SPM.set_requested (SPM.requested m ++ [(d, p)])
         (SPM.set_permissionPromise (Some p) m)) /\
  (forall name baud p d,
     SPM.isConnected m = false -> SPM.targetDevice P name = Some d ->
     hasPermission P d = false ->
     let m' := SPM.exec (SPM.connect P name baud p) m in
     SPM.permissionPromise m' = Some p /\ SPM.settled m' = SPM.settled m /\
     SPM.requested m' = SPM.requested m ++ [(d, p)]) /\
  (forall d granted,
     granted = false \/ d = None ->
     let m' := SPM.onPermission d granted m in
     SPM.permissionPromise m' = None /\
     SPM.settled m'
     = SPM.settled m ++
       match SPM.permissionPromise m with
       | Some q => [(q, Reject "PERMISSION_DENIED" "USB permission denied")]
       | None => []
       end) /\
  (forall d,
     SPM.onPermission (Some d) true m = SPM.set_launched (SPM.launched m ++ [d]) m) /\
  (forall d rest,
     SPM.launched m = d :: rest ->
     let m' := SPM.runLaunched P m in
     SPM.permissionPromise m' = None /\
     exists s,
       SPM.settled m'
       = SPM.settled m ++
         match SPM.permissionPromise m with
         | Some q => [(q, s)]
         | None => []
         end).
Proof.
  split; [|split; [|split; [|split]]].
  - done.
  - intros name baud p d Hc Ht Hp m'. subst m'.
    rewrite connect_disconnected by done. by rewrite Ht, Hp.
  - intros d granted H m'. subst m'. unfold SPM.onPermission.
    assert (Hm : match granted, d with
                 | true, Some d0 => SPM.set_launched (SPM.launched m ++ [d0]) m
                 | _, _ =>
                   SPM.exec (SPM.bind
                     (SPM.settle_opt (SPM.permissionPromise m)
                        (Reject "PERMISSION_DENIED" "USB permission denied"))
                     (fun _ => SPM.modify (SPM.set_permissionPromise None))) m
                 end
                 = SPM.exec (SPM.bind
                     (SPM.settle_opt (SPM.permissionPromise m)
                        (Reject "PERMISSION_DENIED" "USB permission denied"))
                     (fun _ => SPM.modify (SPM.set_permissionPromise None))) m).
    { destruct H as [-> | ->]; [by destruct d | by destruct granted]. }
    rewrite Hm. unfold SPM.exec, SPM.bind, SPM.settle_opt, SPM.settle, SPM.modify, SPM.ret.
    destruct (SPM.permissionPromise m); simpl; [done|]. by rewrite app_nil_r.
  - done.
  - intros d rest Hl m'. subst m'. rewrite (runLaunched_effect P m d rest Hl).
    split; [done|].
    destruct (openDeviceInternal_settles P d (SPM.permissionPromise m) 115200
                (SPM.set_launched rest m)) as (s & Hs & _).
    exists s. simpl in *. exact Hs.
Qed.

(** C2 on the locked laboratory bench: a second [connect], a denial, a
    completed grant. *)
Lemma permission_slot_witness :
  SPM.permissionPromise
    (SPM.exec (SPM.connect labLocked None 115200 1)
       (SPM.run SPM.init [(labLocked, SPM.Connect None 115200 0)])) = Some 1%nat /\
  SPM.settled
    (SPM.onPermission None false (SPM.run SPM.init [(labLocked, SPM.Connect None 115200 0)]))
  = [(0%nat, Reject "PERMISSION_DENIED" "USB permission denied")] /\
  SPM.permissionPromise
    (SPM.runLaunched labLocked
       (SPM.run SPM.init [(labLocked, SPM.Connect None 115200 0);
                          (labLocked, SPM.PermissionResult (Some cp2102) true)])) = None.
Proof.
  destruct (permission_slot labLocked (SPM.run SPM.init [(labLocked, SPM.Connect None 115200 0)]))
    as (_ & Hconnect & Hdenied & _).
  destruct (Hconnect None 115200 1%nat cp2102 eq_refl eq_refl eq_refl) as (Hslot & _).
  destruct (Hdenied None false (or_introl eq_refl)) as (_ & Hsettled).
  destruct (permission_slot labLocked
              (SPM.run SPM.init [(labLocked, SPM.Connect None 115200 0);
                                 (labLocked, SPM.PermissionResult (Some cp2102) true)]))
    as (_ & _ & _ & _ & Hrun).
  destruct (Hrun cp2102 [] eq_refl) as (Hnone & _).
  split; [exact Hslot|]. split; [exact Hsettled | exact Hnone].
Defined.

(** ** Reading through the transport object *)

(** C8.  On a connected transport object and for every timeout, [read] and
    [rawRead] each issue exactly one native [read] with that timeout.  When
    it resolves with the numbers [data], the generator yields no chunk for
    empty [data] and the single chunk [Uint8Array data] otherwise, never an
    empty chunk, and then ends; [rawRead] returns [Uint8Array data], which
    is the concatenation of the chunks yielded by [read]; neither changes
    the object.  When the native [read] rejects, both throw the rejection
    and nothing is yielded. *)
Theorem read_single_drain (this : ST.t) (timeout : option Z) :
  ST.connected this = true ->
  (forall answer,
     calls answer (ST.read timeout this) = [NRead (default 1000 timeout)] /\
     calls answer (ST.rawRead timeout this) = [NRead (default 1000 timeout)]) /\
  (forall answer data,
     answer (NRead (default 1000 timeout)) = Resolve (ResInts data) ->
     let g := snd (finish answer (ST.read timeout this)) in
     let r := snd (finish answer (ST.rawRead timeout this)) in
     (length (ST.yielded g) <= 1)%nat /\
     (data = [] -> ST.yielded g = []) /\
     (data <> [] -> ST.yielded g = [Uint8Array data]) /\
     Forall (fun chunk => chunk <> []) (ST.yielded g) /\
     ST.finished g = Returned tt /\
     r = Returned (Uint8Array data) /\
     r = Returned (concat (ST.yielded g)) /\
     fst (finish answer (ST.read timeout this)) = this /\
     fst (finish answer (ST.rawRead timeout this)) = this) /\
  (forall answer code message,
     answer (NRead (default 1000 timeout)) = Reject code message ->
     snd (finish answer (ST.read timeout this))
     = ST.mkGenerated [] (Thrown (BridgeRejection code message)) /\
     snd (finish answer (ST.rawRead timeout this))
     = Thrown (BridgeRejection code message)).
Proof.
  intros Hc. unfold ST.read, ST.rawRead. rewrite Hc. simpl.
  split; [|split].
  - intros answer. split; by destruct (answer _) as [v|]; simpl; try destruct (0 <? _)%nat.
  - intros answer data Ha. rewrite Ha. simpl.
    destruct data as [|x data]; simpl.
    + repeat split; try done; try lia.
    + repeat split; try done; try lia.
      * repeat constructor. discriminate.
      * by rewrite app_nil_r.
  - intros answer code message Ha. by rewrite Ha.
Qed.

(** C8 on a connected object, for three bytes and for none. *)
Lemma read_single_drain_witness :
  ST.yielded
    (snd (finish (fun _ => Resolve (ResInts [72; 255; 10]))
            (ST.read (Some 250) (ST.mk true (Some "/dev/bus/usb/001/002") (Some 115200)))))
  = [[72; 255; 10]] /\
  snd (finish (fun _ => Resolve (ResInts [72; 255; 10]))
         (ST.rawRead (Some 250) (ST.mk true (Some "/dev/bus/usb/001/002") (Some 115200))))
  = Returned [72; 255; 10] /\
  ST.yielded
    (snd (finish (fun _ => Resolve (ResInts []))
            (ST.read None (ST.mk true (Some "/dev/bus/usb/001/002") (Some 115200)))))
  = [].
Proof.
  destruct (read_single_drain (ST.mk true (Some "/dev/bus/usb/001/002") (Some 115200))
              (Some 250) eq_refl) as (_ & Hdata & _).
  destruct (Hdata (fun _ => Resolve (ResInts [72; 255; 10])) [72; 255; 10] eq_refl)
    as (_ & _ & Hchunk & _ & _ & Hraw & _).
  destruct (read_single_drain (ST.mk true (Some "/dev/bus/usb/001/002") (Some 115200))
              None eq_refl) as (_ & Hdata' & _).
  destruct (Hdata' (fun _ => Resolve (ResInts [])) [] eq_refl) as (_ & Hempty & _).
  split; [|split].
  - apply Hchunk. discriminate.
  - exact Hraw.
  - apply Hempty. reflexivity.
Defined.

(** ** Device descriptors *)

(** What [listDevices] settles its promise with. *)
Lemma listDevices_effect (P : Platform) (p : Promise) (m : SPM.t) :
  SPM.settled (SPM.exec (SPM.listDevices P p) m) = SPM.settled m ++ [(p, listing P)].
Proof. rewrite listDevices_exec. by destruct (deviceList P). Qed.

Lemma listing_all (P : Platform) :
  Forall (fun x => device_getSerialNumber P x = None) (deviceList P) ->
  listing P = Resolve (ResArray (SPM.deviceInfo <$> deviceList P)).
Proof. intros H. unfold listing. by rewrite (listed_all P _ H). Qed.

(** C9, as the code has it.  [listDevices] resolves one map per attached
    device: it does so whenever the serial number of every device can be
    read, and it never resolves anything else.  Each map holds the name,
    the vendor and product ids, the manufacturer and product strings (under
    the keys [manufacturer] and [product], with "Unknown" for a missing
    one), the serial number (empty when missing), the class and the
    subclass: eight entries.  It has no [portCount] entry, nor the
    [manufacturerName] and [productName] keys of the [USBDevice]
    interface. *)
Theorem listDevices_descriptor (P : Platform) (m : SPM.t) (p : Promise) (d : UsbDevice) :
  (Forall (fun x => device_getSerialNumber P x = None) (deviceList P) ->
   SPM.settled (SPM.exec (SPM.listDevices P p) m)
   = SPM.settled m ++ [(p, Resolve (ResArray (SPM.deviceInfo <$> deviceList P)))]) /\
  (forall q v,
     In (q, Resolve v) (SPM.settled (SPM.exec (SPM.listDevices P p) m)) ->
     In (q, Resolve v) (SPM.settled m) \/
     q = p /\ v = ResArray (SPM.deviceInfo <$> deviceList P)) /\
  SPM.deviceInfo d !! "deviceName" = Some (PString (deviceName d)) /\
  SPM.deviceInfo d !! "vendorId" = Some (PInt (vendorId d)) /\
  SPM.deviceInfo d !! "productId" = Some (PInt (productId d)) /\
  SPM.deviceInfo d !! "manufacturer" = Some (PString (default "Unknown" (manufacturerName d))) /\
  SPM.deviceInfo d !! "product" = Some (PString (default "Unknown" (productName d))) /\
  SPM.deviceInfo d !! "serialNumber" = Some (PString (default EmptyString (serialNumber d))) /\
  SPM.deviceInfo d !! "deviceClass" = Some (PInt (deviceClass d)) /\
  SPM.deviceInfo d !! "deviceSubclass" = Some (PInt (deviceSubclass d)) /\
  dom (SPM.deviceInfo d)
  = list_to_set ["deviceName"; "vendorId"; "productId"; "manufacturer"; "product";
                 "serialNumber"; "deviceClass"; "deviceSubclass"] /\
  SPM.deviceInfo d !! "portCount" = None /\
  SPM.deviceInfo d !! "manufacturerName" = None /\
  SPM.deviceInfo d !! "productName" = None.
Proof.
  split; [|split].
  - intros H. by rewrite listDevices_effect, listing_all.
  - intros q v. rewrite listDevices_effect, in_app_iff. simpl.
    intros [H | [H | []]]; [by left|]. right.
    unfold listing in H. destruct (snd (listed P (deviceList P))); [discriminate|].
    by injection H as -> ->.
  - unfold SPM.deviceInfo.
    repeat split;
      repeat (rewrite lookup_insert_ne by done); first [by rewrite lookup_insert_eq | done].
Qed.

Example listDevices_one_device :
  SPM.outcome 0 (SPM.exec (SPM.listDevices (bench [cp2102] true) 0) SPM.init)
  = Some (Resolve (ResArray [SPM.deviceInfo cp2102])) /\
  SPM.deviceInfo cp2102 !! "portCount" = None /\
  size (SPM.deviceInfo cp2102) = 8%nat.
Proof. repeat split; reflexivity. Qed.

(** ** Connecting through the transport object *)

(** Up to [2 ^ 53] a number is printed with its own digits. *)
Lemma numberToString_safe (n : Z) : Z.abs n <= 2 ^ 53 -> numberToString n = pretty n.
Proof.
  intros H. unfold numberToString.
  destruct (Z.leb_spec (Z.abs n) (2 ^ 53)); [done | lia].
Qed.

Lemma intValue_range (n : Z) : -2147483648 <= intValue n <= 2147483647.
Proof. unfold intValue. lia. Qed.

Lemma intValue_id (n : Z) : -2147483648 <= n <= 2147483647 -> intValue n = n.
Proof. unfold intValue. lia. Qed.

(** Sample values beyond [2 ^ 53], where digits are dropped, and beyond
    [10 ^ 21], where the exponent notation sets in. *)
Example numberToString_samples :
  numberToString 3000000000 = "3000000000" /\
  numberToString (2 ^ 63) = "9223372036854776000" /\
  numberToString (10 ^ 21) = "1e+21" /\
  numberToString (2 ^ 70) = "1.1805916207174113e+21" /\
  numberToString (- 10 ^ 23) = "-1e+23".
Proof. repeat split; vm_compute; reflexivity. Qed.

Lemma connectedMap_connected (d : UsbDevice) (baud : Z) :
  asConnectionResult (ResMap (SPM.connectedMap d baud))
  = mkConnectionResult true (Some (deviceName d)) (Some baud) None.
Proof.
  unfold asConnectionResult, SPM.connectedMap.
  repeat (rewrite ?lookup_insert_eq; rewrite ?lookup_insert_ne by done).
  by rewrite lookup_empty.
Qed.

(** Whatever the native [connect] resolves is a connected result. *)
Lemma connect_resolves_connected (P : Platform) (m : SPM.t) (name : option string)
    (baud : Z) (p : Promise) (v : Resolved) :
  In (p, Resolve v) (SPM.settled (SPM.exec (SPM.connect P name baud p) m)) ->
  In (p, Resolve v) (SPM.settled m) \/ result_connected (asConnectionResult v) = true.
Proof.
  destruct (SPM.isConnected m) eqn:Hc.
  - rewrite connect_connected by done. simpl. rewrite in_app_iff. simpl.
    intros [H | [H | []]]; [by left | discriminate].
  - rewrite connect_disconnected by done.
    destruct (SPM.targetDevice P name) as [d|].
    + destruct (hasPermission P d).
      * destruct (openDeviceInternal_settles P d (Some p) baud m) as (s & Hs & _ & Hv).
        rewrite Hs, in_app_iff. simpl. intros [H | [H | []]]; [by left|].
        injection H as ->. right. destruct Hv as [-> _].
        by rewrite connectedMap_connected.
      * simpl. by left.
    + simpl. rewrite in_app_iff. simpl. intros [H | [H | []]]; [by left | discriminate].
Qed.

(** C1, as the code has it.  With no device attached the native [connect]
    rejects with [NO_DEVICE] and [SerialTransport.connect] throws that
    rejection.  In general a rejection of the native [connect] is thrown by
    the transport's [connect], which leaves the object unchanged and returns
    no string; the native [connect] never resolves a result that is not
    connected, so the "Failed to connect" string is never returned through
    this native module; a connected result is cached and reported, the baud
    rate as JavaScript prints the number, which for every rate an [Int] can
    hold is its decimal notation. *)
Theorem connect_rejection_is_thrown :
  snd (runAsync emptyBus (ST.connect None None ST.new) 0 SPM.init)
  = Some (ST.new, Thrown (BridgeRejection "NO_DEVICE" "No compatible USB device found")) /\
  (forall name baud this answer code message,
     answer (NConnect name (default 115200 baud)) = Reject code message ->
     finish answer (ST.connect name baud this)
     = (this, Thrown (BridgeRejection code message))) /\
  (forall P m name baud p v,
     In (p, Resolve v) (SPM.settled (SPM.exec (SPM.connect P name baud p) m)) ->
     In (p, Resolve v) (SPM.settled m) \/ result_connected (asConnectionResult v) = true) /\
  (forall name baud this answer d rate,
     answer (NConnect name (default 115200 baud)) = Resolve (ResMap (SPM.connectedMap d rate)) ->
     finish answer (ST.connect name baud this)
     = (ST.mk true (Some (deviceName d)) (Some rate),
        Returned ("Connected to " +:+ deviceName d +:+ " at " +:+ numberToString rate
                    +:+ " band"))) /\
  (forall rate, Z.abs rate <= 2 ^ 53 -> numberToString rate = pretty rate).
Proof.
  split; [reflexivity|]. split; [|split; [|split]].
  - intros name baud this answer code message Ha. simpl. by rewrite Ha.
  - apply connect_resolves_connected.
  - intros name baud this answer d rate Ha. simpl. rewrite Ha.
    by rewrite connectedMap_connected.
  - apply numberToString_safe.
Qed.

(** C1 at a rejected and at a resolved [connect]. *)
Lemma connect_rejection_is_thrown_witness :
  finish (fun _ => Reject "ALREADY_CONNECTED" "Already connected to a device")
    (ST.connect (Some "/dev/bus/usb/001/002") None ST.new)
  = (ST.new, Thrown (BridgeRejection "ALREADY_CONNECTED" "Already connected to a device")) /\
  snd (runAsync lab (ST.connect None None ST.new) 0 SPM.init)
  = Some (ST.mk true (Some "/dev/bus/usb/001/002") (Some 115200),
          Returned "Connected to /dev/bus/usb/001/002 at 115200 band").
Proof.
  destruct connect_rejection_is_thrown as (_ & Hthrown & _).
  split; [|reflexivity].
  exact (Hthrown (Some "/dev/bus/usb/001/002") None ST.new
           (fun _ => Reject "ALREADY_CONNECTED" "Already connected to a device")
           "ALREADY_CONNECTED" "Already connected to a device" eq_refl).
Defined.

(** * Further properties of the code *)

Local Set Warnings "-clear-no-such-hyp".

(** ** The session invariant *)










Lemma steady_listDevices (P : Platform) (p : Promise) (m : SPM.t) :
  steady m (SPM.exec (SPM.listDevices P p) m).
Proof. rewrite listDevices_exec. by destruct (deviceList P). Qed.


















(** ** Opening a device *)

(** X2.  [openDeviceInternal] called with a promise settles it exactly once.
    It resolves it exactly when the prober finds a driver with a port, the
    manager opens the device and the four calls on the port ([open],
    [setParameters], DTR, RTS) all return; the module then holds the first
    port of the driver, its flag is raised and a read job is active.  A
    rejection carries one of four codes and leaves the flag and the read job
    as they were; without a driver or without a connection the port field
    is not touched either. *)
Theorem open_outcome (P : Platform) (d : UsbDevice) (q : Promise) (baud : Z) (m : SPM.t) :
  let m' := SPM.exec (SPM.openDeviceInternal P d (Some q) baud) m in
  exists s,
    SPM.settled m' = SPM.settled m ++ [(q, s)] /\
    ((exists v, s = Resolve v) <->
     exists port ports,
       probeDevice P d = Some (port :: ports) /\ openDevice P d = true /\
       port_open P port = None /\ port_setParameters P port baud = None /\
       port_setDTR P port true = None /\ port_setRTS P port true = None) /\
    (forall v, s = Resolve v ->
       v = ResMap (SPM.connectedMap d baud) /\ SPM.isConnected m' = true /\
       SPM.readJob m' = Some SPM.Active /\
       exists port ports, probeDevice P d = Some (port :: ports) /\ SPM.serialPort m' = Some port) /\
    (forall code message, s = Reject code message ->
       SPM.isConnected m' = SPM.isConnected m /\ SPM.readJob m' = SPM.readJob m /\
       In code ["NO_DRIVER"; "OPEN_FAILED"; "IO_ERROR"; "OPEN_ERROR"]) /\
    (probeDevice P d = None ->
       s = Reject "NO_DRIVER" "No driver found for device" /\
       SPM.serialPort m' = SPM.serialPort m) /\
    (probeDevice P d <> None -> openDevice P d = false ->
       s = Reject "OPEN_FAILED" "Failed to open device connection" /\
       SPM.serialPort m' = SPM.serialPort m).
Proof.
  unfold SPM.openDeviceInternal, SPM.startReading.
  kt_unfold. simpl.
  destruct (probeDevice P d) as [[|port0 ports]|] eqn:Hprobe; simpl.
  2: destruct (openDevice P d) eqn:Hconn; simpl.
  2: destruct (port_open P port0) as [[]|] eqn:Hopen; simpl.
  4: destruct (port_setParameters P port0 baud) as [[]|] eqn:Hpar; simpl.
  6: destruct (port_setDTR P port0 true) as [[]|] eqn:Hdtr; simpl.
  8: destruct (port_setRTS P port0 true) as [[]|] eqn:Hrts; simpl.
  all: try (destruct (openDevice P d) eqn:Hconn; simpl).
  all: eexists; split; [reflexivity|].
  all: repeat split; try done; try naive_solver.
Qed.

(** X2 on the laboratory bench and on the jammed port. *)
Lemma open_outcome_witness :
  SPM.settled (SPM.exec (SPM.openDeviceInternal lab keyboard (Some 0%nat) 9600) SPM.init)
  = [(0%nat, Reject "NO_DRIVER" "No driver found for device")] /\
  SPM.outcome 0 (SPM.exec (SPM.openDeviceInternal jammed cp2102 (Some 0%nat) 9600) SPM.init)
  = Some (Reject "IO_ERROR" "IO error: Could not claim interface").
Proof.
  destruct (open_outcome lab keyboard 0 9600 SPM.init) as (s & Hs & _ & _ & _ & Hnone & _).
  destruct (Hnone eq_refl) as [-> _].
  split; [exact Hs | reflexivity].
Defined.

(** ** Control lines and baud rate *)

(** The three calls share one shape: test the session, call the port,
    resolve [true], reject with their own code when the port throws. *)
Lemma control_effect (f : UsbSerialPort -> option Throwable) (code : string)
    (p : Promise) (m : SPM.t) :
  SPM.exec
    (SPM.try_catch
       (SPM.bind SPM.get (fun m0 =>
          if SPM.noSession m0
          then SPM.settle p (Reject "NOT_CONNECTED" "Device not connected")
          else SPM.bind (SPM.onPort f) (fun _ => SPM.settle p (Resolve (ResBool true)))))
       (fun e => SPM.settle p (Reject code (getMessage e)))) m
  = SPM.set_settled
      (SPM.settled m ++
       [(p, match SPM.isConnected m, SPM.serialPort m with
            | true, Some port =>
              match f port with
              | None => Resolve (ResBool true)
              | Some e => Reject code (getMessage e)
              end
            | _, _ => Reject "NOT_CONNECTED" "Device not connected"
            end)]) m.
Proof.
  unfold SPM.exec, SPM.try_catch, SPM.bind, SPM.get, SPM.onPort, SPM.noSession, SPM.call.
  simpl.
  destruct (SPM.isConnected m); simpl; [|reflexivity].
  destruct (SPM.serialPort m) as [port|] eqn:Hport; simpl; [|reflexivity].
  unfold SPM.bind, SPM.get. rewrite Hport. by destruct (f port).
Qed.

(** X3.  [setRTS], [setDTR] and [setBaudRate] settle their promise once and
    change nothing else in the module, the baud rate being kept nowhere:
    [NOT_CONNECTED] when the flag is down or no port is held; otherwise
    [true] when the port takes the call, and [RTS_ERROR], [DTR_ERROR] or
    [BAUDRATE_ERROR] with the message of the exception when it throws. *)
Theorem control_lines (P : Platform) (m : SPM.t) (p : Promise) (state : bool) (baud : Z) :
  let verdict (f : UsbSerialPort -> option Throwable) (code : string) :=
    match SPM.isConnected m, SPM.serialPort m with
    | true, Some port =>
      match f port with
      | None => Resolve (ResBool true)
      | Some e => Reject code (getMessage e)
      end
    | _, _ => Reject "NOT_CONNECTED" "Device not connected"
    end in
  SPM.exec (SPM.setRTS P state p) m
  = SPM.set_settled
      (SPM.settled m ++ [(p, verdict (fun port => port_setRTS P port state) "RTS_ERROR")]) m /\
  SPM.exec (SPM.setDTR P state p) m
  = SPM.set_settled
      (SPM.settled m ++ [(p, verdict (fun port => port_setDTR P port state) "DTR_ERROR")]) m /\
  SPM.exec (SPM.setBaudRate P baud p) m
  = SPM.set_settled
      (SPM.settled m ++
       [(p, verdict (fun port => port_setParameters P port baud) "BAUDRATE_ERROR")]) m.
Proof.
  intros verdict. subst verdict. cbv beta.
  repeat split; apply control_effect.
Qed.

(** ** Bytes in both directions *)

Lemma toByte_range (n : Z) : -128 <= toByte n <= 127.
Proof. unfold toByte. pose proof (Z.mod_pos_bound (n + 128) 256). lia. Qed.

Lemma toUnsigned_mod (b : Z) : toUnsigned b = b mod 256.
Proof. unfold toUnsigned. change 255 with (Z.ones 8). by rewrite Z.land_ones by lia. Qed.

Lemma toUnsigned_toByte (n : Z) : toUnsigned (toByte n) = n mod 256.
Proof.
  rewrite toUnsigned_mod. unfold toByte.
  rewrite Zminus_mod, Z.mod_mod by lia.
  rewrite <- Zminus_mod. f_equal. lia.
Qed.

(** X4.  The byte [write] sends for a number is taken from the number as an
    [Int]: a number beyond the range of an [Int] is cut to its bounds
    first, so every number from 2147483647 up is sent as the byte -1 and
    every number from -2147483648 down as the byte 0.  Read back through
    the mask of [read], the byte of a number within the range of an [Int]
    is that number modulo 256, and a number of [0 .. 255] is echoed
    unchanged; the byte sent lies within [-128 .. 127], and a byte of that
    range survives the way through [read] and back; whole arrays are
    carried elementwise, so what [SerialTransport.write] sends as a
    [Uint8Array] is what an echoing device makes [rawRead] return. *)
Theorem byte_round_trip :
  (forall n, toUnsigned (byteOf n) = intValue n mod 256) /\
  (forall n, -2147483648 <= n <= 2147483647 -> toUnsigned (byteOf n) = n mod 256) /\
  (forall n, 0 <= n <= 255 -> toUnsigned (byteOf n) = n) /\
  (forall n, 2147483647 <= n -> byteOf n = -1) /\
  (forall n, n <= -2147483648 -> byteOf n = 0) /\
  (forall n, -128 <= byteOf n <= 127) /\
  (forall b, -128 <= b <= 127 -> byteOf (toUnsigned b) = b) /\
  (forall data, Uint8Array (toUnsigned <$> (byteOf <$> Uint8Array data)) = Uint8Array data).
Proof.
  assert (H1 : forall n, -2147483648 <= n <= 2147483647 -> toUnsigned (byteOf n) = n mod 256).
  { intros n Hn. unfold byteOf. by rewrite toUnsigned_toByte, intValue_id. }
  split; [|split; [exact H1|]]; [|split; [|split; [|split; [|split; [|split]]]]].
  - intros n. unfold byteOf. apply toUnsigned_toByte.
  - intros n Hn. rewrite H1 by lia. apply Z.mod_small. lia.
  - intros n Hn. unfold byteOf, intValue. by rewrite Z.min_l, Z.max_r by lia.
  - intros n Hn. unfold byteOf, intValue. by rewrite Z.min_r, Z.max_l by lia.
  - intros n. apply toByte_range.
  - intros b Hb. pose proof (toUnsigned_range b) as Hr.
    unfold byteOf. rewrite intValue_id by lia.
    rewrite toUnsigned_mod. unfold toByte.
    destruct (Z.ltb_spec b 0).
    + replace (b mod 256) with (b + 256).
      * replace (b + 256 + 128) with (b + 128 + 1 * 256) by lia.
        rewrite Z.mod_add by lia. rewrite Z.mod_small; lia.
      * apply (Z.mod_unique_pos _ _ (-1)); lia.
    + rewrite (Z.mod_small b) by lia. rewrite Z.mod_small; lia.
  - intros data. unfold Uint8Array. rewrite <- !list_fmap_compose.
    apply list_fmap_ext. intros i n _. simpl.
    pose proof (Z.mod_pos_bound n 256).
    rewrite H1 by lia. by rewrite !Z.mod_mod by lia.
Qed.

(** X4 at a byte above 127 and at a number beyond the range of an [Int]. *)
Lemma byte_round_trip_witness :
  byteOf 200 = -56 /\ toUnsigned (byteOf 200) = 200 /\ toUnsigned (byteOf 4294967301) = 255.
Proof.
  destruct byte_round_trip as (_ & _ & Hsmall & Hhigh & _).
  split; [reflexivity|]. split; [apply Hsmall; lia|].
  rewrite Hhigh by lia. reflexivity.
Defined.

(** ** Reads on an idle session *)

(** A started read that meets an empty queue at every turn. *)
Lemma idle_drain_steps (P : Platform) (q : Promise) (timeout start : Z)
    (clocks : list Z) (m : SPM.t) :
  SPM.readBuffer m = [] ->
  SPM.drains m = [SPM.mkDrain q timeout (Some start) []] ->
  SPM.run m (drainSteps P 0 clocks)
  = if elapsed start timeout clocks
    then SPM.set_settled (SPM.settled m ++ [(q, Resolve (ResInts []))]) (SPM.set_drains [] m)
    else m.
Proof.
  revert m. induction clocks as [|now rest IH]; intros m Hb Hd; [done|].
  unfold drainSteps. rewrite fmap_cons, run_cons. fold (drainSteps P 0 rest).
  simpl. unfold SPM.drainStep. rewrite Hd. simpl.
  destruct (now - start <? timeout) eqn:Hw; simpl.
  - rewrite Hb. by apply IH.
  - clear IH. induction rest as [|now' rest IH]; [done|].
    unfold drainSteps. rewrite fmap_cons, run_cons. fold (drainSteps P 0 rest).
    exact IH.
Qed.

(** X5.  On a connected module with no read in flight, [flush] followed by
    [read] while no byte arrives: the flush resolves [true]; the read takes
    its start time at its first step and resolves with the empty array at
    the first later step whose clock is [timeout] or more past the start,
    not before; until then its promise is unsettled. *)
Theorem flush_then_idle_read (P : Platform) (m : SPM.t) (p q : Promise)
    (timeout start : Z) (clocks : list Z) :
  SPM.isConnected m = true -> SPM.drains m = [] ->
  let m' :=
    SPM.run m ([(P, SPM.Flush p); (P, SPM.Read timeout q)] ++ drainSteps P 0 (start :: clocks)) in
  SPM.readBuffer m' = [] /\
  if elapsed start timeout clocks
  then SPM.settled m'
       = SPM.settled m ++ [(p, Resolve (ResBool true)); (q, Resolve (ResInts []))] /\
       SPM.drains m' = []
  else SPM.settled m' = SPM.settled m ++ [(p, Resolve (ResBool true))] /\
       SPM.drains m' = [SPM.mkDrain q timeout (Some start) []].
Proof.
  intros Hc Hd m'. subst m'.
  unfold drainSteps. rewrite fmap_cons. fold (drainSteps P 0 clocks).
  change (SPM.run m ([(P, SPM.Flush p); (P, SPM.Read timeout q)]
                     ++ (P, SPM.DrainStep 0 start) :: drainSteps P 0 clocks))
    with (SPM.run (SPM.drainStep 0 start
                     (SPM.exec (SPM.read timeout q) (SPM.exec (SPM.flush p) m)))
            (drainSteps P 0 clocks)).
  rewrite read_effect.
  assert (Hc' : SPM.isConnected (SPM.exec (SPM.flush p) m) = true) by exact Hc.
  rewrite Hc'. unfold SPM.drainStep. simpl. rewrite Hd. simpl.
  rewrite (idle_drain_steps P q timeout start clocks) by done.
  destruct (elapsed start timeout clocks); simpl; [|done].
  by rewrite <- app_assoc.
Qed.

(** X5 with a window of 50 ms that three steps do not exhaust and a fourth
    does. *)
Lemma flush_then_idle_read_witness :
  SPM.outcome 9
    (SPM.run (SPM.run SPM.init twoQueued)
       ([(lab, SPM.Flush 8); (lab, SPM.Read 50 9)] ++ drainSteps lab 0 [100; 101; 120; 149]))
  = None /\
  SPM.settled
    (SPM.run (SPM.run SPM.init twoQueued)
       ([(lab, SPM.Flush 8); (lab, SPM.Read 50 9)] ++ drainSteps lab 0 [100; 101; 120; 149; 150]))
  = SPM.settled
      (SPM.run SPM.init twoQueued)
    ++ [(8%nat, Resolve (ResBool true)); (9%nat, Resolve (ResInts []))].
Proof.
  split; [reflexivity|].
  exact (proj1 (proj2 (flush_then_idle_read lab
           (SPM.run SPM.init twoQueued)
           8 9 50 100 [101; 120; 149; 150] eq_refl eq_refl))).
Defined.

(** X6.  A [read] with a timeout of zero or less, on a clock that does not
    run backwards, resolves with the empty array at its first loop turn and
    takes nothing from the queue, whatever the queue holds. *)
Theorem read_zero_timeout (m : SPM.t) (q : Promise) (timeout now0 now1 : Z) :
  SPM.isConnected m = true -> SPM.drains m = [] -> timeout <= 0 -> now0 <= now1 ->
  SPM.drainStep 0 now1 (SPM.drainStep 0 now0 (SPM.exec (SPM.read timeout q) m))
  = SPM.set_settled (SPM.settled m ++ [(q, Resolve (ResInts []))]) m.
Proof.
  intros Hc Hd Ht Hn. rewrite read_effect, Hc. unfold SPM.drainStep. simpl.
  rewrite Hd. simpl.
  assert (Hw : (now1 - now0 <? timeout) = false) by (apply Z.ltb_ge; lia).
  rewrite Hw. simpl. destruct m; simpl in *. by subst.
Qed.

(** X6 with two bytes waiting. *)
Lemma read_zero_timeout_witness :
  SPM.readBuffer
    (SPM.drainStep 0 5 (SPM.drainStep 0 5
       (SPM.exec (SPM.read 0 9)
          (SPM.run SPM.init twoQueued))))
  = [1; 2].
Proof.
  rewrite (read_zero_timeout
             (SPM.run SPM.init twoQueued)
             9 0 5 5 eq_refl eq_refl); [reflexivity | lia | lia].
Defined.

(** ** Teardown from outside *)

(** [disconnect(null)], by what the port answers to [close]. *)
Lemma disconnect_null_effect (P : Platform) (m : SPM.t) :
  SPM.exec (SPM.disconnect P None) m =
  match SPM.serialPort m with
  | Some port =>
    match port_close P port with
    | Some e => SPM.cancelReadJob m
    | None => torn m
    end
  | None => torn m
  end.
Proof. apply disconnect_exec. Qed.

(** What [disconnect(null)] leaves of the log, the reads and the session. *)
Lemma disconnect_null_fields (P : Platform) (m : SPM.t) :
  let m' := SPM.exec (SPM.disconnect P None) m in
  SPM.emitted m' = SPM.emitted m /\ SPM.settled m' = SPM.settled m /\
  SPM.drains m' = SPM.drains m /\
  ((forall port, SPM.serialPort m = Some port -> port_close P port = None) ->
   SPM.serialPort m' = None /\ SPM.isConnected m' = false /\ SPM.readBuffer m' = []).
Proof.
  intros m'. subst m'. rewrite disconnect_null_effect.
  destruct (cancelReadJob_fields m) as (_ & _ & _ & _ & Hs & He & Hd & _).
  assert (Ht : SPM.emitted (torn m) = SPM.emitted m /\ SPM.settled (torn m) = SPM.settled m /\
               SPM.drains (torn m) = SPM.drains m /\
               SPM.serialPort (torn m) = None /\ SPM.isConnected (torn m) = false /\
               SPM.readBuffer (torn m) = []).
  { unfold torn. simpl. by rewrite He, Hs, Hd. }
  destruct (SPM.serialPort m) as [port|]; [destruct (port_close P port) eqn:Hclose|].
  - split; [done|]. split; [done|]. split; [done|].
    intros Hcl. specialize (Hcl port eq_refl). congruence.
  - naive_solver.
  - naive_solver.
Qed.

(** ** The read loop *)

Lemma lookup_set_position (j : nat) (pos : SPM.Position) (m : SPM.t) (l : SPM.Loop) :
  SPM.loops m !! j = Some l ->
  SPM.loops (SPM.set_position j pos m) !! j = Some (SPM.mkLoop pos (SPM.job l)).
Proof. intros H. simpl. by rewrite list_lookup_alter_eq, H. Qed.

Lemma set_position_twice (j : nat) (pos pos' : SPM.Position) (m : SPM.t) :
  SPM.set_position j pos' (SPM.set_position j pos m) = SPM.set_position j pos' m.
Proof. unfold SPM.set_position, SPM.set_loops. simpl. by rewrite list_alter_alter_eq. Qed.

(** Cancelling the read job leaves every loop where it stands. *)
Lemma lookup_cancelReadJob (j : nat) (m : SPM.t) (l : SPM.Loop) :
  SPM.loops m !! j = Some l ->
  exists jb, SPM.loops (SPM.cancelReadJob m) !! j = Some (SPM.mkLoop (SPM.position l) jb).
Proof.
  intros H. unfold SPM.cancelReadJob.
  destruct (SPM.readJob m); simpl; [|exists (SPM.job l); by destruct l].
  rewrite list_lookup_alter.
  destruct (decide _) as [<-|]; [rewrite H; by eexists | exists (SPM.job l); by destruct l].
Qed.

Lemma alter_fixed {A} (f : A -> A) (i : nat) (l : list A) (x : A) :
  l !! i = Some x -> f x = x -> alter f i l = l.
Proof.
  revert i. induction l as [|y l IH]; intros [|i] Hi Hx; simpl in *; try done.
  - injection Hi as ->. by rewrite Hx.
  - f_equal. by apply IH.
Qed.

(** A loop in its [for] offers the bytes it read, whatever the session has
    become. *)
Lemma offering_run (P : Platform) (j : nat) (bs : list Z) (jb : SPM.Job) (m : SPM.t) :
  SPM.loops m !! j = Some (SPM.mkLoop (SPM.Offering bs) jb) ->
  SPM.run m (replicate (length bs) (P, SPM.LoopStep j))
  = SPM.set_position j (SPM.Offering [])
      (SPM.set_readBuffer (SPM.readBuffer m ++ bs) (SPM.set_offered (SPM.offered m ++ bs) m)).
Proof.
  revert m. induction bs as [|b bs IH]; intros m Hl.
  - simpl. rewrite !app_nil_r. unfold SPM.set_position. simpl.
    rewrite (alter_fixed _ _ _ _ Hl); [by destruct m | done].
  - cbn [length replicate]. rewrite run_cons. cbn [SPM.step]. unfold SPM.loopStep at 1.
    rewrite Hl. cbn [SPM.position SPM.job].
    rewrite IH.
    + unfold SPM.set_position, SPM.set_readBuffer, SPM.set_offered, SPM.set_loops,
        SPM.exec, SPM.offer, SPM.modify. simpl.
      by rewrite list_alter_alter_eq, <- !app_assoc.
    + by apply (lookup_set_position j (SPM.Offering bs) (SPM.exec (SPM.offer b) m)) in Hl.
Qed.

(** X7.  A detach broadcast, of whatever device, sends [onUsbDetached] and
    runs [disconnect] without a promise.  An [IOException] in [port.read]
    of a read loop ends that loop; when the flag is down, or the job of
    the loop was cancelled, nothing else happens: no event is sent and
    [disconnect] is not run.  With the flag up and the job not cancelled,
    the loop sends [onError] with "Connection lost: " and the message at
    its next step and runs [disconnect] without a promise at the step
    after.  Neither teardown settles a promise nor touches the reads in
    flight; when the port, if any, closes, the module is left without
    port, flag down, queue empty. *)
Theorem teardown_notifications (P : Platform) (m : SPM.t) (j : nat) (l : SPM.Loop)
    (port0 : UsbSerialPort) (message : string) :
  let closes := forall port, SPM.serialPort m = Some port -> port_close P port = None in
  (let m' := SPM.onDetached P m in
   SPM.emitted m' = SPM.emitted m ++ [("onUsbDetached", ∅)] /\
   SPM.settled m' = SPM.settled m /\ SPM.drains m' = SPM.drains m /\
   (closes ->
    SPM.serialPort m' = None /\ SPM.isConnected m' = false /\ SPM.readBuffer m' = [])) /\
  (SPM.loops m !! j = Some l -> SPM.position l = SPM.InRead port0 ->
   let caught := SPM.readLoopIOError j message m in
   let sent := SPM.loopStep P j caught in
   let m' := SPM.loopStep P j sent in
   (SPM.isConnected m = false \/ SPM.job l = SPM.Cancelled ->
    caught = SPM.set_position j SPM.Finished m /\ sent = caught /\ m' = caught) /\
   (SPM.isConnected m = true -> SPM.job l = SPM.Active ->
    caught = SPM.set_position j (SPM.Notifying message) m /\
    SPM.emitted sent
    = SPM.emitted m ++ [("onError", <["message" := PString ("Connection lost: " +:+ message)]> ∅)] /\
    m' = SPM.set_position j SPM.Finished (SPM.exec (SPM.disconnect P None) sent) /\
    SPM.emitted m' = SPM.emitted sent /\
    SPM.settled m' = SPM.settled m /\ SPM.drains m' = SPM.drains m /\
    (closes ->
     SPM.serialPort m' = None /\ SPM.isConnected m' = false /\ SPM.readBuffer m' = []))).
Proof.
  intros closes. subst closes. split.
  - unfold SPM.onDetached.
    change (SPM.exec (SPM.bind (SPM.sendEvent SPM.EVENT_USB_DETACHED ∅)
                        (fun _ => SPM.disconnect P None)) m)
      with (SPM.exec (SPM.disconnect P None)
              (SPM.exec (SPM.sendEvent SPM.EVENT_USB_DETACHED ∅) m)).
    destruct (disconnect_null_fields P (SPM.exec (SPM.sendEvent SPM.EVENT_USB_DETACHED ∅) m))
      as (He & Hs & Hd & Hc).
    by rewrite He, Hs, Hd.
  - intros Hl Hpos caught sent m'. subst caught sent m'.
    unfold SPM.readLoopIOError. rewrite Hl, Hpos. split.
    + intros Hend.
      assert (Hcaught : match SPM.isConnected m, SPM.job l with
                        | true, SPM.Active => SPM.set_position j (SPM.Notifying message) m
                        | _, _ => SPM.set_position j SPM.Finished m
                        end = SPM.set_position j SPM.Finished m).
      { destruct Hend as [-> | ->]; [done | by destruct (SPM.isConnected m)]. }
      rewrite Hcaught.
      assert (Hstay : SPM.loopStep P j (SPM.set_position j SPM.Finished m)
                      = SPM.set_position j SPM.Finished m).
      { unfold SPM.loopStep. by rewrite (lookup_set_position j _ _ _ Hl). }
      by rewrite !Hstay.
    + intros Hc Hj. rewrite Hc, Hj.
      assert (Hsent : SPM.loopStep P j (SPM.set_position j (SPM.Notifying message) m)
                      = SPM.set_position j SPM.Notified
                          (SPM.exec (SPM.sendEvent SPM.EVENT_ERROR
                             (<["message" := PString ("Connection lost: " +:+ message)]> ∅))
                             (SPM.set_position j (SPM.Notifying message) m))).
      { unfold SPM.loopStep. rewrite (lookup_set_position j _ _ _ Hl). simpl. by rewrite Hj. }
      rewrite Hsent.
      set (sent := SPM.set_position j SPM.Notified _).
      assert (Hls : SPM.loops sent !! j = Some (SPM.mkLoop SPM.Notified SPM.Active)).
      { subst sent.
        apply (lookup_set_position j SPM.Notified _
                 (SPM.mkLoop (SPM.Notifying message) SPM.Active)).
        simpl. by rewrite list_lookup_alter_eq, Hl, <- Hj. }
      assert (Hm' : SPM.loopStep P j sent
                    = SPM.set_position j SPM.Finished (SPM.exec (SPM.disconnect P None) sent)).
      { unfold SPM.loopStep. by rewrite Hls. }
      rewrite Hm'.
      destruct (disconnect_null_fields P sent) as (He & Hs & Hd & Hcl).
      split; [done|]. split; [done|]. split; [done|].
      cbn [SPM.emitted SPM.settled SPM.drains SPM.serialPort SPM.isConnected SPM.readBuffer
             SPM.set_position SPM.set_loops].
      split; [exact He|]. split; [exact Hs|]. split; [exact Hd|].
      intros Hclose. apply Hcl. exact Hclose.
Qed.

(** X7 on two sessions: one in which the port failed while the loop was
    reading, and one on which a [disconnect] that could not close the port
    had cancelled the job before. *)
Lemma teardown_notifications_witness :
  SPM.emitted (SPM.loopStep lab 0 (SPM.readLoopIOError 0 "EIO" (reading lab)))
  = SPM.emitted (reading lab)
    ++ [("onError", <["message" := PString ("Connection lost: " +:+ "EIO")]> ∅)] /\
  SPM.isConnected
    (SPM.loopStep lab 0 (SPM.loopStep lab 0 (SPM.readLoopIOError 0 "EIO" (reading lab))))
  = false /\
  SPM.readLoopIOError 0 "EIO" (SPM.step stuck (reading stuck) (SPM.Disconnect 1))
  = SPM.set_position 0 SPM.Finished (SPM.step stuck (reading stuck) (SPM.Disconnect 1)) /\
  SPM.isConnected (SPM.step stuck (reading stuck) (SPM.Disconnect 1)) = true.
Proof.
  destruct (teardown_notifications lab (reading lab)
              0 (SPM.mkLoop (SPM.InRead (mkUsbSerialPort "/dev/bus/usb/001/002" 0)) SPM.Active)
              (mkUsbSerialPort "/dev/bus/usb/001/002" 0) "EIO")
    as (_ & Hloop).
  destruct Hloop as (_ & Hactive); [by vm_compute | reflexivity |].
  destruct Hactive as (_ & Hsent & _ & _ & _ & _ & Hdown); [by vm_compute | reflexivity |].
  destruct (teardown_notifications stuck (SPM.step stuck (reading stuck) (SPM.Disconnect 1))
              0 (SPM.mkLoop (SPM.InRead (mkUsbSerialPort "/dev/bus/usb/001/002" 0)) SPM.Cancelled)
              (mkUsbSerialPort "/dev/bus/usb/001/002" 0) "EIO")
    as (_ & Hstuck).
  destruct Hstuck as (Hcancelled & _); [by vm_compute | reflexivity |].
  split; [exact Hsent|]. split; [|split; [|by vm_compute]].
  - apply Hdown. intros port _. reflexivity.
  - exact (proj1 (Hcancelled (or_intror eq_refl))).
Defined.

(** X18.  Bytes read before a teardown are queued after it.  When a loop
    is inside [port.read] while [disconnect] runs and closes the port, and
    the call then returns bytes, the loop offers them all although the
    flag is down and the port gone: the queue, just cleared, holds exactly
    these bytes, which the [read] of a later session will deliver.  The
    loop ends at its next test. *)
Theorem late_bytes (P : Platform) (m : SPM.t) (j : nat) (l : SPM.Loop)
    (port0 : UsbSerialPort) (bs : list Z) (p : Promise) :
  SPM.loops m !! j = Some l -> SPM.position l = SPM.InRead port0 ->
  (forall port, SPM.serialPort m = Some port -> port_close P port = None) ->
  let m' := SPM.run m ((P, SPM.Disconnect p) :: (P, SPM.ReadLoopData j bs)
                         :: replicate (length bs) (P, SPM.LoopStep j)) in
  SPM.isConnected m' = false /\ SPM.serialPort m' = None /\
  SPM.readBuffer m' = bs /\ SPM.offered m' = SPM.offered m ++ bs /\
  SPM.position <$> (SPM.loops (SPM.run m' [(P, SPM.LoopStep j); (P, SPM.LoopStep j)]) !! j)
  = Some SPM.Finished.
Proof.
  intros Hl Hpos Hclose m'. subst m'.
  rewrite !run_cons. cbn [SPM.step].
  assert (Hd : SPM.exec (SPM.disconnect P (Some p)) m
               = SPM.set_settled (SPM.settled m ++ [(p, Resolve (ResBool true))]) (torn m)).
  { rewrite disconnect_effect.
    destruct (SPM.serialPort m) as [port|]; [|done].
    by rewrite (Hclose port eq_refl). }
  rewrite Hd. set (m1 := SPM.set_settled _ (torn m)).
  destruct (lookup_cancelReadJob j m l Hl) as (jb & Hjb).
  assert (Hl1 : SPM.loops m1 !! j = Some (SPM.mkLoop (SPM.InRead port0) jb)).
  { subst m1. unfold torn. simpl. by rewrite Hjb, Hpos. }
  unfold SPM.readLoopData. rewrite Hl1. cbn [SPM.position].
  rewrite (offering_run P j bs jb).
  2: { exact (lookup_set_position j (SPM.Offering bs) m1 _ Hl1). }
  set (m2 := SPM.set_position j (SPM.Offering []) _).
  assert (Hl2 : SPM.loops m2 !! j = Some (SPM.mkLoop (SPM.Offering []) jb)).
  { subst m2.
    apply (lookup_set_position j (SPM.Offering []) _ (SPM.mkLoop (SPM.Offering bs) jb)).
    exact (lookup_set_position j (SPM.Offering bs) m1 _ Hl1). }
  assert (Hfields : SPM.isConnected m2 = false /\ SPM.serialPort m2 = None /\
                    SPM.readBuffer m2 = bs /\ SPM.offered m2 = SPM.offered m ++ bs).
  { subst m2 m1. unfold torn, SPM.cancelReadJob. by destruct (SPM.readJob m). }
  destruct Hfields as (Hc & Hp & Hb & Ho).
  split; [done|]. split; [done|]. split; [done|]. split; [done|].
  cbn [SPM.run foldl].
  assert (H1 : SPM.loopStep P j m2 = SPM.set_position j SPM.AtHead m2).
  { unfold SPM.loopStep. by rewrite Hl2. }
  rewrite H1.
  pose proof (lookup_set_position j SPM.AtHead m2 _ Hl2) as Hl3.
  unfold SPM.loopStep. rewrite Hl3. cbn [SPM.position].
  assert (Hc3 : SPM.isConnected (SPM.set_position j SPM.AtHead m2) = false) by exact Hc.
  rewrite Hc3.
  by rewrite (lookup_set_position j SPM.Finished _ _ Hl3).
Qed.

(** X18 on a session that is closed while its loop is reading: the two
    bytes land in the empty queue of the closed module and are delivered
    to the first [read] of the next session. *)
Lemma late_bytes_witness :
  SPM.readBuffer
    (SPM.run
       (SPM.run SPM.init [(lab, SPM.Connect None 115200 0); (lab, SPM.LoopStep 0)])
       ((lab, SPM.Disconnect 1) :: (lab, SPM.ReadLoopData 0 [1; 2])
          :: replicate 2 (lab, SPM.LoopStep 0)))
  = [1; 2] /\
  SPM.outcome 3
    (SPM.run SPM.init
       [(lab, SPM.Connect None 115200 0); (lab, SPM.LoopStep 0); (lab, SPM.Disconnect 1);
        (lab, SPM.ReadLoopData 0 [1; 2]); (lab, SPM.LoopStep 0); (lab, SPM.LoopStep 0);
        (lab, SPM.Connect None 115200 2); (lab, SPM.Read 100 3);
        (lab, SPM.DrainStep 0 1000); (lab, SPM.DrainStep 0 1001);
        (lab, SPM.DrainStep 0 1002); (lab, SPM.DrainStep 0 1100)])
  = Some (Resolve (ResInts [1; 2])).
Proof.
  destruct (late_bytes lab
              (SPM.run SPM.init [(lab, SPM.Connect None 115200 0); (lab, SPM.LoopStep 0)])
              0 (SPM.mkLoop (SPM.InRead (mkUsbSerialPort "/dev/bus/usb/001/002" 0)) SPM.Active)
              (mkUsbSerialPort "/dev/bus/usb/001/002" 0) [1; 2] 1%nat eq_refl eq_refl)
    as (_ & _ & Hb & _).
  - intros port _. reflexivity.
  - split; [exact Hb | reflexivity].
Defined.

(** ** Permission granted *)

(** X8.  A [connect] that has to ask for permission, followed by the grant
    and the coroutine it launches: the promise of that [connect] is settled
    once, and the slot is emptied.  The device opened is the one named in
    the broadcast and the baud rate is 115200, whatever device [connect]
    selected and whatever baud rate it was given: a resolution reports that
    device at 115200. *)
Theorem granted_connect_default_baud (P : Platform) (m : SPM.t) (name : option string)
    (baud : Z) (p : Promise) (d d' : UsbDevice) :
  SPM.isConnected m = false -> SPM.targetDevice P name = Some d ->
  hasPermission P d = false -> SPM.launched m = [] ->
  let m' := SPM.run m [(P, SPM.Connect name baud p);
                       (P, SPM.PermissionResult (Some d') true);
                       (P, SPM.RunLaunched)] in
  SPM.permissionPromise m' = None /\
  exists s,
    SPM.settled m' = SPM.settled m ++ [(p, s)] /\
    forall v, s = Resolve v -> v = ResMap (SPM.connectedMap d' 115200).
Proof.
  intros Hc Ht Hp Hl m'. subst m'.
  change (SPM.run m [(P, SPM.Connect name baud p);
                     (P, SPM.PermissionResult (Some d') true); (P, SPM.RunLaunched)])
    with (SPM.runLaunched P
            (SPM.onPermission (Some d') true (SPM.exec (SPM.connect P name baud p) m))).
  rewrite connect_disconnected by done. rewrite Ht, Hp.
  rewrite (runLaunched_effect P _ d' []); [|simpl; by rewrite Hl].
  split; [done|].
  destruct (openDeviceInternal_settles P d' (Some p) 115200
              (SPM.set_launched []
                 (SPM.onPermission (Some d') true
                    (SPM.exec (SPM.requestPermission d p baud) m))))
    as (s & Hs & _ & Hv).
  exists s. split; [exact Hs|].
  intros v ->. apply Hv.
Qed.

(** X8 at 9600 baud on the locked bench. *)
Lemma granted_connect_default_baud_witness :
  SPM.outcome 0
    (SPM.run SPM.init [(labLocked, SPM.Connect None 9600 0);
                       (labLocked, SPM.PermissionResult (Some ch340) true);
                       (labLocked, SPM.RunLaunched)])
  = Some (Resolve (ResMap (SPM.connectedMap ch340 115200))) /\
  SPM.permissionPromise
    (SPM.run SPM.init [(labLocked, SPM.Connect None 9600 0);
                       (labLocked, SPM.PermissionResult (Some ch340) true);
                       (labLocked, SPM.RunLaunched)]) = None.
Proof.
  split; [reflexivity|].
  exact (proj1 (granted_connect_default_baud labLocked SPM.init None 9600 0%nat cp2102 ch340
                  eq_refl eq_refl eq_refl eq_refl)).
Defined.

(** ** One settlement per call *)

Lemma write_settles (P : Platform) (data : list Z) (p : Promise) (m : SPM.t) :
  exists s, SPM.settled (SPM.exec (SPM.write P data p) m) = SPM.settled m ++ [(p, s)].
Proof.
  destruct (SPM.noSession m) eqn:Hn.
  - rewrite write_no_session by done. by eexists.
  - destruct (write_session P m data p Hn) as (port & _ & ->). by eexists.
Qed.

(** X9.  [listDevices], [write], [setRTS], [setDTR], [setBaudRate], [flush]
    and [disconnect] return with the promise they were given settled
    exactly once and no other promise touched.  [connect] and [read] settle
    their own promise once or not yet (a pending permission, a launched
    drain) and no other; a step of a drain settles at most the promise of
    that drain. *)
Theorem one_settlement_per_call (P : Platform) (m : SPM.t) (e : SPM.Event) :
  (forall p, promiseOf e = Some p ->
     exists s, SPM.settled (SPM.step P m e) = SPM.settled m ++ [(p, s)]) /\
  (forall name baud p, e = SPM.Connect name baud p ->
     SPM.settled (SPM.step P m e) = SPM.settled m \/
     exists s, SPM.settled (SPM.step P m e) = SPM.settled m ++ [(p, s)]) /\
  (forall timeout p, e = SPM.Read timeout p ->
     SPM.settled (SPM.step P m e) = SPM.settled m \/
     SPM.settled (SPM.step P m e)
     = SPM.settled m ++ [(p, Reject "NOT_CONNECTED" "Device not connected")]) /\
  (forall i now, e = SPM.DrainStep i now ->
     SPM.settled (SPM.step P m e) = SPM.settled m \/
     exists d, SPM.drains m !! i = Some d /\
       SPM.settled (SPM.step P m e)
       = SPM.settled m ++ [(SPM.drainPromise d, Resolve (ResInts (SPM.result d)))]).
Proof.
  split; [|split; [|split]].
  - intros p Hp. destruct e; simpl in Hp; try discriminate; injection Hp as ->; simpl.
    + rewrite listDevices_effect. by eexists.
    + apply write_settles.
    + unfold SPM.setRTS. rewrite control_effect. by eexists.
    + unfold SPM.setDTR. rewrite control_effect. by eexists.
    + unfold SPM.setBaudRate. rewrite control_effect. by eexists.
    + by eexists.
    + rewrite disconnect_effect.
      destruct (SPM.serialPort m) as [port|]; [destruct (port_close P port)|]; by eexists.
  - intros name baud p ->. simpl.
    destruct (SPM.isConnected m) eqn:Hc.
    + rewrite connect_connected by done. right. by eexists.
    + rewrite connect_disconnected by done.
      destruct (SPM.targetDevice P name) as [d|]; [|right; by eexists].
      destruct (hasPermission P d); [|by left].
      destruct (openDeviceInternal_settles P d (Some p) baud m) as (s & Hs & _).
      right. by exists s.
  - intros timeout p ->. simpl. rewrite read_effect.
    destruct (SPM.isConnected m); [by left | by right].
  - intros i now ->. simpl. unfold SPM.drainStep.
    destruct (SPM.drains m !! i) as [d|]; [|by left].
    destruct (SPM.startTime d); [|by left].
    destruct (_ <? _).
    + left. by destruct (SPM.readBuffer m).
    + right. by exists d.
Qed.

(** X9 at a [write] on a fresh module. *)
Lemma one_settlement_per_call_witness :
  exists s, SPM.settled (SPM.step lab SPM.init (SPM.Write [1; 2] 4)) = [(4%nat, s)].
Proof.
  destruct (one_settlement_per_call lab SPM.init (SPM.Write [1; 2] 4)) as (H & _).
  exact (H 4%nat eq_refl).
Defined.

(** ** Listing devices *)

(** X10.  [listDevices] settles its promise once and leaves port, flag,
    queue, read job and read loops alone.  It asks permission for every
    device it gets to, with its own promise, before it builds the map of
    the device.  When every serial number can be read it resolves one map
    per attached device, in the order of the list.  When reading the serial
    number of a device throws, it rejects with [LIST_ERROR] and the message
    of the exception, having asked permission for the devices up to and
    including that one.  With no device attached it does nothing else.
    With devices attached its promise has taken over the pending
    permission slot: a denial arriving next rejects the promise of
    [listDevices], already settled, and a promise that was pending in the
    slot is not settled. *)
Theorem listDevices_takes_slot (P : Platform) (m : SPM.t) (p : Promise) :
  let m' := SPM.exec (SPM.listDevices P p) m in
  steady m m' /\
  SPM.settled m' = SPM.settled m ++ [(p, listing P)] /\
  (Forall (fun d => device_getSerialNumber P d = None) (deviceList P) ->
   listing P = Resolve (ResArray (SPM.deviceInfo <$> deviceList P)) /\
   length (SPM.deviceInfo <$> deviceList P) = length (deviceList P) /\
   SPM.requested m' = SPM.requested m ++ ((fun d => (d, p)) <$> deviceList P)) /\
  (forall before d after e,
     deviceList P = before ++ d :: after ->
     Forall (fun x => device_getSerialNumber P x = None) before ->
     device_getSerialNumber P d = Some e ->
     listing P = Reject "LIST_ERROR" ("Failed to list devices: " +:+ getMessage e) /\
     SPM.requested m' = SPM.requested m ++ ((fun x => (x, p)) <$> (before ++ [d]))) /\
  (deviceList P = [] ->
   SPM.permissionPromise m' = SPM.permissionPromise m /\ SPM.requested m' = SPM.requested m) /\
  (deviceList P <> [] ->
   SPM.permissionPromise m' = Some p /\
   forall d,
     SPM.settled (SPM.onPermission d false m')
     = SPM.settled m ++ [(p, listing P);
                         (p, Reject "PERMISSION_DENIED" "USB permission denied")]).
Proof.
  intros m'. subst m'.
  split; [apply steady_listDevices|]. split; [apply listDevices_effect|].
  rewrite listDevices_exec. unfold listing.
  split; [|split; [|split]].
  - intros Hall. rewrite (listed_all P _ Hall). simpl.
    split; [done|]. split; [by rewrite length_fmap|].
    destruct (deviceList P); simpl; [by rewrite app_nil_r | done].
  - intros before d after e Hlist Hbefore Hd.
    rewrite Hlist, (listed_first P before after d e Hbefore Hd). simpl.
    split; [done|]. by destruct before.
  - intros ->. by split.
  - intros Hne. destruct (deviceList P) as [|d0 ds]; [done|]. simpl.
    split; [done|]. intros d. unfold SPM.onPermission. simpl. by rewrite <- app_assoc.
Qed.

(** X10 while a [connect] is waiting for permission, on a platform where
    the serial numbers can be read and on one where they cannot. *)
Lemma listDevices_takes_slot_witness :
  SPM.permissionPromise
    (SPM.exec (SPM.listDevices labLocked 1)
       (SPM.run SPM.init [(labLocked, SPM.Connect None 115200 0)])) = Some 1%nat /\
  SPM.outcome 0
    (SPM.onPermission None false
       (SPM.exec (SPM.listDevices labLocked 1)
          (SPM.run SPM.init [(labLocked, SPM.Connect None 115200 0)]))) = None /\
  listing (guarded [cp2102; ch340])
  = Reject "LIST_ERROR"
      ("Failed to list devices: "
         +:+ "User has not given permission to access device serial number") /\
  SPM.requested
    (SPM.exec (SPM.listDevices (guarded [cp2102; ch340]) 1)
       (SPM.run SPM.init [(labLocked, SPM.Connect None 115200 0)]))
  = SPM.requested (SPM.run SPM.init [(labLocked, SPM.Connect None 115200 0)])
    ++ [(cp2102, 1%nat)].
Proof.
  destruct (listDevices_takes_slot labLocked
              (SPM.run SPM.init [(labLocked, SPM.Connect None 115200 0)]) 1)
    as (_ & _ & _ & _ & _ & H).
  destruct (H ltac:(discriminate)) as (Hslot & Hdenied).
  destruct (listDevices_takes_slot (guarded [cp2102; ch340])
              (SPM.run SPM.init [(labLocked, SPM.Connect None 115200 0)]) 1)
    as (_ & _ & _ & Hthrows & _).
  destruct (Hthrows [] cp2102 [ch340]
              (Exception "User has not given permission to access device serial number")
              eq_refl (List.Forall_nil _) eq_refl) as (Hreject & Hrequested).
  split; [exact Hslot|]. split; [|split; [exact Hreject | exact Hrequested]].
  unfold SPM.outcome. rewrite (Hdenied None). reflexivity.
Defined.

(** ** The transport object on top of the native module *)

Lemma find_snoc_fresh (p : Promise) (log : list (Promise * Settlement)) (s : Settlement) :
  List.find (fun ps => Nat.eqb (fst ps) p) log = None ->
  List.find (fun ps => Nat.eqb (fst ps) p) (log ++ [(p, s)]) = Some (p, s).
Proof.
  induction log as [|[q t] log IH]; simpl.
  - intros _. by rewrite Nat.eqb_refl.
  - destruct (Nat.eqb q p); [discriminate | exact IH].
Qed.

(** A promise not settled before is observed with the settlement added. *)
Lemma outcome_added (p : Promise) (m m' : SPM.t) (s : Settlement) :
  SPM.outcome p m = None -> SPM.settled m' = SPM.settled m ++ [(p, s)] ->
  SPM.outcome p m' = Some s.
Proof.
  unfold SPM.outcome. intros Hm ->.
  destruct (List.find (fun ps => Nat.eqb (fst ps) p) (SPM.settled m)) eqn:Hf; [discriminate|].
  by rewrite find_snoc_fresh.
Qed.

Lemma outcome_same (p : Promise) (m m' : SPM.t) :
  SPM.settled m' = SPM.settled m -> SPM.outcome p m' = SPM.outcome p m.
Proof. unfold SPM.outcome. by intros ->. Qed.

(** X11.  [SerialTransport.setBaudRate] run against the native module with
    a fresh promise: without a native session it throws the [NOT_CONNECTED]
    rejection and the cached rate stays; with a session it caches the new
    rate and returns [true] when the port accepts the parameters, and
    throws [BAUDRATE_ERROR] with the cached rate unchanged when the port
    throws.  The port is given the rate as an [Int], the cache keeps the
    number of the script.  The cached flag and device name are never
    touched, and the cached flag is not consulted. *)
Theorem setBaudRate_cache (P : Platform) (m : SPM.t) (this : ST.t) (baud : Z) (p : Promise) :
  SPM.outcome p m = None ->
  snd (runAsync P (ST.setBaudRate baud this) p m)
  = Some
      match SPM.isConnected m, SPM.serialPort m with
      | true, Some port =>
        match port_setParameters P port (intValue baud) with
        | None => (ST.mk (ST.connected this) (ST.deviceName this) (Some baud), Returned true)
        | Some e => (this, Thrown (BridgeRejection "BAUDRATE_ERROR" (getMessage e)))
        end
      | _, _ => (this, Thrown (BridgeRejection "NOT_CONNECTED" "Device not connected"))
      end.
Proof.
  intros Hfresh. unfold ST.setBaudRate. cbn [runAsync native].
  unfold SPM.setBaudRate. rewrite control_effect.
  erewrite outcome_added; [|exact Hfresh|reflexivity].
  destruct (SPM.isConnected m); [|done].
  destruct (SPM.serialPort m) as [port|]; [|done].
  by destruct (port_setParameters P port (intValue baud)).
Qed.

(** X11 after a [connect] on the laboratory bench. *)
Lemma setBaudRate_cache_witness :
  snd (runAsync lab (ST.setBaudRate 921600 (ST.mk true (Some "/dev/bus/usb/001/002") (Some 115200)))
         1 (SPM.run SPM.init [(lab, SPM.Connect None 115200 0)]))
  = Some (ST.mk true (Some "/dev/bus/usb/001/002") (Some 921600), Returned true).
Proof.
  exact (setBaudRate_cache lab (SPM.run SPM.init [(lab, SPM.Connect None 115200 0)])
           (ST.mk true (Some "/dev/bus/usb/001/002") (Some 115200)) 921600 1%nat eq_refl).
Defined.

(** X12.  [SerialTransport.disconnect] run against the native module with a
    fresh promise: when the native module holds no port, or its port
    closes, the call returns [true], the cache is cleared (flag down, no
    name, no rate) and the native module is left without port, flag down,
    queue empty; when the port throws on [close], the call throws
    [DISCONNECT_ERROR] and the cache stays as it was. *)
Theorem disconnect_clears_cache (P : Platform) (m : SPM.t) (this : ST.t) (p : Promise) :
  SPM.outcome p m = None ->
  let r := runAsync P (ST.disconnect this) p m in
  match SPM.serialPort m with
  | Some port =>
    match port_close P port with
    | Some e =>
      snd r = Some (this, Thrown (BridgeRejection "DISCONNECT_ERROR" (getMessage e))) /\
      SPM.isConnected (fst r) = SPM.isConnected m /\ SPM.serialPort (fst r) = Some port
    | None =>
      snd r = Some (ST.new, Returned true) /\
      SPM.isConnected (fst r) = false /\ SPM.serialPort (fst r) = None /\
      SPM.readBuffer (fst r) = []
    end
  | None =>
    snd r = Some (ST.new, Returned true) /\
    SPM.isConnected (fst r) = false /\ SPM.serialPort (fst r) = None /\
    SPM.readBuffer (fst r) = []
  end.
Proof.
  intros Hfresh r. subst r. unfold ST.disconnect. cbn [runAsync native].
  rewrite disconnect_effect.
  destruct (cancelReadJob_fields m) as (Hp & Hc & _).
  destruct (torn_fields m) as (Tp & Tc & Tb & _).
  destruct (SPM.serialPort m) as [port|] eqn:Hport;
    [destruct (port_close P port) as [e|]|];
    (erewrite outcome_added; [|exact Hfresh|reflexivity]);
    cbn [runAsync fst snd SPM.isConnected SPM.serialPort SPM.readBuffer SPM.set_settled];
    by repeat split.
Qed.

(** X12 after the sample session [twoReads]. *)
Lemma disconnect_clears_cache_witness :
  snd (runAsync lab (ST.disconnect (ST.mk true (Some "/dev/bus/usb/001/002") (Some 115200)))
         7 (SPM.run SPM.init twoReads))
  = Some (ST.new, Returned true).
Proof.
  pose proof (disconnect_clears_cache lab (SPM.run SPM.init twoReads)
                (ST.mk true (Some "/dev/bus/usb/001/002") (Some 115200)) 7%nat) as H.
  assert (Hp : SPM.serialPort (SPM.run SPM.init twoReads)
               = Some (mkUsbSerialPort "/dev/bus/usb/001/002" 0)) by (by vm_compute).
  rewrite Hp in H. exact (proj1 (H ltac:(by vm_compute))).
Defined.

(** X13.  The cached flag is not refreshed by the native module.  When the
    native session is gone (a detach, an error in the read loop) while the
    cached flag is still set, [write], [read] and [rawRead] pass their local
    test, call the native module and throw its [NOT_CONNECTED] rejection;
    the flag stays set, nothing is yielded. *)
Theorem stale_flag (P : Platform) (m : SPM.t) (this : ST.t) (data : list Z)
    (timeout : option Z) (p : Promise) :
  ST.connected this = true -> SPM.isConnected m = false -> SPM.outcome p m = None ->
  snd (runAsync P (ST.write data this) p m)
  = Some (this, Thrown (BridgeRejection "NOT_CONNECTED" "Device not connected")) /\
  snd (runAsync P (ST.read timeout this) p m)
  = Some (this, ST.mkGenerated []
                  (Thrown (BridgeRejection "NOT_CONNECTED" "Device not connected"))) /\
  snd (runAsync P (ST.rawRead timeout this) p m)
  = Some (this, Thrown (BridgeRejection "NOT_CONNECTED" "Device not connected")) /\
  ST.isConnected this = true.
Proof.
  intros Hthis Hm Hfresh. unfold ST.write, ST.read, ST.rawRead, ST.isConnected.
  rewrite Hthis. cbn [negb runAsync native].
  rewrite write_no_session by (unfold SPM.noSession; by rewrite Hm).
  rewrite read_effect, Hm.
  erewrite !outcome_added; try exact Hfresh; try reflexivity.
  by repeat split.
Qed.

(** X13 after a detach on the laboratory bench. *)
Lemma stale_flag_witness :
  snd (runAsync lab (ST.write [1; 2] (ST.mk true (Some "/dev/bus/usb/001/002") (Some 115200)))
         1 (SPM.run SPM.init [(lab, SPM.Connect None 115200 0); (lab, SPM.UsbDetached)]))
  = Some (ST.mk true (Some "/dev/bus/usb/001/002") (Some 115200),
          Thrown (BridgeRejection "NOT_CONNECTED" "Device not connected")).
Proof.
  exact (proj1 (stale_flag lab
                  (SPM.run SPM.init [(lab, SPM.Connect None 115200 0); (lab, SPM.UsbDetached)])
                  (ST.mk true (Some "/dev/bus/usb/001/002") (Some 115200)) [1; 2] None 1%nat
                  eq_refl eq_refl eq_refl)).
Defined.

(** X14.  [SerialTransport.connect] run against a native module without
    session, with a fresh promise and a device selected.  Without
    permission for the device the call is left suspended with its promise
    in the permission slot.  With permission it returns at once: either the
    port opened, the native flag is raised, the object caches the flag, the
    name of the device and the baud rate the native method received, which
    is the number given (115200 by default) cut to the range of an [Int],
    and the string "Connected to <name> at <rate> band" is returned with
    that rate in decimal notation; or the open failed, the rejection is
    thrown, the object is unchanged and the native flag is still down. *)
Theorem connect_end_to_end (P : Platform) (m : SPM.t) (this : ST.t) (name : option string)
    (baud : option Z) (p : Promise) (d : UsbDevice) :
  SPM.outcome p m = None -> SPM.isConnected m = false -> SPM.targetDevice P name = Some d ->
  let rate := intValue (default 115200 baud) in
  let r := runAsync P (ST.connect name baud this) p m in
  (hasPermission P d = false ->
   snd r = None /\ SPM.permissionPromise (fst r) = Some p) /\
  (hasPermission P d = true ->
   (snd r = Some (ST.mk true (Some (deviceName d)) (Some rate),
                  Returned ("Connected to " +:+ deviceName d +:+ " at "
                              +:+ pretty rate +:+ " band")) /\
    SPM.isConnected (fst r) = true) \/
   (exists code message,
      snd r = Some (this, Thrown (BridgeRejection code message)) /\
      SPM.isConnected (fst r) = false)).
Proof.
  intros Hfresh Hc Ht rate r. subst r. unfold ST.connect. cbn [runAsync native].
  fold rate. rewrite connect_disconnected by done. rewrite Ht.
  split; intros Hp; rewrite Hp.
  - rewrite (outcome_same p m (SPM.exec (SPM.requestPermission d p rate) m)) by done.
    by rewrite Hfresh.
  - destruct (openDeviceInternal_settles P d (Some p) rate m) as (s & Hs & _ & Hv).
    rewrite (outcome_added p m _ s Hfresh Hs).
    destruct s as [v|code message].
    + left. destruct Hv as [-> Hn]. cbn [runAsync]. rewrite connectedMap_connected.
      cbn [fst snd result_connected result_deviceName result_baudRate ST.connected
           ST.deviceName ST.baudRate showString showNumber default].
      rewrite numberToString_safe.
      * split; [reflexivity|]. unfold SPM.noSession in Hn.
        apply orb_false_iff in Hn as [Hn _]. by apply negb_false_iff in Hn.
      * pose proof (intValue_range (default 115200 baud)). subst rate.
        change (2 ^ 53) with 9007199254740992. lia.
    + right. exists code, message. cbn [runAsync fst snd]. split; [reflexivity|].
      by rewrite Hv.
Qed.

(** X14 on the laboratory bench, with and without permission, and with a
    baud rate beyond the range of an [Int]. *)
Lemma connect_end_to_end_witness :
  snd (runAsync labLocked (ST.connect None (Some 9600) ST.new) 0 SPM.init) = None /\
  (snd (runAsync lab (ST.connect None (Some 3000000000) ST.new) 0 SPM.init)
   = Some (ST.mk true (Some "/dev/bus/usb/001/002") (Some 2147483647),
           Returned "Connected to /dev/bus/usb/001/002 at 2147483647 band") \/
   exists code message,
     snd (runAsync lab (ST.connect None (Some 3000000000) ST.new) 0 SPM.init)
     = Some (ST.new, Thrown (BridgeRejection code message))).
Proof.
  destruct (connect_end_to_end labLocked SPM.init ST.new None (Some 9600) 0%nat cp2102
              eq_refl eq_refl eq_refl) as (Hpending & _).
  destruct (connect_end_to_end lab SPM.init ST.new None (Some 3000000000) 0%nat cp2102
              eq_refl eq_refl eq_refl) as (_ & Hopen).
  split; [exact (proj1 (Hpending eq_refl))|].
  destruct (Hopen eq_refl) as [[H _] | (code & message & H & _)].
  - left. exact H.
  - right. exists code, message. exact H.
Defined.

(** X15.  [flush], [setRTS] and [setDTR] of the transport object do not
    test the cached flag: each issues its native call whatever the flag.
    Run against the native module with a fresh promise, [flush] returns
    [true] and empties the native queue with or without a session, while
    [setRTS] and [setDTR] throw the [NOT_CONNECTED] rejection of the native
    module when it has no session.  None of them changes the object. *)
Theorem controls_pass_through (P : Platform) (m : SPM.t) (this : ST.t) (state : bool)
    (p : Promise) :
  SPM.outcome p m = None ->
  (forall answer,
     calls answer (ST.flush this) = [NFlush] /\
     calls answer (ST.setRTS state this) = [NSetRTS state] /\
     calls answer (ST.setDTR state this) = [NSetDTR state]) /\
  snd (runAsync P (ST.flush this) p m) = Some (this, Returned (ResBool true)) /\
  SPM.readBuffer (fst (runAsync P (ST.flush this) p m)) = [] /\
  (SPM.noSession m = true ->
   snd (runAsync P (ST.setRTS state this) p m)
   = Some (this, Thrown (BridgeRejection "NOT_CONNECTED" "Device not connected")) /\
   snd (runAsync P (ST.setDTR state this) p m)
   = Some (this, Thrown (BridgeRejection "NOT_CONNECTED" "Device not connected"))).
Proof.
  intros Hfresh. split; [|split; [|split]].
  - intros answer. unfold ST.flush, ST.setRTS, ST.setDTR, ST.passThrough. simpl.
    repeat split; by destruct (answer _).
  - unfold ST.flush, ST.passThrough. cbn [runAsync native].
    by erewrite outcome_added; [|exact Hfresh|reflexivity].
  - unfold ST.flush, ST.passThrough. cbn [runAsync native].
    by erewrite outcome_added; [|exact Hfresh|reflexivity].
  - intros Hn. unfold ST.setRTS, ST.setDTR, ST.passThrough. cbn [runAsync native].
    unfold SPM.setRTS, SPM.setDTR. rewrite !control_effect.
    erewrite !outcome_added; try exact Hfresh; try reflexivity.
    unfold SPM.noSession in Hn.
    destruct (SPM.isConnected m); [|done].
    by destruct (SPM.serialPort m).
Qed.

(** X15 on a fresh object and a fresh module. *)
Lemma controls_pass_through_witness :
  snd (runAsync lab (ST.flush ST.new) 0 SPM.init) = Some (ST.new, Returned (ResBool true)) /\
  snd (runAsync lab (ST.setRTS true ST.new) 0 SPM.init)
  = Some (ST.new, Thrown (BridgeRejection "NOT_CONNECTED" "Device not connected")).
Proof.
  destruct (controls_pass_through lab SPM.init ST.new true 0%nat eq_refl)
    as (_ & Hflush & _ & Hrts).
  split; [exact Hflush | exact (proj1 (Hrts eq_refl))].
Defined.

(** ** The config plugin *)

Lemma find_push {A} (pred : A -> JsResult bool) (entry : A) (l : list A) :
  WSP.find pred l = Returned None -> pred entry = Returned true ->
  WSP.find pred (l ++ [entry]) = Returned (Some entry).
Proof.
  intros Hl He. induction l as [|x l IH]; simpl in *.
  - by rewrite He.
  - destruct (pred x) as [[]|]; try discriminate. by apply IH.
Qed.

(** What one block of the plugin leaves: the entry is there, and running
    the block again changes nothing. *)
Lemma ensure_spec {A} (pred : A -> JsResult bool) (entry : A) (array : option (list A))
    (l' : list A) :
  pred entry = Returned true -> WSP.ensure pred entry array = Returned l' ->
  ensured pred entry (default [] array) l' /\ WSP.ensure pred entry (Some l') = Returned l'.
Proof.
  intros He. unfold WSP.ensure, ensured. simpl.
  destruct (WSP.find pred (default [] array)) as [[x|]|] eqn:Hf; try discriminate.
  - intros [= <-]. rewrite Hf. split; [|done]. split; [by left | by exists x].
  - intros [= <-]. rewrite (find_push pred entry _ Hf He).
    split; [|done]. split; [by right | by exists entry].
Qed.

Lemma nameIs_named (name : string) : WSP.nameIs name (WSP.named name) = Returned true.
Proof.
  unfold WSP.nameIs, WSP.named. simpl. rewrite lookup_singleton_eq.
  by rewrite bool_decide_eq_true_2.
Qed.

(** X16.  When the manifest modifier of the plugin returns, each of the four
    lists it edits (permissions, features, intent filters and meta-data of
    the main activity) is the list it found, or that list with the USB
    entry pushed at its end, and holds an entry with the USB name; the
    attributes of the activity are kept; and running the modifier again on
    its result returns the same manifest, nothing being added twice. *)
Theorem plugin_idempotent (manifest manifest' : WSP.Manifest) :
  WSP.withSerialPortManifest manifest = Returned manifest' ->
  WSP.withSerialPortManifest manifest' = Returned manifest' /\
  exists activity activity' permissions features filters metas,
    WSP.mainActivity manifest = Some activity /\
    manifest' = WSP.mkManifest (Some permissions) (Some features) (Some activity') /\
    activity' = WSP.mkActivity (WSP.activityAttrs activity) (Some filters) (Some metas) /\
    ensured (WSP.nameIs WSP.USB_PERMISSION) (WSP.named WSP.USB_PERMISSION)
      (default [] (WSP.usesPermission manifest)) permissions /\
    ensured (WSP.nameIs WSP.USB_HOST) WSP.usbFeature
      (default [] (WSP.usesFeature manifest)) features /\
    ensured WSP.hasUsbAction WSP.usbIntent
      (default [] (WSP.intentFilter activity)) filters /\
    ensured (WSP.nameIs WSP.USB_DEVICE_ATTACHED) WSP.usbMetaData
      (default [] (WSP.metaData activity)) metas.
Proof.
  unfold WSP.withSerialPortManifest.
  destruct (WSP.mainActivity manifest) as [activity|]; [|discriminate].
  destruct (WSP.ensure _ _ (WSP.usesPermission manifest)) as [permissions|] eqn:H1;
    [|discriminate].
  destruct (WSP.ensure _ _ (WSP.usesFeature manifest)) as [features|] eqn:H2; [|discriminate].
  destruct (WSP.ensure _ _ (WSP.intentFilter activity)) as [filters|] eqn:H3; [|discriminate].
  destruct (WSP.ensure _ _ (WSP.metaData activity)) as [metas|] eqn:H4; [|discriminate].
  intros [= <-]. simpl.
  apply ensure_spec in H1 as [E1 R1]; [|apply nameIs_named].
  apply ensure_spec in H2 as [E2 R2]; [|reflexivity].
  apply ensure_spec in H3 as [E3 R3]; [|reflexivity].
  apply ensure_spec in H4 as [E4 R4]; [|reflexivity].
  rewrite R1, R2, R3, R4. split; [done|].
  by exists activity, (WSP.mkActivity (WSP.activityAttrs activity) (Some filters) (Some metas)),
    permissions, features, filters, metas.
Qed.

(** X16 on a manifest that declares nothing yet. *)
Lemma plugin_idempotent_witness :
  WSP.withSerialPortManifest
    (WSP.mkManifest (Some [WSP.named WSP.USB_PERMISSION]) (Some [WSP.usbFeature])
       (Some (WSP.mkActivity ∅ (Some [WSP.usbIntent]) (Some [WSP.usbMetaData]))))
  = Returned
      (WSP.mkManifest (Some [WSP.named WSP.USB_PERMISSION]) (Some [WSP.usbFeature])
         (Some (WSP.mkActivity ∅ (Some [WSP.usbIntent]) (Some [WSP.usbMetaData])))).
Proof.
  exact (proj1 (plugin_idempotent
                  (WSP.mkManifest None None (Some (WSP.mkActivity ∅ None None)))
                  _ eq_refl)).
Defined.

(** X17.  Every vendor id that [connect] selects without a device name
    (0x10C4, 0x1A86, 0x0403) has an entry without product id in the device
    filter the plugin writes; the filter also lists vendor 1659, which
    [connect] does not select on its own. *)
Theorem filter_covers_known_vendors (d : UsbDevice) :
  (SPM.knownVendor d = true -> In (vendorId d, None) WSP.deviceFilter) /\
  In (1659, None) WSP.deviceFilter /\
  (vendorId d = 1659 -> SPM.knownVendor d = false).
Proof.
  split; [|split].
  - intros H. apply knownVendor_spec in H as [-> | [-> | ->]]; simpl; auto.
  - simpl. auto.
  - intros H. apply knownVendor_false. rewrite H. lia.
Qed.

(** X17 at the CP2102 bridge. *)
Lemma filter_covers_known_vendors_witness : In (vendorId cp2102, None) WSP.deviceFilter.
Proof. exact (proj1 (filter_covers_known_vendors cp2102) eq_refl). Defined.
